(** * EasyDocs: page-range parsing, session store, artifact sweep and the
      conversational orchestrator, embedded from the JavaScript sources.

    Conventions of the embedding.
    - A JavaScript string is a [string]: a sequence of code units below 256.
    - A JavaScript number that the code only uses as an integer is a [Z];
      [parseInt] returns [option Z], [None] standing for NaN.  Page counts
      are far below 2^53, so every comparison the code makes between a
      parsed number and a page count has the same outcome on [Z].
    - Objects used as maps are [gmap]s; arrays are [list]s.
    - Code of Node.js or of npm packages (path.extname, pdf-lib, the chat
      client) is not part of the repository: it enters as a parameter.
    - One inbound event is handled to completion before the next one;
      [message.reply], [fs.writeFile], [fs.stat] on a listed entry and
      [fs.remove] are taken to succeed.
    - Loops over numbers carry a fuel equal to the number of iterations
      the JavaScript loop can make; [rangeLoop_fuel], [rotateLoop_fuel] and
      [keepLoop_fuel] show that more fuel changes nothing. *)

From Stdlib Require Import ZArith String Ascii List Bool Lia.
From Stdlib Require Import Sorting.Sorted Sorting.Permutation.
From stdpp Require Import gmap strings list.

Local Open Scope string_scope.
Local Open Scope Z_scope.

(** ** JavaScript built-ins used by the sources *)

Module JS.

(** WhiteSpace and LineTerminator code units below 256: TAB, LF, VT, FF, CR,
    SP and NBSP. *)
Definition isWhiteSpace (c : ascii) : bool :=
  let n := nat_of_ascii c in
  ((9 <=? n) && (n <=? 13) || (n =? 32) || (n =? 160))%nat.

Fixpoint trimStart (s : string) : string :=
  match s with
  | EmptyString => EmptyString
  | String c s' => if isWhiteSpace c then trimStart s' else s
  end.

Fixpoint rev_onto (s acc : string) : string :=
  match s with
  | EmptyString => acc
  | String c s' => rev_onto s' (String c acc)
  end.

Definition reverse (s : string) : string := rev_onto s EmptyString.

Definition trimEnd (s : string) : string := reverse (trimStart (reverse s)).

(** [String.prototype.trim] *)
Definition trim (s : string) : string := trimEnd (trimStart s).

(** [String.prototype.split] with a one-character separator: never empty. *)
Fixpoint split (sep : ascii) (s : string) : list string :=
  match s with
  | EmptyString => [EmptyString]
  | String c s' =>
      if Ascii.eqb c sep then EmptyString :: split sep s'
      else match split sep s' with
           | p :: ps => String c p :: ps
           | [] => [String c EmptyString]
           end
  end.

Definition startsWith (s pre : string) : bool := String.prefix pre s.

(** [String.prototype.includes] *)
Fixpoint includes (s sub : string) : bool :=
  String.prefix sub s ||
  match s with
  | EmptyString => false
  | String _ s' => includes s' sub
  end.

Definition endsWith (s suf : string) : bool :=
  String.prefix (reverse suf) (reverse s).

(** A string is truthy when it is not empty. *)
Definition truthy (s : string) : bool :=
  match s with EmptyString => false | _ => true end.

(** [String.prototype.toLowerCase] on code units below 256. *)
Definition lowerChar (c : ascii) : ascii :=
  let n := nat_of_ascii c in
  if ((65 <=? n) && (n <=? 90))%nat then ascii_of_nat (n + 32)
  else if ((192 <=? n) && (n <=? 222) && negb (n =? 215))%nat
       then ascii_of_nat (n + 32)
  else c.

Fixpoint toLowerCase (s : string) : string :=
  match s with
  | EmptyString => EmptyString
  | String c s' => String (lowerChar c) (toLowerCase s')
  end.

(** Value of a digit in the given radix (10 or 16), if it is one. *)
Definition digitValue (radix : Z) (c : ascii) : option Z :=
  let n := Z.of_nat (nat_of_ascii c) in
  let v := if (48 <=? n) && (n <=? 57) then Some (n - 48)
           else if (97 <=? n) && (n <=? 102) then Some (n - 87)
           else if (65 <=? n) && (n <=? 70) then Some (n - 55)
           else None in
  match v with
  | Some d => if d <? radix then Some d else None
  | None => None
  end.

(** Longest prefix of radix digits, read left to right: [None] when there
    is no digit at all. *)
Fixpoint readDigits (radix : Z) (s : string) (acc : option Z) : option Z :=
  match s with
  | EmptyString => acc
  | String c s' =>
      match digitValue radix c with
      | Some d => readDigits radix s' (Some (default 0 acc * radix + d))
      | None => acc
      end
  end.

(** [parseInt(s)] with no radix argument: leading white space is skipped, a
    sign is read, a [0x]/[0X] prefix switches to radix 16, and the longest
    digit prefix is the value; NaN ([None]) when that prefix is empty. *)
Definition parseInt (s : string) : option Z :=
  let s1 := trimStart s in
  let '(sign, s2) :=
    match s1 with
    | String "-" r => (-1, r)
    | String "+" r => (1, r)
    | _ => (1, s1)
    end in
  let '(radix, s3) :=
    match s2 with
    | String "0" (String "x" r) => (16, r)
    | String "0" (String "X" r) => (16, r)
    | _ => (10, s2)
    end in
  match readDigits radix s3 None with
  | Some v => Some (sign * v)
  | None => None
  end.

(** [x || d] for a number [x]: NaN and 0 are falsy. *)
Definition numOr (x : option Z) (d : Z) : Z :=
  match x with
  | Some v => if v =? 0 then d else v
  | None => d
  end.

(** [Array.prototype.includes] on numbers. *)
Definition arrIncludes (l : list Z) (x : Z) : bool :=
  existsb (Z.eqb x) l.

Fixpoint insertNum (x : Z) (l : list Z) : list Z :=
  match l with
  | [] => [x]
  | y :: l' => if x <? y then x :: l else y :: insertNum x l'
  end.

(** [arr.sort((a, b) => a - b)]: the stable ascending sort. *)
Definition sortNum (l : list Z) : list Z := foldr insertNum [] (rev l).

End JS.

(** ** pdfService.js: the shared range parser *)

(** The counting loop of a range token:
    [for (let i = startNum; i <= endNum && i <= totalPages; i++)
       if (i >= 1 && !pages.includes(i)) pages.push(i)]. *)
Fixpoint rangeLoop (fuel : nat) (i endNum totalPages : Z) (pages : list Z)
  : list Z :=
  match fuel with
  | O => pages
  | S fuel' =>
      if (i <=? endNum) && (i <=? totalPages) then
        rangeLoop fuel' (i + 1) endNum totalPages
          (if (1 <=? i) && negb (JS.arrIncludes pages i)
           then pages ++ [i] else pages)
      else pages
  end.

(** Iterations the loop above can make from [i]. *)
Definition rangeFuel (i endNum totalPages : Z) : nat :=
  Z.to_nat (Z.min endNum totalPages - i + 1).

(** Body of [for (const part of parts)] in [parsePageRange]. *)
Definition parsePart (totalPages : Z) (pages : list Z) (part : string)
  : list Z :=
  let trimmed := JS.trim part in
  if JS.includes trimmed "-" then
    let pieces := map JS.trim (JS.split "-" trimmed) in
    let start := nth 0 pieces "" in
    let end_ := nth 1 pieces "" in
    let startNum := JS.numOr (JS.parseInt start) 1 in
    let endNum := if JS.truthy end_
                  then JS.numOr (JS.parseInt end_) totalPages
                  else totalPages in
    rangeLoop (rangeFuel startNum endNum totalPages)
              startNum endNum totalPages pages
  else
    match JS.parseInt trimmed with
    | Some pageNum =>
        if (1 <=? pageNum) && (pageNum <=? totalPages)
           && negb (JS.arrIncludes pages pageNum)
        then pages ++ [pageNum] else pages
    | None => pages
    end.

Definition parsePageRange (pageRange : string) (totalPages : Z) : list Z :=
  JS.sortNum (fold_left (parsePart totalPages) (JS.split "," pageRange) []).


(** ** Results of fallible code: a returned value or a thrown [Error] *)

Inductive Result (A : Type) : Type :=
| Ok (a : A)
| Throw (msg : string).
Arguments Ok {A} a.
Arguments Throw {A} msg.

Definition isThrow {A} (r : Result A) : bool :=
  match r with Throw _ => true | Ok _ => false end.

(** ** fileManager.js: the staging area as a map from path to content *)

Definition Bytes : Type := list Byte.byte.

Definition verifyFile (fs : gmap string Bytes) (filePath : string) : bool :=
  if negb (JS.truthy filePath) then false
  else match fs !! filePath with
       | Some content => (0 <? length content)%nat
       | None => false
       end.

Definition cleanupFile (fs : gmap string Bytes) (filePath : string)
  : gmap string Bytes :=
  if JS.truthy filePath && bool_decide (is_Some (fs !! filePath))
  then delete filePath fs else fs.

(** ** pdfService.js and the edit service over an abstract pdf-lib *)

Section PdfServices.

(** pdf-lib: a loaded document is its sequence of pages; [load] may throw. *)
Context {Page : Type}.
Variable load : Bytes -> Result (list Page).
Variable save : list Page -> Bytes.

(** [newPdf.copyPages(pdf, indices)]: an index outside the document throws
    (with a message of pdf-lib's own, immaterial here). *)
Fixpoint copyPages (pdf : list Page) (indices : list Z)
  : Result (list Page) :=
  match indices with
  | [] => Ok []
  | i :: rest =>
      match (if 0 <=? i then pdf !! Z.to_nat i else None) with
      | None => Throw "Invalid page index"
      | Some pg =>
          match copyPages pdf rest with
          | Ok pgs => Ok (pg :: pgs)
          | Throw m => Throw m
          end
      end
  end.

(** The [try] block of [splitPDF]; [outputPath] is the handle obtained from
    [getTempFilePath('.pdf')]. *)
Definition splitPDF_try (fs : gmap string Bytes)
    (outputPath pdfPath pageRange : string)
  : Result string * gmap string Bytes :=
  if negb (verifyFile fs pdfPath) then (Throw "Input PDF not found", fs)
  else
    let pdfBytes := default [] (fs !! pdfPath) in
    match load pdfBytes with
    | Throw m => (Throw m, fs)
    | Ok pdf =>
        let totalPages := Z.of_nat (length pdf) in
        let pages := parsePageRange pageRange totalPages in
        if (length pages =? 0)%nat then (Throw "Invalid page range", fs)
        else
          match copyPages pdf (map (fun p => p - 1) pages) with
          | Throw m => (Throw m, fs)
          | Ok copiedPages =>
              let fs' := <[outputPath := save copiedPages]> fs in
              if negb (verifyFile fs' outputPath)
              then (Throw "Failed to create split PDF", fs')
              else (Ok outputPath, fs')
          end
    end.

(** [catch (error) { await cleanupFile(outputPath); throw error; }] *)
Definition cleanupOnThrow (outputPath : string)
    (r : Result string * gmap string Bytes)
  : Result string * gmap string Bytes :=
  match r with
  | (Throw m, fs') => (Throw m, cleanupFile fs' outputPath)
  | (Ok p, fs') => (Ok p, fs')
  end.

Definition splitPDF (fs : gmap string Bytes)
    (outputPath pdfPath pageRange : string) :=
  cleanupOnThrow outputPath (splitPDF_try fs outputPath pdfPath pageRange).

(** "Extract is similar to split, reuse split logic" *)
Definition extractPages (fs : gmap string Bytes)
    (outputPath pdfPath pageRange : string) :=
  splitPDF fs outputPath pdfPath pageRange.

(** [for (let i = 1; i <= totalPages; i++)
      if (!pagesToRemove.includes(i)) pagesToKeep.push(i - 1)] *)
Fixpoint keepLoop (fuel : nat) (i totalPages : Z) (pagesToRemove : list Z)
    (pagesToKeep : list Z) : list Z :=
  match fuel with
  | O => pagesToKeep
  | S fuel' =>
      if i <=? totalPages then
        keepLoop fuel' (i + 1) totalPages pagesToRemove
          (if negb (JS.arrIncludes pagesToRemove i)
           then pagesToKeep ++ [i - 1] else pagesToKeep)
      else pagesToKeep
  end.

(** The 0-based indices [removePages] keeps. *)
Definition pagesToKeep (pageRange : string) (totalPages : Z) : list Z :=
  keepLoop (Z.to_nat totalPages) 1 totalPages
           (parsePageRange pageRange totalPages) [].

Definition removePages_try (fs : gmap string Bytes)
    (outputPath pdfPath pageRange : string)
  : Result string * gmap string Bytes :=
  if negb (verifyFile fs pdfPath) then (Throw "Input PDF not found", fs)
  else
    let pdfBytes := default [] (fs !! pdfPath) in
    match load pdfBytes with
    | Throw m => (Throw m, fs)
    | Ok pdf =>
        let totalPages := Z.of_nat (length pdf) in
        let keep := pagesToKeep pageRange totalPages in
        if (length keep =? 0)%nat then (Throw "Cannot remove all pages", fs)
        else
          match copyPages pdf keep with
          | Throw m => (Throw m, fs)
          | Ok copiedPages =>
              let fs' := <[outputPath := save copiedPages]> fs in
              if negb (verifyFile fs' outputPath)
              then (Throw "Failed to create modified PDF", fs')
              else (Ok outputPath, fs')
          end
    end.

Definition removePages (fs : gmap string Bytes)
    (outputPath pdfPath pageRange : string) :=
  cleanupOnThrow outputPath (removePages_try fs outputPath pdfPath pageRange).

(** *** pdfSecurityService.js: [comparePDFs] *)

Record Differences := {
  pageCountMatch : bool;
  pageCount1 : Z;
  pageCount2 : Z;
  fileSize1 : Z;
  fileSize2 : Z;
  fileSizeMatch : bool;
  identical : bool
}.

(** [a.every((byte, index) => byte === b[index])]; a missing [b[index]] is
    [undefined], which equals no byte. *)
Fixpoint everyEqual (a b : Bytes) : bool :=
  match a with
  | [] => true
  | x :: a' =>
      match b with
      | y :: b' => Byte.eqb x y && everyEqual a' b'
      | [] => false
      end
  end.

Definition comparePDFs (fs : gmap string Bytes) (pdfPath1 pdfPath2 : string)
  : Result Differences :=
  if negb (verifyFile fs pdfPath1) then Throw "First PDF not found"
  else if negb (verifyFile fs pdfPath2) then Throw "Second PDF not found"
  else
    let pdfBytes1 := default [] (fs !! pdfPath1) in
    let pdfBytes2 := default [] (fs !! pdfPath2) in
    match load pdfBytes1 with
    | Throw m => Throw m
    | Ok pdf1 =>
        match load pdfBytes2 with
        | Throw m => Throw m
        | Ok pdf2 =>
            let pc1 := Z.of_nat (length pdf1) in
            let pc2 := Z.of_nat (length pdf2) in
            let len1 := Z.of_nat (length pdfBytes1) in
            let len2 := Z.of_nat (length pdfBytes2) in
            let pcm := pc1 =? pc2 in
            let fsm := len1 =? len2 in
            Ok {| pageCountMatch := pcm;
                  pageCount1 := pc1;
                  pageCount2 := pc2;
                  fileSize1 := len1;
                  fileSize2 := len2;
                  fileSizeMatch := fsm;
                  identical :=
                    if pcm && fsm
                    then (len1 =? len2) && everyEqual pdfBytes1 pdfBytes2
                    else false |}
        end
    end.

End PdfServices.

(** ** The edit service: page selection inlined in [rotatePDF] *)

(** [for (let i = start - 1; i < (end || totalPages); i++)
      if (i >= 0 && i < totalPages) pagesToRotate.push(i)] *)
Fixpoint rotateLoop (fuel : nat) (i bound totalPages : Z) (acc : list Z)
  : list Z :=
  match fuel with
  | O => acc
  | S fuel' =>
      if i <? bound then
        rotateLoop fuel' (i + 1) bound totalPages
          (if (0 <=? i) && (i <? totalPages) then acc ++ [i] else acc)
      else acc
  end.

(** Body of [for (const part of parts)] in [rotatePDF].  A NaN [start]
    makes [i] NaN, and [NaN < bound] is false: the loop body never runs. *)
Definition rotatePart (totalPages : Z) (acc : list Z) (part : string)
  : list Z :=
  let trimmed := JS.trim part in
  if JS.includes trimmed "-" then
    let nums := map (fun s => JS.parseInt (JS.trim s))
                    (JS.split "-" trimmed) in
    let start := nth 0 nums None in
    let end_ := nth 1 nums None in
    match start with
    | None => acc
    | Some st =>
        let bound := JS.numOr end_ totalPages in
        rotateLoop (Z.to_nat (bound - (st - 1))) (st - 1) bound totalPages acc
    end
  else
    match JS.parseInt trimmed with
    | Some p =>
        let pageNum := p - 1 in
        if (0 <=? pageNum) && (pageNum <? totalPages)
        then acc ++ [pageNum] else acc
    | None => acc
    end.

(** The [else] branch: "Parse range like 1-5 or 1,3,5". *)
Definition rotateParse (pageRange : string) (totalPages : Z) : list Z :=
  fold_left (rotatePart totalPages) (JS.split "," pageRange) [].

(** [pagesToRotate] of [rotatePDF], 0-based. *)
Definition pagesToRotate (pageRange : string) (totalPages : Z) : list Z :=
  if String.eqb pageRange "all"
  then map Z.of_nat (seq 0 (Z.to_nat totalPages))
  else rotateParse pageRange totalPages.


(** ** fileManager.js: extension lookup and the artifact sweep *)

(** A model of Node's POSIX [path.extname], used only to run the sources on
    concrete inputs: the text from the last dot of the last non-empty path
    component; empty when that component has no dot, starts at its only
    dot, or is [..]. *)
Definition lastComponent (p : string) : string :=
  default EmptyString
    (last (filter (fun c => JS.truthy c = true) (JS.split "/" p))).

Fixpoint fromLastDot (s : string) (found : option string) : option string :=
  match s with
  | EmptyString => found
  | String c s' =>
      fromLastDot s' (if Ascii.eqb c "." then Some s else found)
  end.

Definition posix_extname (p : string) : string :=
  match lastComponent p with
  | EmptyString => EmptyString
  | String c rest =>
      if String.eqb (String c rest) ".." then EmptyString
      else match fromLastDot rest None with
           | Some e => e
           | None => EmptyString
           end
  end.

Definition maxAge : Z := 60 * 60 * 1000.

(** One iteration of [for (const file of files)] in [cleanupOldFiles] over
    the staging directory, seen as a map from entry name to [mtimeMs]; a
    failing [fs.stat] is ignored. *)
Definition sweepFile (now : Z) (dir : gmap string Z) (file : string)
  : gmap string Z :=
  match dir !! file with
  | Some mtimeMs => if maxAge <? now - mtimeMs then delete file dir else dir
  | None => dir
  end.

Definition cleanupOldFiles (now : Z) (dir : gmap string Z) : gmap string Z :=
  fold_left (sweepFile now) (map_to_list dir).*1 dir.

(** ** helpers.js: [detectFileType] *)

Section FileTypes.

(** [path.extname] of Node.js. *)
Variable extname : string -> string.

Definition getFileExtension (filePath : string) : string :=
  JS.toLowerCase (extname filePath).

(** [array.includes(ext)] on strings. *)
Definition strIn (x : string) (l : list string) : bool :=
  existsb (String.eqb x) l.

Definition detectFileType (filename : string) (mimeType : option string)
  : string :=
  let ext := getFileExtension filename in
  if String.eqb ext ".pdf" then "pdf"
  else if strIn ext [".jpg"; ".jpeg"; ".png"; ".gif"; ".bmp"; ".webp"]
  then "image"
  else if strIn ext [".doc"; ".docx"] then "word"
  else if strIn ext [".ppt"; ".pptx"] then "powerpoint"
  else if strIn ext [".xls"; ".xlsx"] then "excel"
  else if strIn ext [".html"; ".htm"] then "html"
  else
    match mimeType with
    | Some m =>
        if negb (JS.truthy m) then "unknown"
        else if JS.includes m "pdf" then "pdf"
        else if JS.includes m "image" then "image"
        else if JS.includes m "word" || JS.includes m "document" then "word"
        else if JS.includes m "presentation" || JS.includes m "powerpoint"
        then "powerpoint"
        else if JS.includes m "spreadsheet" || JS.includes m "excel"
        then "excel"
        else if JS.includes m "html" then "html"
        else "unknown"
    | None => "unknown"
    end.

End FileTypes.

(** The extensions the first six tests of [detectFileType] recognise. *)
Definition recognizedExtensions : list string :=
  [".pdf"; ".jpg"; ".jpeg"; ".png"; ".gif"; ".bmp"; ".webp"; ".doc"; ".docx";
   ".ppt"; ".pptx"; ".xls"; ".xlsx"; ".html"; ".htm"].

Definition fileTypeTags : list string :=
  ["pdf"; "image"; "word"; "powerpoint"; "excel"; "html"; "unknown"].

(** ** sessionManager.js *)

Record FileInfo := {
  file_path : string;
  file_type : string;
  file_mimetype : string;
  file_size : Z;
  file_filename : string
}.

Record Session := {
  userId : string;
  uploadedFiles : list FileInfo;
  currentStep : string;
  selectedOperation : option string;
  metadata : gmap string string;
  lastActivity : Z
}.

Definition SESSION_TIMEOUT : Z := 30 * 60 * 1000.

Definition newSession (uid : string) (now : Z) : Session :=
  {| userId := uid;
     uploadedFiles := [];
     currentStep := "idle";
     selectedOperation := None;
     metadata := ∅;
     lastActivity := now |}.

Definition touch (now : Z) (s : Session) : Session :=
  {| userId := userId s;
     uploadedFiles := uploadedFiles s;
     currentStep := currentStep s;
     selectedOperation := selectedOperation s;
     metadata := metadata s;
     lastActivity := now |}.

(** [getSession]: creates the record when absent, refreshes [lastActivity]
    in place and returns it. *)
Definition getSession (now : Z) (uid : string) (store : gmap string Session)
  : Session * gmap string Session :=
  let session :=
    touch now (match store !! uid with
               | Some s => s
               | None => newSession uid now
               end) in
  (session, <[uid := session]> store).

Definition clearSession (uid : string) (store : gmap string Session)
  : gmap string Session := delete uid store.

(** The partial object handed to [updateSession]; [None] leaves a field
    alone. *)
Record Updates := {
  upd_currentStep : option string;
  upd_selectedOperation : option (option string);
  upd_metadata : option (gmap string string)
}.

Definition assign (s : Session) (u : Updates) : Session :=
  {| userId := userId s;
     uploadedFiles := uploadedFiles s;
     currentStep := default (currentStep s) (upd_currentStep u);
     selectedOperation :=
       default (selectedOperation s) (upd_selectedOperation u);
     metadata := default (metadata s) (upd_metadata u);
     lastActivity := lastActivity s |}.

Definition updateSession (now : Z) (uid : string) (u : Updates)
    (store : gmap string Session) : gmap string Session :=
  let '(session, store') := getSession now uid store in
  <[uid := touch now (assign session u)]> store'.

Definition addFileToSession (now : Z) (uid : string) (fileInfo : FileInfo)
    (store : gmap string Session) : gmap string Session :=
  let '(session, store') := getSession now uid store in
  <[uid := {| userId := userId session;
              uploadedFiles := uploadedFiles session ++ [fileInfo];
              currentStep := currentStep session;
              selectedOperation := selectedOperation session;
              metadata := metadata session;
              lastActivity := now |}]> store'.

Definition getSessionFiles (now : Z) (uid : string)
    (store : gmap string Session) : list FileInfo * gmap string Session :=
  let '(session, store') := getSession now uid store in
  (uploadedFiles session, store').

Definition clearSessionFiles (now : Z) (uid : string)
    (store : gmap string Session) : gmap string Session :=
  let '(session, store') := getSession now uid store in
  <[uid := {| userId := userId session;
              uploadedFiles := [];
              currentStep := currentStep session;
              selectedOperation := selectedOperation session;
              metadata := metadata session;
              lastActivity := now |}]> store'.

(** One iteration of [for (const [userId, session] of userSessions.entries())]
    in [cleanupExpiredSessions]. *)
Definition expireEntry (now : Z) (store : gmap string Session)
    (entry : string * Session) : gmap string Session :=
  if SESSION_TIMEOUT <? now - lastActivity entry.2
  then delete entry.1 store else store.

Definition cleanupExpiredSessions (now : Z) (store : gmap string Session)
  : gmap string Session :=
  fold_left (expireEntry now) (map_to_list store) store.

(** ** messageHandler.js: the orchestrator *)

(** Outbound messages, one constructor per reply literal of the handler. *)
Inductive Reply : Type :=
| RMainMenu                        (* getMainMenu() *)
| RCancelled                       (* "Operation cancelled. ..." *)
| RCleared                         (* "All uploaded files cleared. ..." *)
| RDownloading                     (* "Downloading file..." *)
| RDownloadFailed                  (* "Failed to download file. ..." *)
| RSaveFailed                      (* "Failed to save file. ..." *)
| RFileReceived (size : Z)         (* "File received! (size) ..." *)
| RUploadError (msg : string)      (* "Error uploading file: msg" *)
| RInvalidOption                   (* "Invalid option. ..." *)
| RInstructions (operation : string) (* getOperationInstructions(op) *)
| RMergeSendFiles                  (* "Please send PDF files to merge. ..." *)
| RMergeReceived (count : nat)     (* "Received n file(s). ..." *)
| RCompareSendFirst                (* "Please send the first PDF file." *)
| RCompareSendSecond               (* "Please send the second PDF file to compare." *)
| RMergeNeedTwo                    (* "Please send at least 2 PDF files to merge." *)
| RProcessing                      (* "Processing... This may take a moment." *)
| RAskPageRange (operation : string) (* "Please specify page range / pages to ..." *)
| RAskPageNumber                   (* "Please specify page number ..." *)
| RAskAngle                        (* "Please specify rotation angle ..." *)
| RAskPosition                     (* "Please specify position ..." *)
| RAskWatermark                    (* "Please send watermark image or type ..." *)
| RAskPassword                     (* "Please provide a password:" *)
| RAskSignature                    (* "Please send the signature image:" *)
| RCropUnsupported                 (* "Crop PDF requires specific dimensions. ..." *)
| RRedactUnsupported               (* "Redact PDF requires specific coordinates. ..." *)
| RComparison (d : Differences)    (* "Comparison Results: ..." *)
| RMedia (filePath : string)       (* message.reply(media) *)
| RDone                            (* "Done! Type menu to see more options." *)
| RError (msg : string).           (* "Error: msg ... Type menu to start over." *)

(** The service functions the handler invokes, with their arguments. *)
Inductive EngineCall : Type :=
| MergePDFs (pdfPaths : list string)
| SplitPDF (pdfPath pageRange : string)
| RemovePages (pdfPath pageRange : string)
| ExtractPages (pdfPath pageRange : string)
| CompressPDF (pdfPath quality : string)
| RepairPDF (pdfPath : string)
| OcrPDF (pdfPath : string)
| ImageToPDF (imagePath : string)
| WordToPDF (wordPath : string)
| PowerpointToPDF (pptPath : string)
| ExcelToPDF (excelPath : string)
| HtmlToPDF (htmlPath : string)
| PdfToImage (pdfPath : string) (pageNumber : option Z)
| PdfToWord (pdfPath : string)
| PdfToPowerpoint (pdfPath : string)
| PdfToExcel (pdfPath : string)
| PdfToPDFA (pdfPath : string)
| RotatePDF (pdfPath : string) (angle : option Z) (pageRange : string)
| AddPageNumbers (pdfPath position : string)
| AddWatermark (pdfPath watermarkText : string) (imagePath : option string)
| BasicEditPDF (pdfPath : string)
| UnlockPDF (pdfPath password : string)
| ProtectPDF (pdfPath userPassword : string)
| SignPDF (pdfPath signatureImagePath position : string)
| ComparePDFs (pdfPath1 pdfPath2 : string).

Record Media := {
  media_mimetype : string;
  media_data : Bytes;                (* Buffer.from(media.data, 'base64') *)
  media_filename : option string
}.

(** Outcome of [message.downloadMedia()]. *)
Inductive Download : Type :=
| DownloadThrows (msg : string)
| DownloadNothing
| Downloaded (media : Media).

Record Message := {
  msg_from : string;
  msg_body : string;
  msg_hasMedia : bool;
  msg_download : Download
}.

(** What the handler reads and writes: the session table, the staging
    area, the replies sent so far, and the service calls made so far. *)
Record World := {
  sessions : gmap string Session;
  staging : gmap string Bytes;
  outbox : list Reply;
  engineLog : list EngineCall
}.

(** Handler code: a state transformer that returns or throws. *)
Definition M (A : Type) : Type := World -> Result A * World.

Definition ret {A} (a : A) : M A := fun w => (Ok a, w).

Definition throw {A} (msg : string) : M A := fun w => (Throw msg, w).

Definition bind {A B} (m : M A) (k : A -> M B) : M B :=
  fun w =>
    match m w with
    | (Ok a, w') => k a w'
    | (Throw e, w') => (Throw e, w')
    end.

(** [try { m } catch (error) { h error.message }] *)
Definition tryCatch {A} (m : M A) (h : string -> M A) : M A :=
  fun w =>
    match m w with
    | (Ok a, w') => (Ok a, w')
    | (Throw e, w') => h e w'
    end.

Declare Scope handler_scope.
Delimit Scope handler_scope with handler.
Notation "'let*' x ':=' m 'in' k" := (bind m (fun x => k))
  (at level 10, x name, m at level 100, k at level 200) : handler_scope.
Notation "'exec' m 'in' k" := (bind m (fun _ => k))
  (at level 10, m at level 100, k at level 200) : handler_scope.
Local Open Scope handler_scope.

Definition reply (r : Reply) : M unit :=
  fun w => (Ok tt, {| sessions := sessions w;
                      staging := staging w;
                      outbox := outbox w ++ [r];
                      engineLog := engineLog w |}).

Definition withSessions (f : gmap string Session -> gmap string Session)
  : M unit :=
  fun w => (Ok tt, {| sessions := f (sessions w);
                      staging := staging w;
                      outbox := outbox w;
                      engineLog := engineLog w |}).

Definition readSessions {A}
    (f : gmap string Session -> A * gmap string Session) : M A :=
  fun w => let '(a, store) := f (sessions w) in
           (Ok a, {| sessions := store;
                     staging := staging w;
                     outbox := outbox w;
                     engineLog := engineLog w |}).

Definition withStaging (f : gmap string Bytes -> gmap string Bytes)
  : M unit :=
  fun w => (Ok tt, {| sessions := sessions w;
                      staging := f (staging w);
                      outbox := outbox w;
                      engineLog := engineLog w |}).

Definition verify (filePath : string) : M bool :=
  fun w => (Ok (verifyFile (staging w) filePath), w).

(** [{ currentStep: 'idle', selectedOperation: null }] *)
Definition toIdle : Updates :=
  {| upd_currentStep := Some "idle";
     upd_selectedOperation := Some None;
     upd_metadata := None |}.

(** [{ currentStep: step }] *)
Definition toStep (step : string) : Updates :=
  {| upd_currentStep := Some step;
     upd_selectedOperation := None;
     upd_metadata := None |}.

(** [metadata.key] when it is truthy. *)
Definition metaGet (md : gmap string string) (key : string) : option string :=
  match md !! key with
  | Some v => if JS.truthy v then Some v else None
  | None => None
  end.

(** How the [switch] of [processOperation] is left: by [return], or by
    [break] with [outputPath] / [outputPaths] set. *)
Inductive SwitchExit : Type :=
| Returned
| Broke (outputPath : option string) (outputPaths : list string).

Definition operationMap : list (string * string) :=
  [("1", "merge_pdf"); ("2", "split_pdf"); ("3", "remove_pages");
   ("4", "extract_pages"); ("5", "compress_pdf"); ("6", "repair_pdf");
   ("7", "ocr_pdf"); ("8", "image_to_pdf"); ("9", "word_to_pdf");
   ("10", "powerpoint_to_pdf"); ("11", "excel_to_pdf");
   ("12", "html_to_pdf"); ("13", "pdf_to_image"); ("14", "pdf_to_word");
   ("15", "pdf_to_powerpoint"); ("16", "pdf_to_excel");
   ("17", "pdf_to_pdfa"); ("18", "rotate_pdf"); ("19", "add_page_numbers");
   ("20", "add_watermark"); ("21", "crop_pdf"); ("22", "basic_edit_pdf");
   ("23", "unlock_pdf"); ("24", "protect_pdf"); ("25", "sign_pdf");
   ("26", "redact_pdf"); ("27", "compare_pdf")].

(** [operationMap[body]] on the table's own keys (names inherited from
    [Object.prototype], such as "constructor", are left out). *)
Fixpoint lookupOperation (body : string) (table : list (string * string))
  : option string :=
  match table with
  | [] => None
  | (k, v) :: rest => if String.eqb k body then Some v
                      else lookupOperation body rest
  end.

(** The extension [handleFileUpload] gives a download. *)
Definition uploadExtension (mimetype : string) : string :=
  if JS.includes mimetype "pdf" then ".pdf"
  else if JS.includes mimetype "image" then ".jpg"
  else if JS.includes mimetype "word" then ".docx"
  else if JS.includes mimetype "presentation" then ".pptx"
  else if JS.includes mimetype "spreadsheet" then ".xlsx"
  else if JS.includes mimetype "html" then ".html"
  else ".bin".

(** [s.replace('waiting_for_', '')] on a string that starts with it. *)
Definition stripWaitingFor (s : string) : string :=
  String.substring 12 (String.length s - 12)%nat s.

Section Orchestrator.

Context {Page : Type}.
(** [Date.now()] during the event being handled. *)
Variable now : Z.
(** Node's [path.extname]. *)
Variable extname : string -> string.
(** [getTempFilePath(extension)]: the handle allocated for this event. *)
Variable getTempFilePath : string -> string.
(** pdf-lib. *)
Variable load : Bytes -> Result (list Page).
Variable save : list Page -> Bytes.
(** The services that shell out to external tools, returning a path. *)
Variable engine :
  EngineCall -> gmap string Bytes -> Result string * gmap string Bytes.
(** [conversionService.pdfToImage], its result seen through
    [Array.isArray(images) ? images : [images]]. *)
Variable pdfToImage :
  string -> option Z -> gmap string Bytes ->
  Result (list string) * gmap string Bytes.
(** [MessageMedia.fromFilePath(filePath)] followed by [message.reply(media)]. *)
Variable sendMedia : string -> Result unit.

Definition getSessionM (uid : string) : M Session :=
  readSessions (getSession now uid).

Definition getSessionFilesM (uid : string) : M (list FileInfo) :=
  readSessions (getSessionFiles now uid).

Definition updateSessionM (uid : string) (u : Updates) : M unit :=
  withSessions (updateSession now uid u).

Definition clearSessionFilesM (uid : string) : M unit :=
  withSessions (clearSessionFiles now uid).

(** [session.metadata[key] = value] on the live session object. *)
Definition setMetadata (uid key value : string) : M unit :=
  withSessions (fun store =>
    match store !! uid with
    | Some s =>
        <[uid := {| userId := userId s;
                    uploadedFiles := uploadedFiles s;
                    currentStep := currentStep s;
                    selectedOperation := selectedOperation s;
                    metadata := <[key := value]> (metadata s);
                    lastActivity := lastActivity s |}]> store
    | None => store
    end).

Definition logCall (c : EngineCall) : M unit :=
  fun w => (Ok tt, {| sessions := sessions w;
                      staging := staging w;
                      outbox := outbox w;
                      engineLog := engineLog w ++ [c] |}).

(** A call into a service that runs on the staging area. *)
Definition onStaging {A}
    (f : gmap string Bytes -> Result A * gmap string Bytes) : M A :=
  fun w => let '(r, fs') := f (staging w) in
           (r, {| sessions := sessions w;
                  staging := fs';
                  outbox := outbox w;
                  engineLog := engineLog w |}).

Definition callEngine (c : EngineCall) : M string :=
  exec logCall c in onStaging (engine c).

Definition validateFileType (files : list FileInfo)
    (requiredType operationName : string) : M unit :=
  match files with
  | [] => throw ("Please send a " ++ requiredType ++ " file.")
  | f :: _ =>
      if negb (String.eqb (file_type f) requiredType)
      then throw ("Invalid file type for " ++ operationName
                  ++ ". Expected " ++ requiredType ++ ", received "
                  ++ (if JS.truthy (file_type f) then file_type f
                      else "unknown") ++ ".")
      else ret tt
  end.

(** [files[0].path] after a check that [files] is not empty. *)
Definition firstPath (files : list FileInfo) : string :=
  match files with
  | f :: _ => file_path f
  | [] => ""
  end.

(** The common shape "validate, then run one service on [files[0].path]". *)
Definition simplePdfCase (files : list FileInfo) (operationName : string)
    (call : string -> EngineCall) : M SwitchExit :=
  exec validateFileType files "pdf" operationName in
  let* outputPath := callEngine (call (firstPath files)) in
  ret (Broke (Some outputPath) []).

(** "validate, ask for the page range when missing, then run [service]". *)
Definition pageRangeCase (uid : string) (files : list FileInfo)
    (md : gmap string string) (operation operationName : string)
    (call : string -> string -> EngineCall)
    (service : gmap string Bytes -> string -> string -> string ->
               Result string * gmap string Bytes) : M SwitchExit :=
  exec validateFileType files "pdf" operationName in
  match metaGet md "pageRange" with
  | None =>
      exec updateSessionM uid (toStep "waiting_for_page_range") in
      exec reply (RAskPageRange operation) in
      ret Returned
  | Some pageRange =>
      exec logCall (call (firstPath files) pageRange) in
      let* outputPath :=
        onStaging (fun fs => service fs (getTempFilePath ".pdf")
                                     (firstPath files) pageRange) in
      ret (Broke (Some outputPath) [])
  end.

(** "throw when no file was sent, then run one service on [files[0].path]". *)
Definition officeCase (files : list FileInfo) (missing : string)
    (call : string -> EngineCall) : M SwitchExit :=
  match files with
  | [] => throw missing
  | f :: _ =>
      let* outputPath := callEngine (call (file_path f)) in
      ret (Broke (Some outputPath) [])
  end.

(** The [switch (operation)] of [processOperation]. *)
Definition dispatch (uid : string) (operation : option string)
    (files : list FileInfo) (md : gmap string string) : M SwitchExit :=
  let op := default "" operation in
  if String.eqb op "merge_pdf" then
    if (length files <? 2)%nat
    then throw "Please send at least 2 PDF files to merge."
    else
      let pdfPaths := List.filter (fun p => JS.endsWith p ".pdf")
                                  (map file_path files) in
      if (length pdfPaths <? 2)%nat
      then throw "Please send PDF files only."
      else let* outputPath := callEngine (MergePDFs pdfPaths) in
           ret (Broke (Some outputPath) [])
  else if String.eqb op "split_pdf" then
    pageRangeCase uid files md op "Split PDF" SplitPDF (splitPDF load save)
  else if String.eqb op "remove_pages" then
    pageRangeCase uid files md op "Remove Pages" RemovePages
                  (removePages load save)
  else if String.eqb op "extract_pages" then
    pageRangeCase uid files md op "Extract Pages" ExtractPages
                  (extractPages load save)
  else if String.eqb op "compress_pdf" then
    simplePdfCase files "Compress PDF"
      (fun p => CompressPDF p (default "ebook" (metaGet md "quality")))
  else if String.eqb op "repair_pdf" then
    simplePdfCase files "Repair PDF" RepairPDF
  else if String.eqb op "ocr_pdf" then
    simplePdfCase files "OCR PDF" OcrPDF
  else if String.eqb op "image_to_pdf" then
    match files with
    | [] => throw "Please send an image file."
    | f :: _ =>
        if negb (String.eqb (file_type f) "image")
        then throw ("Please send an image file (JPG, PNG, etc.). Received: "
                    ++ file_type f)
        else let* outputPath := callEngine (ImageToPDF (file_path f)) in
             ret (Broke (Some outputPath) [])
    end
  else if String.eqb op "word_to_pdf" then
    officeCase files "Please send a Word document." WordToPDF
  else if String.eqb op "powerpoint_to_pdf" then
    officeCase files "Please send a PowerPoint file." PowerpointToPDF
  else if String.eqb op "excel_to_pdf" then
    officeCase files "Please send an Excel file." ExcelToPDF
  else if String.eqb op "html_to_pdf" then
    officeCase files "Please send an HTML file." HtmlToPDF
  else if String.eqb op "pdf_to_image" then
    match files with
    | [] => throw "Please send a PDF file."
    | f :: _ =>
        if negb (String.eqb (file_type f) "pdf")
        then throw ("Please send a PDF file. Received: " ++ file_type f)
        else
          match metaGet md "pageNumber" with
          | None =>
              exec updateSessionM uid (toStep "waiting_for_page_number") in
              exec reply RAskPageNumber in
              ret Returned
          | Some pageNumber =>
              let pageNum :=
                if String.eqb pageNumber "all" || String.eqb pageNumber "0"
                then Some 0 else JS.parseInt pageNumber in
              exec logCall (PdfToImage (file_path f) pageNum) in
              let* images := onStaging (pdfToImage (file_path f) pageNum) in
              ret (Broke None images)
          end
    end
  else if String.eqb op "pdf_to_word" then
    simplePdfCase files "PDF to Word" PdfToWord
  else if String.eqb op "pdf_to_powerpoint" then
    simplePdfCase files "PDF to PowerPoint" PdfToPowerpoint
  else if String.eqb op "pdf_to_excel" then
    simplePdfCase files "PDF to Excel" PdfToExcel
  else if String.eqb op "pdf_to_pdfa" then
    simplePdfCase files "PDF to PDF/A" PdfToPDFA
  else if String.eqb op "rotate_pdf" then
    exec validateFileType files "pdf" "Rotate PDF" in
    match metaGet md "angle" with
    | None =>
        exec updateSessionM uid (toStep "waiting_for_angle") in
        exec reply RAskAngle in
        ret Returned
    | Some angle =>
        match metaGet md "pageRange" with
        | None =>
            exec updateSessionM uid (toStep "waiting_for_page_range") in
            exec reply (RAskPageRange op) in
            ret Returned
        | Some pageRange =>
            let* outputPath :=
              callEngine (RotatePDF (firstPath files) (JS.parseInt angle)
                                    pageRange) in
            ret (Broke (Some outputPath) [])
        end
    end
  else if String.eqb op "add_page_numbers" then
    exec validateFileType files "pdf" "Add Page Numbers" in
    match metaGet md "position" with
    | None =>
        exec updateSessionM uid (toStep "waiting_for_position") in
        exec reply RAskPosition in
        ret Returned
    | Some position =>
        let* outputPath :=
          callEngine (AddPageNumbers (firstPath files) position) in
        ret (Broke (Some outputPath) [])
    end
  else if String.eqb op "add_watermark" then
    exec validateFileType files "pdf" "Add Watermark" in
    if negb (bool_decide (is_Some (metaGet md "watermarkText")))
       && (length files <? 2)%nat
    then
      exec updateSessionM uid (toStep "waiting_for_watermark") in
      exec reply RAskWatermark in
      ret Returned
    else
      let watermarkImage := file_path <$> (files !! 1%nat) in
      let* outputPath :=
        callEngine (AddWatermark (firstPath files)
                      (default "WATERMARK" (metaGet md "watermarkText"))
                      watermarkImage) in
      ret (Broke (Some outputPath) [])
  else if String.eqb op "crop_pdf" then
    exec validateFileType files "pdf" "Crop PDF" in
    exec reply RCropUnsupported in
    exec updateSessionM uid toIdle in
    ret Returned
  else if String.eqb op "basic_edit_pdf" then
    simplePdfCase files "Basic Edit PDF" BasicEditPDF
  else if String.eqb op "unlock_pdf" then
    simplePdfCase files "Unlock PDF"
      (fun p => UnlockPDF p (default "" (metaGet md "password")))
  else if String.eqb op "protect_pdf" then
    exec validateFileType files "pdf" "Protect PDF" in
    match metaGet md "password" with
    | None =>
        exec updateSessionM uid (toStep "waiting_for_password") in
        exec reply RAskPassword in
        ret Returned
    | Some password =>
        let* outputPath :=
          callEngine (ProtectPDF (firstPath files) password) in
        ret (Broke (Some outputPath) [])
    end
  else if String.eqb op "sign_pdf" then
    exec validateFileType files "pdf" "Sign PDF" in
    match files !! 1%nat with
    | None =>
        exec updateSessionM uid (toStep "waiting_for_signature") in
        exec reply RAskSignature in
        ret Returned
    | Some signature =>
        let* outputPath :=
          callEngine (SignPDF (firstPath files) (file_path signature)
                        (default "bottom-right" (metaGet md "position"))) in
        ret (Broke (Some outputPath) [])
    end
  else if String.eqb op "redact_pdf" then
    exec validateFileType files "pdf" "Redact PDF" in
    exec reply RRedactUnsupported in
    exec updateSessionM uid toIdle in
    ret Returned
  else if String.eqb op "compare_pdf" then
    match files with
    | file0 :: file1 :: _ =>
        if negb (String.eqb (file_type file0) "pdf")
           || negb (String.eqb (file_type file1) "pdf")
        then throw "Both files must be PDFs for comparison."
        else
          exec logCall (ComparePDFs (file_path file0) (file_path file1)) in
          let* comparison :=
            onStaging (fun fs =>
              (comparePDFs load fs (file_path file0) (file_path file1),
               fs)) in
          exec reply (RComparison comparison) in
          exec updateSessionM uid toIdle in
          exec clearSessionFilesM uid in
          ret Returned
    | _ =>
        exec reply RCompareSendSecond in
        ret Returned
    end
  else throw "Unknown operation".

(** [sendFile]: deliver, then clean the artifact up; any failure is
    rethrown as "Failed to send file: ...". *)
Definition sendFile (filePath : string) : M unit :=
  tryCatch
    (let* _ := (fun w => (sendMedia filePath, w)) : M unit in
     exec reply (RMedia filePath) in
     withStaging (fun fs => cleanupFile fs filePath))
    (fun msg => throw ("Failed to send file: " ++ msg)).

(** [for (const outPath of outputPaths)
      if (await verifyFile(outPath)) await sendFile(...)] *)
Fixpoint sendAll (outputPaths : list string) : M unit :=
  match outputPaths with
  | [] => ret tt
  | outPath :: rest =>
      let* present := verify outPath in
      exec (if present then sendFile outPath else ret tt) in
      sendAll rest
  end.

(** "Send output file(s)" *)
Definition deliver (outputPath : option string) (outputPaths : list string)
  : M unit :=
  match outputPaths with
  | _ :: _ => sendAll outputPaths
  | [] =>
      match outputPath with
      | Some p =>
          let* present := verify p in
          if JS.truthy p && present then sendFile p
          else throw "Failed to create output file"
      | None => throw "Failed to create output file"
      end
  end.

(** [{ currentStep: 'idle', selectedOperation: null, metadata: {} }] *)
Definition toIdleFresh : Updates :=
  {| upd_currentStep := Some "idle";
     upd_selectedOperation := Some None;
     upd_metadata := Some ∅ |}.

(** The [try] block of [processOperation]. *)
Definition processAttempt (uid : string) (operation : option string)
    (files : list FileInfo) (md : gmap string string) : M unit :=
  exec reply RProcessing in
  let* exit := dispatch uid operation files md in
  match exit with
  | Returned => ret tt
  | Broke outputPath outputPaths =>
      exec deliver outputPath outputPaths in
      exec reply RDone in
      exec clearSessionFilesM uid in
      updateSessionM uid toIdleFresh
  end.

(** The [catch] block of [processOperation]. *)
Definition processFailed (uid : string) (msg : string) : M unit :=
  exec reply (RError msg) in
  updateSessionM uid toIdle.

Definition processOperation (uid : string) : M unit :=
  let* session := getSessionM uid in
  let operation := selectedOperation session in
  let* files := getSessionFilesM uid in
  let md := metadata session in
  tryCatch (processAttempt uid operation files md) (processFailed uid).

Definition checkOperationRequirements (uid : string) : M unit :=
  let* session := getSessionM uid in
  let operation := default "" (selectedOperation session) in
  let* files := getSessionFilesM uid in
  if String.eqb operation "merge_pdf" then
    if (length files =? 0)%nat then reply RMergeSendFiles
    else reply (RMergeReceived (length files))
  else if String.eqb operation "compare_pdf" then
    if (length files =? 0)%nat then reply RCompareSendFirst
    else if (length files =? 1)%nat then reply RCompareSendSecond
    else ret tt
  else if (0 <? length files)%nat then processOperation uid
  else ret tt.

Definition handleStepOperation (message : Message) (uid : string) : M unit :=
  let* session := getSessionM uid in
  let body := JS.trim (msg_body message) in
  let* files := getSessionFilesM uid in
  if bool_decide (selectedOperation session = Some "merge_pdf")
     && String.eqb body "done" then
    if (length files <? 2)%nat then reply RMergeNeedTwo
    else processOperation uid
  else if String.eqb (currentStep session) "waiting_for_page_range" then
    exec setMetadata uid "pageRange" body in
    exec updateSessionM uid (toStep "processing") in
    processOperation uid
  else if String.eqb (currentStep session) "waiting_for_page_number" then
    exec setMetadata uid "pageNumber" (JS.toLowerCase body) in
    exec updateSessionM uid (toStep "processing") in
    processOperation uid
  else if JS.startsWith (currentStep session) "waiting_for_" then
    let inputType := stripWaitingFor (currentStep session) in
    exec setMetadata uid inputType body in
    exec updateSessionM uid (toStep "processing") in
    processOperation uid
  else if (0 <? length files)%nat
          && match selectedOperation session with
             | Some op => JS.truthy op
             | None => false
             end
  then processOperation uid
  else ret tt.

Definition handleOperationSelection (message : Message) (uid : string)
  : M unit :=
  let body := JS.trim (msg_body message) in
  let* session := getSessionM uid in
  match lookupOperation body operationMap with
  | None => reply RInvalidOption
  | Some operation =>
      exec updateSessionM uid
             {| upd_currentStep := Some "waiting_for_file";
                upd_selectedOperation := Some (Some operation);
                upd_metadata := None |} in
      reply (RInstructions operation)
  end.

Definition handleFileUpload (message : Message) (uid : string) : M unit :=
  tryCatch
    (exec reply RDownloading in
     match msg_download message with
     | DownloadThrows msg => throw msg
     | DownloadNothing => reply RDownloadFailed
     | Downloaded media =>
         let fileExtension := uploadExtension (media_mimetype media) in
         let filePath := getTempFilePath fileExtension in
         exec withStaging (fun fs => <[filePath := media_data media]> fs) in
         let* saved := verify filePath in
         if negb saved then reply RSaveFailed
         else
           let fileType :=
             detectFileType extname filePath
                            (Some (media_mimetype media)) in
           let fileSize := Z.of_nat (length (media_data media)) in
           exec withSessions (addFileToSession now uid
                  {| file_path := filePath;
                     file_type := fileType;
                     file_mimetype := media_mimetype media;
                     file_size := fileSize;
                     file_filename :=
                       match media_filename media with
                       | Some n => if JS.truthy n then n
                                   else "file" ++ fileExtension
                       | None => "file" ++ fileExtension
                       end |}) in
           let* session := getSessionM uid in
           exec reply (RFileReceived fileSize) in
           match selectedOperation session with
           | Some op =>
               if JS.truthy op then checkOperationRequirements uid
               else ret tt
           | None => ret tt
           end
     end)
    (fun msg => reply (RUploadError msg)).

Definition handleMessage (message : Message) : M unit :=
  let uid := msg_from message in
  let body := JS.toLowerCase (JS.trim (msg_body message)) in
  let* session := getSessionM uid in
  tryCatch
    (if String.eqb body "menu" || String.eqb body "start"
        || String.eqb body "help" then
       exec reply RMainMenu in
       updateSessionM uid toIdle
     else if String.eqb body "cancel" then
       exec updateSessionM uid toIdle in
       reply RCancelled
     else if String.eqb body "clear" then
       exec clearSessionFilesM uid in
       exec updateSessionM uid toIdle in
       reply RCleared
     else if msg_hasMedia message then handleFileUpload message uid
     else if String.eqb (currentStep session) "idle"
     then handleOperationSelection message uid
     else handleStepOperation message uid)
    (fun msg =>
       exec reply (RError msg) in
       updateSessionM uid toIdle).

End Orchestrator.

(** ** More of the services: merging, rotating, batch clean-up *)

(** fileManager.js, [cleanupFiles]: [Promise.all(filePaths.map(cleanupFile))];
    the deletions commute, so they are taken in list order. *)
Definition cleanupFiles (fs : gmap string Bytes) (filePaths : list string)
  : gmap string Bytes :=
  fold_left cleanupFile filePaths fs.

Section MoreServices.

Context {Page : Type}.
Variable load : Bytes -> Result (list Page).
Variable save : list Page -> Bytes.
(** pdf-lib: [page.getRotation().angle] and [page.setRotation({ angle })],
    which may throw. *)
Variable getRotation : Page -> Z.
Variable setRotation : Z -> Page -> Result Page.

(** [pdf.getPageIndices()] *)
Definition getPageIndices (pdf : list Page) : list Z :=
  map Z.of_nat (seq 0 (length pdf)).

(** [for (const pdfPath of pdfPaths)] in [mergePDFs]: each document is
    verified, loaded, and all its pages are appended to [mergedPdf]. *)
Fixpoint mergeLoop (fs : gmap string Bytes) (pdfPaths : list string)
    (mergedPdf : list Page) : Result (list Page) :=
  match pdfPaths with
  | [] => Ok mergedPdf
  | pdfPath :: rest =>
      if negb (verifyFile fs pdfPath)
      then Throw ("File not found: " ++ pdfPath)
      else
        match load (default [] (fs !! pdfPath)) with
        | Throw m => Throw m
        | Ok pdf =>
            match copyPages pdf (getPageIndices pdf) with
            | Throw m => Throw m
            | Ok pages => mergeLoop fs rest (mergedPdf ++ pages)
            end
        end
  end.

Definition mergePDFs_try (fs : gmap string Bytes) (outputPath : string)
    (pdfPaths : list string) : Result string * gmap string Bytes :=
  match mergeLoop fs pdfPaths [] with
  | Throw m => (Throw m, fs)
  | Ok mergedPdf =>
      let fs' := <[outputPath := save mergedPdf]> fs in
      if negb (verifyFile fs' outputPath)
      then (Throw "Failed to create merged PDF", fs')
      else (Ok outputPath, fs')
  end.

Definition mergePDFs (fs : gmap string Bytes) (outputPath : string)
    (pdfPaths : list string) :=
  cleanupOnThrow outputPath (mergePDFs_try fs outputPath pdfPaths).

(** [for (const pageIndex of pagesToRotate)]: [pdf.getPage] throws outside
    the document; the page is asked to take the current rotation plus
    [angle]. *)
Fixpoint rotatePages (angle : Z) (pdf : list Page) (indices : list Z)
  : Result (list Page) :=
  match indices with
  | [] => Ok pdf
  | pageIndex :: rest =>
      match (if 0 <=? pageIndex then pdf !! Z.to_nat pageIndex else None) with
      | None => Throw "Index out of bounds"
      | Some page =>
          match setRotation (getRotation page + angle) page with
          | Throw m => Throw m
          | Ok page' =>
              rotatePages angle (<[Z.to_nat pageIndex := page']> pdf) rest
          end
      end
  end.

(** [[90, 180, 270].includes(angle)]; NaN is in no array. *)
Definition validAngle (angle : option Z) : bool :=
  match angle with
  | Some a => JS.arrIncludes [90; 180; 270] a
  | None => false
  end.

Definition rotatePDF_try (fs : gmap string Bytes)
    (outputPath pdfPath : string) (angle : option Z) (pageRange : string)
  : Result string * gmap string Bytes :=
  if negb (verifyFile fs pdfPath) then (Throw "Input PDF not found", fs)
  else if negb (validAngle angle)
  then (Throw "Invalid rotation angle. Use 90, 180, or 270", fs)
  else
    match load (default [] (fs !! pdfPath)) with
    | Throw m => (Throw m, fs)
    | Ok pdf =>
        let totalPages := Z.of_nat (length pdf) in
        match rotatePages (default 0 angle) pdf
                          (pagesToRotate pageRange totalPages) with
        | Throw m => (Throw m, fs)
        | Ok rotated =>
            let fs' := <[outputPath := save rotated]> fs in
            if negb (verifyFile fs' outputPath)
            then (Throw "Failed to create rotated PDF", fs')
            else (Ok outputPath, fs')
        end
    end.

Definition rotatePDF (fs : gmap string Bytes)
    (outputPath pdfPath : string) (angle : option Z) (pageRange : string) :=
  cleanupOnThrow outputPath
    (rotatePDF_try fs outputPath pdfPath angle pageRange).

End MoreServices.

(** ** Vocabulary of the properties *)

(** The page numbers [i, i+1, ..., i+k-1]. *)
Definition pagesFrom (i : Z) (k : nat) : list Z :=
  map (fun j => i + Z.of_nat j) (seq 0 k).

(** [m] started in a world satisfying [P] either returns [a] in a world
    satisfying [Q a], or throws [e] in a world satisfying [E e]. *)
Definition triple {A} (P : World -> Prop) (m : M A)
    (Q : A -> World -> Prop) (E : string -> World -> Prop) : Prop :=
  forall w, P w ->
    match m w with
    | (Ok a, w') => Q a w'
    | (Throw e, w') => E e w'
    end.

(** [m] maintains [I] whether it returns or throws. *)
Definition steady {A} (I : World -> Prop) (m : M A) : Prop :=
  triple I m (fun _ => I) (fun _ => I).

(** The session of [uid] exists and holds these files and this metadata. *)
Definition Keeps (uid : string) (files : list FileInfo)
    (md : gmap string string) (w : World) : Prop :=
  exists s, sessions w !! uid = Some s /\
            uploadedFiles s = files /\ metadata s = md.

(** What [dispatch] guarantees when it leaves the [switch]: a [break]
    happens with the session content untouched. *)
Definition afterSwitch (uid : string) (files : list FileInfo)
    (md : gmap string string) (exit : SwitchExit) (w : World) : Prop :=
  match exit with
  | Returned => True
  | Broke _ _ => Keeps uid files md w
  end.

(** The world in which the [try] block of [processOperation] starts when
    the session [s] of [uid] was found in [w]: only [lastActivity] moved. *)
Definition enterOperation (now : Z) (uid : string) (s : Session) (w : World)
  : World :=
  {| sessions := <[uid := touch now s]> (sessions w);
     staging := staging w;
     outbox := outbox w;
     engineLog := engineLog w |}.

(** Replies that tell the user an operation is being or has been run. *)
Definition announcesWork (r : Reply) : bool :=
  match r with
  | RProcessing | RComparison _ | RDone | RMedia _ | RError _ => true
  | _ => false
  end.

(** The session of [uid] still waits in step [step] with the compare
    operation selected, no service was called beyond [log], and the replies
    sent after [sent] announce no work. *)
Definition Waiting (uid step : string) (log : list EngineCall)
    (sent : list Reply) (w : World) : Prop :=
  engineLog w = log /\
  (exists s, sessions w !! uid = Some s /\
             currentStep s = step /\
             selectedOperation s = Some "compare_pdf") /\
  (exists rs, outbox w = (sent ++ rs)%list /\
              forallb (fun r => negb (announcesWork r)) rs = true).

(** A token is a range whose start does not parse as a number when this is
    [false]: "-3", "x-3", " - ". *)
Definition numericStart (part : string) : bool :=
  let trimmed := JS.trim part in
  if JS.includes trimmed "-" then
    match JS.parseInt (JS.trim (nth 0 (JS.split "-" trimmed) "")) with
    | Some _ => true
    | None => false
    end
  else true.

(** [pdfPath] passes [verifyFile] in [fs] and pdf-lib loads it as [pdf]. *)
Definition readableAs {Page : Type} (load : Bytes -> Result (list Page))
    (fs : gmap string Bytes) (pdfPath : string) (pdf : list Page) : Prop :=
  verifyFile fs pdfPath = true /\
  load (default [] (fs !! pdfPath)) = Ok pdf.

(** The session table is [store0] with only the record of [uid] written,
    and that record was last touched at [now]. *)
Definition TouchedOnly (now : Z) (uid : string)
    (store0 store : gmap string Session) : Prop :=
  exists s, store = <[uid := s]> store0 /\ lastActivity s = now.

(** The text is one of the control words [handleMessage] tests first. *)
Definition isCommand (body : string) : bool :=
  strIn (JS.toLowerCase (JS.trim body))
        ["menu"; "start"; "help"; "cancel"; "clear"].

(** The record [getSession] finds for [uid], or the one it would create. *)
Definition sessionOf (now : Z) (uid : string) (w : World) : Session :=
  match sessions w !! uid with
  | Some s => s
  | None => newSession uid now
  end.

(** The operations whose first file must have type pdf. *)
Definition pdfOnlyOperations : list string :=
  ["split_pdf"; "remove_pages"; "extract_pages"; "compress_pdf";
   "repair_pdf"; "ocr_pdf"; "pdf_to_image"; "pdf_to_word";
   "pdf_to_powerpoint"; "pdf_to_excel"; "pdf_to_pdfa"; "rotate_pdf";
   "add_page_numbers"; "add_watermark"; "crop_pdf"; "basic_edit_pdf";
   "unlock_pdf"; "protect_pdf"; "sign_pdf"; "redact_pdf"].

(** The operations that validate a PDF and run one service on it. *)
Definition singleServiceOperations : list string :=
  ["compress_pdf"; "repair_pdf"; "ocr_pdf"; "pdf_to_word";
   "pdf_to_powerpoint"; "pdf_to_excel"; "pdf_to_pdfa"; "basic_edit_pdf";
   "unlock_pdf"].

(** The extensions [handleFileUpload] can give a stored upload. *)
Definition uploadExtensions : list string :=
  [".pdf"; ".jpg"; ".docx"; ".pptx"; ".xlsx"; ".html"; ".bin"].

(** The type tag an upload ends up with, read off its MIME type: the first
    six tests are those that choose the stored extension, the last three
    are reached through the [.bin] fallback. *)
Definition mimeTag (m : string) : string :=
  if JS.includes m "pdf" then "pdf"
  else if JS.includes m "image" then "image"
  else if JS.includes m "word" then "word"
  else if JS.includes m "presentation" then "powerpoint"
  else if JS.includes m "spreadsheet" then "excel"
  else if JS.includes m "html" then "html"
  else if JS.includes m "document" then "word"
  else if JS.includes m "powerpoint" then "powerpoint"
  else if JS.includes m "excel" then "excel"
  else "unknown".

(** ** A concrete environment for running the handlers *)

Module Demo.

(** A toy pdf-lib: every byte of a file is one page. *)
Definition load (b : Bytes) : Result (list Byte.byte) := Ok b.
Definition save (pages : list Byte.byte) : Bytes := pages.

(** Handles as [getTempFilePath] builds them, for a given clock/random tag. *)
Definition tempPath (tag : string) (extension : string) : string :=
  "/app/temp/temp_" ++ tag ++ extension.

(** External tools that always fail. *)
Definition engine (c : EngineCall) (fs : gmap string Bytes)
  : Result string * gmap string Bytes := (Throw "Conversion failed: ", fs).

Definition pdfToImage (p : string) (n : option Z) (fs : gmap string Bytes)
  : Result (list string) * gmap string Bytes := (Throw "No images generated", fs).

Definition sendMedia (filePath : string) : Result unit := Ok tt.

Definition handle (now : Z) (tag : string) (message : Message) : M unit :=
  handleMessage now posix_extname (tempPath tag) load save engine pdfToImage
                sendMedia message.

Definition upload (now : Z) (tag : string) (message : Message) : M unit :=
  handleFileUpload now posix_extname (tempPath tag) load save engine pdfToImage
                   sendMedia message (msg_from message).

Definition text (from body : string) : Message :=
  {| msg_from := from; msg_body := body; msg_hasMedia := false;
     msg_download := DownloadNothing |}.

Definition pdfUpload (from : string) (data : Bytes) : Message :=
  {| msg_from := from; msg_body := ""; msg_hasMedia := true;
     msg_download := Downloaded {| media_mimetype := "application/pdf";
                                   media_data := data;
                                   media_filename := None |} |}.

(** A PDF sent with the caption " Cancel ". *)
Definition cancelWithAttachment : Message :=
  {| msg_from := "user"; msg_body := " Cancel "; msg_hasMedia := true;
     msg_download := Downloaded {| media_mimetype := "application/pdf";
                                   media_data := [Byte.x25; Byte.x50];
                                   media_filename := None |} |}.

Definition emptyWorld : World :=
  {| sessions := ∅; staging := ∅; outbox := []; engineLog := [] |}.

Definition bytes3 : Bytes := [Byte.x25; Byte.x50; Byte.x44].
Definition bytes2 : Bytes := [Byte.x25; Byte.x50].

(** The world after [user] picked "27" and sent a first PDF. *)
Definition afterFirstPdf : World :=
  (handle 2000 "2000_b" (pdfUpload "user" bytes3)
     (handle 1000 "1000_a" (text "user" "27") emptyWorld).2).2.

(** ... and then a second PDF. *)
Definition afterSecondPdf : World :=
  (handle 3000 "3000_c" (pdfUpload "user" bytes2) afterFirstPdf).2.

(** ... and then any further text. *)
Definition afterNudge : World :=
  (handle 4000 "4000_d" (text "user" "ok") afterSecondPdf).2.

Definition sessionAfterFirstPdf : Session :=
  Eval vm_compute in
    default (newSession "user" 0) (sessions afterFirstPdf !! "user").

(** An external tool that writes two bytes to a fixed handle. *)
Definition engineOk (c : EngineCall) (fs : gmap string Bytes)
  : Result string * gmap string Bytes :=
  (Ok "/app/temp/out.pdf", <["/app/temp/out.pdf" := bytes2]> fs).

(** A toy pdf-lib with rotation: a page is a byte and its angle. *)
Definition loadAngles (b : Bytes) : Result (list (Byte.byte * Z)) :=
  Ok (map (fun x => (x, 0)) b).
Definition saveAngles (pages : list (Byte.byte * Z)) : Bytes :=
  map fst pages.
Definition getRotation (page : Byte.byte * Z) : Z := snd page.
Definition setRotation (angle : Z) (page : Byte.byte * Z)
  : Result (Byte.byte * Z) := Ok (fst page, angle).

(** A ten-page document in the staging area. *)
Definition tenPages : Bytes := repeat Byte.x25 10.

Definition library : gmap string Bytes := {[ "/app/temp/doc.pdf" := tenPages ]}.

(** Two more documents beside it. *)
Definition shelf : gmap string Bytes :=
  <[ "/app/temp/a.pdf" := bytes3 ]>
    (<[ "/app/temp/b.pdf" := bytes2 ]> library).

(** The ten-page document as an uploaded file. *)
Definition docFile : FileInfo :=
  {| file_path := "/app/temp/doc.pdf";
     file_type := "pdf";
     file_mimetype := "application/pdf";
     file_size := 10;
     file_filename := "file.pdf" |}.

(** A session that picked "1" (merge) and holds one PDF. *)
Definition mergeSession : Session :=
  {| userId := "user";
     uploadedFiles :=
       [ {| file_path := "/app/temp/a.pdf";
            file_type := "pdf";
            file_mimetype := "application/pdf";
            file_size := 3;
            file_filename := "file.pdf" |} ];
     currentStep := "waiting_for_file";
     selectedOperation := Some "merge_pdf";
     metadata := ∅;
     lastActivity := 1000 |}.

Definition mergeWithOneFile : World :=
  {| sessions := {[ "user" := mergeSession ]};
     staging := shelf;
     outbox := [];
     engineLog := [] |}.

(** A session that picked "18" (rotate) and then sent a photo. *)
Definition photoSession : Session :=
  {| userId := "user";
     uploadedFiles :=
       [ {| file_path := "/app/temp/photo.jpg";
            file_type := "image";
            file_mimetype := "image/jpeg";
            file_size := 3;
            file_filename := "file.jpg" |} ];
     currentStep := "waiting_for_file";
     selectedOperation := Some "rotate_pdf";
     metadata := ∅;
     lastActivity := 1000 |}.

Definition rotateWithPhoto : World :=
  {| sessions := {[ "user" := photoSession ]};
     staging := shelf;
     outbox := [];
     engineLog := [] |}.

(** A session that picked "21" (crop) and holds one PDF. *)
Definition cropSession : Session :=
  {| userId := "user";
     uploadedFiles :=
       [ {| file_path := "/app/temp/doc.pdf";
            file_type := "pdf";
            file_mimetype := "application/pdf";
            file_size := 10;
            file_filename := "file.pdf" |} ];
     currentStep := "waiting_for_file";
     selectedOperation := Some "crop_pdf";
     metadata := ∅;
     lastActivity := 1000 |}.

Definition cropReady : World :=
  {| sessions := {[ "user" := cropSession ]};
     staging := library;
     outbox := [];
     engineLog := [] |}.

(** A session that picked "20" (watermark), sent a PDF and was asked for
    the watermark. *)
Definition watermarkSession : Session :=
  {| userId := "user";
     uploadedFiles :=
       [ {| file_path := "/app/temp/doc.pdf";
            file_type := "pdf";
            file_mimetype := "application/pdf";
            file_size := 10;
            file_filename := "file.pdf" |} ];
     currentStep := "waiting_for_watermark";
     selectedOperation := Some "add_watermark";
     metadata := ∅;
     lastActivity := 1000 |}.

Definition watermarkAsked : World :=
  {| sessions := {[ "user" := watermarkSession ]};
     staging := library;
     outbox := [];
     engineLog := [] |}.

(** A session that picked "2" (split), sent a PDF and was asked for the
    page range. *)
Definition splitSession : Session :=
  {| userId := "user";
     uploadedFiles :=
       [ {| file_path := "/app/temp/doc.pdf";
            file_type := "pdf";
            file_mimetype := "application/pdf";
            file_size := 10;
            file_filename := "file.pdf" |} ];
     currentStep := "waiting_for_page_range";
     selectedOperation := Some "split_pdf";
     metadata := ∅;
     lastActivity := 1000 |}.

Definition splitAsked : World :=
  {| sessions := {[ "user" := splitSession ]};
     staging := library;
     outbox := [];
     engineLog := [] |}.

Definition sessionAfterSecondPdf : Session :=
  Eval vm_compute in
    default (newSession "user" 0) (sessions afterSecondPdf !! "user").

(** A session that picked "25" (sign) and holds the PDF to sign. *)
Definition signSession : Session :=
  {| userId := "user";
     uploadedFiles :=
       [ {| file_path := "/app/temp/doc.pdf";
            file_type := "pdf";
            file_mimetype := "application/pdf";
            file_size := 10;
            file_filename := "file.pdf" |} ];
     currentStep := "waiting_for_signature";
     selectedOperation := Some "sign_pdf";
     metadata := ∅;
     lastActivity := 1000 |}.

Definition signWithPdf : World :=
  {| sessions := {[ "user" := signSession ]};
     staging := library;
     outbox := [];
     engineLog := [] |}.

(** A session that picked "5" (compress) and holds one PDF and an answer. *)
Definition compressSession : Session :=
  {| userId := "user";
     uploadedFiles :=
       [ {| file_path := "/app/temp/doc.pdf";
            file_type := "pdf";
            file_mimetype := "application/pdf";
            file_size := 10;
            file_filename := "file.pdf" |} ];
     currentStep := "waiting_for_file";
     selectedOperation := Some "compress_pdf";
     metadata := {[ "quality" := "screen" ]};
     lastActivity := 1000 |}.

Definition compressReady : World :=
  {| sessions := {[ "user" := compressSession ]};
     staging := library;
     outbox := [];
     engineLog := [] |}.

End Demo.


(** * Properties *)

Local Open Scope list_scope.

(** ** Arrays of page numbers *)

Lemma arrIncludes_In (l : list Z) (x : Z) :
  JS.arrIncludes l x = true <-> In x l.
Proof.
  unfold JS.arrIncludes. rewrite existsb_exists. split.
  - intros (y & Hy & Heq). apply Z.eqb_eq in Heq. now subst.
  - intros H. exists x. split; [assumption | apply Z.eqb_refl].
Qed.

Lemma arrIncludes_nil (x : Z) : JS.arrIncludes [] x = false.
Proof. reflexivity. Qed.

Lemma pagesFrom_S (i : Z) (k : nat) :
  pagesFrom i (S k) = i :: pagesFrom (i + 1) k.
Proof.
  unfold pagesFrom. simpl. rewrite Z.add_0_r. f_equal.
  rewrite <- seq_shift, map_map. apply map_ext. intros j. lia.
Qed.

Lemma In_pagesFrom (i : Z) (k : nat) (p : Z) :
  In p (pagesFrom i k) <-> i <= p < i + Z.of_nat k.
Proof.
  unfold pagesFrom. rewrite in_map_iff. split.
  - intros (j & <- & Hj). apply in_seq in Hj. lia.
  - intros H. exists (Z.to_nat (p - i)). split; [lia |].
    apply in_seq. lia.
Qed.

(** ** [removePages]: the kept pages *)

Lemma keepLoop_spec (rem : list Z) (n : Z) :
  forall (fuel : nat) (i : Z) (acc : list Z),
    i + Z.of_nat fuel = n + 1 ->
    keepLoop fuel i n rem acc =
    acc ++ map (fun p => p - 1)
               (List.filter (fun p => negb (JS.arrIncludes rem p))
                            (pagesFrom i fuel)).
Proof.
  induction fuel as [| fuel IH]; intros i acc Hi.
  - simpl. now rewrite app_nil_r.
  - rewrite pagesFrom_S. simpl.
    destruct (Z.leb_spec i n) as [_ | Hlt]; [| lia].
    rewrite IH by lia.
    destruct (JS.arrIncludes rem i); simpl; [reflexivity |].
    now rewrite <- app_assoc.
Qed.

Lemma pagesToKeep_eq (pageRange : string) (n : Z) :
  0 <= n ->
  pagesToKeep pageRange n =
  map (fun p => p - 1)
      (List.filter
         (fun p => negb (JS.arrIncludes (parsePageRange pageRange n) p))
         (pagesFrom 1 (Z.to_nat n))).
Proof.
  intros Hn. unfold pagesToKeep. rewrite keepLoop_spec by lia. reflexivity.
Qed.

Lemma In_pagesToKeep (pageRange : string) (n i : Z) :
  0 <= n ->
  In i (pagesToKeep pageRange n) <->
  0 <= i < n /\ ~ In (i + 1) (parsePageRange pageRange n).
Proof.
  intros Hn. rewrite pagesToKeep_eq by assumption.
  rewrite in_map_iff. split.
  - intros (p & <- & Hp). apply filter_In in Hp. destruct Hp as [Hr Hb].
    apply In_pagesFrom in Hr. apply negb_true_iff in Hb.
    split; [lia |]. replace (p - 1 + 1) with p by lia.
    intros Hin. apply arrIncludes_In in Hin. congruence.
  - intros [Hr Hnin]. exists (i + 1). split; [lia |].
    apply filter_In. split; [apply In_pagesFrom; lia |].
    apply negb_true_iff. destruct (JS.arrIncludes _ _) eqn:E; [| reflexivity].
    apply arrIncludes_In in E. contradiction.
Qed.

Section PdfLibFacts.

Context {Page : Type}.

Lemma copyPages_in_range (pdf : list Page) :
  forall indices : list Z,
    (forall i, In i indices -> 0 <= i < Z.of_nat (length pdf)) ->
    exists copied,
      copyPages pdf indices = Ok copied /\
      length copied = length indices /\
      forall (k : nat) (i : Z),
        indices !! k = Some i -> copied !! k = pdf !! Z.to_nat i.
Proof.
  induction indices as [| i rest IH]; intros Hall.
  - exists []. repeat split. intros k i Hk. destruct k; discriminate.
  - destruct IH as (copied & Hc & Hlen & Hget).
    { intros j Hj. apply Hall. now right. }
    assert (Hi : 0 <= i < Z.of_nat (length pdf)) by (apply Hall; now left).
    destruct (lookup_lt_is_Some_2 pdf (Z.to_nat i)) as [pg Hpg]; [lia |].
    exists (pg :: copied). simpl.
    destruct (Z.leb_spec 0 i) as [_ | Hneg]; [| lia].
    rewrite Hpg, Hc. repeat split.
    + simpl. now rewrite Hlen.
    + intros [| k] j Hk; simpl in *.
      * injection Hk as <-. now rewrite Hpg.
      * now apply Hget.
Qed.

Lemma copyPages_all_from (pre l : list Page) :
  copyPages (pre ++ l) (pagesFrom (Z.of_nat (length pre)) (length l)) = Ok l.
Proof.
  revert pre. induction l as [| pg l IH]; intros pre; [reflexivity |].
  cbn [length]. rewrite pagesFrom_S. simpl.
  destruct (Z.leb_spec 0 (Z.of_nat (length pre))) as [_ | Hneg]; [| lia].
  rewrite Nat2Z.id, lookup_app_r by lia.
  rewrite Nat.sub_diag. simpl.
  specialize (IH (pre ++ [pg])).
  rewrite <- app_assoc in IH. simpl in IH.
  rewrite length_app in IH. simpl in IH.
  replace (Z.of_nat (length pre + 1)) with (Z.of_nat (length pre) + 1) in IH
    by lia.
  now rewrite IH.
Qed.

Lemma copyPages_all (pdf : list Page) :
  copyPages pdf (map (fun p => p - 1) (pagesFrom 1 (length pdf))) = Ok pdf.
Proof.
  pose proof (copyPages_all_from [] pdf) as H. simpl in H.
  replace (map (fun p => p - 1) (pagesFrom 1 (length pdf)))
    with (pagesFrom 0 (length pdf)); [exact H |].
  unfold pagesFrom. rewrite map_map. apply map_ext. intros j. lia.
Qed.

End PdfLibFacts.

(** ** The range parser and its callers *)

Section PdfServiceFacts.

Context {Page : Type}.
Variable load : Bytes -> Result (list Page).
Variable save : list Page -> Bytes.

Lemma splitPDF_empty_selection fs outputPath pdfPath pageRange pdf :
  verifyFile fs pdfPath = true ->
  load (default [] (fs !! pdfPath)) = Ok pdf ->
  parsePageRange pageRange (Z.of_nat (length pdf)) = [] ->
  splitPDF load save fs outputPath pdfPath pageRange =
  (Throw "Invalid page range", cleanupFile fs outputPath).
Proof.
  intros Hv Hl He. unfold splitPDF, splitPDF_try.
  rewrite Hv, Hl, He. reflexivity.
Qed.

Lemma removePages_readable fs outputPath pdfPath pageRange pdf :
  verifyFile fs pdfPath = true ->
  load (default [] (fs !! pdfPath)) = Ok pdf ->
  removePages load save fs outputPath pdfPath pageRange =
  cleanupOnThrow outputPath
    (let keep := pagesToKeep pageRange (Z.of_nat (length pdf)) in
     if (length keep =? 0)%nat then (Throw "Cannot remove all pages", fs)
     else match copyPages pdf keep with
          | Throw m => (Throw m, fs)
          | Ok copiedPages =>
              let fs' := <[outputPath := save copiedPages]> fs in
              if negb (verifyFile fs' outputPath)
              then (Throw "Failed to create modified PDF", fs')
              else (Ok outputPath, fs')
          end).
Proof.
  intros Hv Hl. unfold removePages, removePages_try.
  rewrite Hv, Hl. reflexivity.
Qed.

Lemma pagesToKeep_nothing_removed pageRange n :
  0 <= n ->
  parsePageRange pageRange n = [] ->
  pagesToKeep pageRange n = map (fun p => p - 1) (pagesFrom 1 (Z.to_nat n)).
Proof.
  intros Hn He. rewrite pagesToKeep_eq, He by assumption. f_equal.
  apply forallb_filter_id. apply forallb_forall. intros p _. reflexivity.
Qed.

End PdfServiceFacts.

(** C4: the four worked selectors parse to [1,2,3,5], [5..10], [1,2,3] and
    [1,2,3] on a ten-page document, and [splitPDF] of a readable ten-page
    document with selector "99" throws "Invalid page range". *)
Theorem parsePageRange_worked_examples {Page : Type}
    (load : Bytes -> Result (list Page)) (save : list Page -> Bytes)
    (fs : gmap string Bytes) (outputPath pdfPath : string)
    (pdf : list Page) :
  verifyFile fs pdfPath = true ->
  load (default [] (fs !! pdfPath)) = Ok pdf ->
  length pdf = 10%nat ->
  parsePageRange "1-3,5" 10 = [1; 2; 3; 5] /\
  parsePageRange "5-" 10 = [5; 6; 7; 8; 9; 10] /\
  parsePageRange "-3" 10 = [1; 2; 3] /\
  parsePageRange "1-3,2" 10 = [1; 2; 3] /\
  parsePageRange "99" 10 = [] /\
  splitPDF load save fs outputPath pdfPath "99" =
  (Throw "Invalid page range", cleanupFile fs outputPath).
Proof.
  intros Hv Hl Hlen.
  repeat (split; [vm_compute; reflexivity |]).
  apply splitPDF_empty_selection with (pdf := pdf); try assumption.
  rewrite Hlen. vm_compute. reflexivity.
Qed.

Lemma parsePageRange_worked_examples_witness :
  parsePageRange "1-3,5" 10 = [1; 2; 3; 5] /\
  parsePageRange "5-" 10 = [5; 6; 7; 8; 9; 10] /\
  parsePageRange "-3" 10 = [1; 2; 3] /\
  parsePageRange "1-3,2" 10 = [1; 2; 3] /\
  parsePageRange "99" 10 = [] /\
  splitPDF Demo.load Demo.save Demo.library
           "/app/temp/out.pdf" "/app/temp/doc.pdf" "99" =
  (Throw "Invalid page range", cleanupFile Demo.library "/app/temp/out.pdf").
Proof.
  apply (parsePageRange_worked_examples Demo.load Demo.save Demo.library
           "/app/temp/out.pdf" "/app/temp/doc.pdf" Demo.tenPages);
    vm_compute; reflexivity.
Defined.

(** C3: when the parsed page set is empty, [splitPDF] and [extractPages]
    throw "Invalid page range", whereas [removePages] of a non-empty
    document does not throw: it writes a copy of every page and returns
    the output handle. *)
Theorem empty_selection_outcomes {Page : Type}
    (load : Bytes -> Result (list Page)) (save : list Page -> Bytes)
    (fs : gmap string Bytes) (outputPath pdfPath pageRange : string)
    (pdf : list Page) :
  verifyFile fs pdfPath = true ->
  load (default [] (fs !! pdfPath)) = Ok pdf ->
  parsePageRange pageRange (Z.of_nat (length pdf)) = [] ->
  pdf <> [] ->
  verifyFile (<[outputPath := save pdf]> fs) outputPath = true ->
  (splitPDF load save fs outputPath pdfPath pageRange).1 =
    Throw "Invalid page range" /\
  (extractPages load save fs outputPath pdfPath pageRange).1 =
    Throw "Invalid page range" /\
  removePages load save fs outputPath pdfPath pageRange =
    (Ok outputPath, <[outputPath := save pdf]> fs).
Proof.
  intros Hv Hl He Hne Hout.
  unfold extractPages.
  rewrite (splitPDF_empty_selection load save fs outputPath pdfPath
             pageRange pdf Hv Hl He).
  repeat split.
  rewrite (removePages_readable load save fs outputPath pdfPath pageRange
             pdf Hv Hl).
  cbv zeta.
  rewrite pagesToKeep_nothing_removed by (lia || assumption).
  rewrite Nat2Z.id, copyPages_all.
  rewrite length_map. unfold pagesFrom. rewrite length_map, length_seq.
  destruct pdf as [| pg pdf']; [contradiction |]. simpl length.
  cbn [Nat.eqb]. rewrite Hout. reflexivity.
Qed.

Lemma empty_selection_outcomes_witness :
  (splitPDF Demo.load Demo.save Demo.library
            "/app/temp/out.pdf" "/app/temp/doc.pdf" "99").1 =
    Throw "Invalid page range" /\
  (extractPages Demo.load Demo.save Demo.library
                "/app/temp/out.pdf" "/app/temp/doc.pdf" "99").1 =
    Throw "Invalid page range" /\
  removePages Demo.load Demo.save Demo.library
              "/app/temp/out.pdf" "/app/temp/doc.pdf" "99" =
    (Ok "/app/temp/out.pdf",
     <["/app/temp/out.pdf" := Demo.tenPages]> Demo.library).
Proof.
  apply (empty_selection_outcomes Demo.load Demo.save Demo.library
           "/app/temp/out.pdf" "/app/temp/doc.pdf" "99" Demo.tenPages);
    try (vm_compute; reflexivity).
  discriminate.
Defined.

(** C5: on a readable document of [n] pages, the 0-based indices
    [removePages] keeps are exactly the pages of [1..n] that are not in
    [parsePageRange s n]; when the selector covers every page it throws
    "Cannot remove all pages"; otherwise the kept pages are copied, in
    order, into the output. *)
Theorem removePages_keeps_complement {Page : Type}
    (load : Bytes -> Result (list Page)) (save : list Page -> Bytes)
    (fs : gmap string Bytes) (outputPath pdfPath pageRange : string)
    (pdf : list Page) :
  verifyFile fs pdfPath = true ->
  load (default [] (fs !! pdfPath)) = Ok pdf ->
  let n := Z.of_nat (length pdf) in
  let keep := pagesToKeep pageRange n in
  (forall i, In i keep <->
             0 <= i < n /\ ~ In (i + 1) (parsePageRange pageRange n)) /\
  ((forall p, 1 <= p <= n -> In p (parsePageRange pageRange n)) ->
   removePages load save fs outputPath pdfPath pageRange =
   (Throw "Cannot remove all pages", cleanupFile fs outputPath)) /\
  ((exists p, 1 <= p <= n /\ ~ In p (parsePageRange pageRange n)) ->
   exists copied,
     copyPages pdf keep = Ok copied /\
     length copied = length keep /\
     (forall (k : nat) (i : Z),
        keep !! k = Some i -> copied !! k = pdf !! Z.to_nat i) /\
     (verifyFile (<[outputPath := save copied]> fs) outputPath = true ->
      removePages load save fs outputPath pdfPath pageRange =
      (Ok outputPath, <[outputPath := save copied]> fs))).
Proof.
  intros Hv Hl n keep.
  assert (Hn : 0 <= n) by (subst n; lia).
  assert (Hmem : forall i, In i keep <->
            0 <= i < n /\ ~ In (i + 1) (parsePageRange pageRange n)).
  { intros i. now apply In_pagesToKeep. }
  split; [exact Hmem |].
  rewrite (removePages_readable load save fs outputPath pdfPath pageRange
             pdf Hv Hl).
  fold n. fold keep. cbv zeta. split.
  - intros Hall.
    assert (Hk : keep = []).
    { destruct keep as [| i rest] eqn:E; [reflexivity | exfalso].
      destruct (proj1 (Hmem i) (or_introl eq_refl)) as [Hr Hnin].
      apply Hnin, Hall. lia. }
    rewrite Hk. reflexivity.
  - intros (p & Hp & Hnin).
    assert (Hin : In (p - 1) keep).
    { apply Hmem. split; [lia |]. now replace (p - 1 + 1) with p by lia. }
    destruct (copyPages_in_range pdf keep) as (copied & Hc & Hlen & Hget).
    { intros i Hi. apply Hmem in Hi. subst n. lia. }
    exists copied. repeat split; try assumption.
    intros Hout. rewrite Hc.
    destruct keep as [| i rest]; [contradiction |].
    simpl length. cbn [Nat.eqb]. rewrite Hout. reflexivity.
Qed.

Lemma removePages_keeps_complement_witness :
  (forall i, In i (pagesToKeep "1-" 10) <->
             0 <= i < 10 /\ ~ In (i + 1) (parsePageRange "1-" 10)) /\
  removePages Demo.load Demo.save Demo.library
              "/app/temp/out.pdf" "/app/temp/doc.pdf" "1-" =
  (Throw "Cannot remove all pages",
   cleanupFile Demo.library "/app/temp/out.pdf").
Proof.
  pose proof (removePages_keeps_complement Demo.load Demo.save Demo.library
                "/app/temp/out.pdf" "/app/temp/doc.pdf" "1-" Demo.tenPages
                eq_refl eq_refl) as (Hmem & Hall & _).
  split; [exact Hmem |].
  apply Hall. intros p Hp.
  change (1 <= p <= 10) in Hp.
  change (In p [1; 2; 3; 4; 5; 6; 7; 8; 9; 10]).
  simpl. lia.
Defined.

(** C10: for two readable PDFs [comparePDFs] returns a record in which
    [identical] implies both [pageCountMatch] and [fileSizeMatch],
    [fileSizeMatch] holds exactly for equal byte lengths and
    [pageCountMatch] exactly for equal page counts. *)
Theorem comparePDFs_invariant {Page : Type}
    (load : Bytes -> Result (list Page))
    (fs : gmap string Bytes) (pdfPath1 pdfPath2 : string)
    (pdf1 pdf2 : list Page) :
  verifyFile fs pdfPath1 = true ->
  verifyFile fs pdfPath2 = true ->
  load (default [] (fs !! pdfPath1)) = Ok pdf1 ->
  load (default [] (fs !! pdfPath2)) = Ok pdf2 ->
  exists d,
    comparePDFs load fs pdfPath1 pdfPath2 = Ok d /\
    (identical d = true ->
     pageCountMatch d = true /\ fileSizeMatch d = true) /\
    (fileSizeMatch d = true <->
     length (default [] (fs !! pdfPath1)) =
     length (default [] (fs !! pdfPath2))) /\
    (pageCountMatch d = true <-> length pdf1 = length pdf2).
Proof.
  intros Hv1 Hv2 Hl1 Hl2. unfold comparePDFs.
  rewrite Hv1, Hv2, Hl1, Hl2. cbn [negb].
  eexists. split; [reflexivity |]. cbn [identical pageCountMatch fileSizeMatch].
  repeat split.
  - destruct (_ =? _); [reflexivity | discriminate].
  - destruct (Z.of_nat (length pdf1) =? _); [| discriminate].
    destruct (Z.of_nat (length (default [] (fs !! pdfPath1))) =? _);
      [reflexivity | discriminate].
  - intros H. apply Z.eqb_eq in H. lia.
  - intros H. apply Z.eqb_eq. lia.
  - intros H. apply Z.eqb_eq in H. lia.
  - intros H. apply Z.eqb_eq. lia.
Qed.

Lemma comparePDFs_invariant_witness :
  exists d,
    comparePDFs Demo.load Demo.library
                "/app/temp/doc.pdf" "/app/temp/doc.pdf" = Ok d /\
    (identical d = true ->
     pageCountMatch d = true /\ fileSizeMatch d = true) /\
    (fileSizeMatch d = true <->
     length (default [] (Demo.library !! "/app/temp/doc.pdf")) =
     length (default [] (Demo.library !! "/app/temp/doc.pdf"))) /\
    (pageCountMatch d = true <->
     length Demo.tenPages = length Demo.tenPages).
Proof.
  apply (comparePDFs_invariant Demo.load Demo.library
           "/app/temp/doc.pdf" "/app/temp/doc.pdf"
           Demo.tenPages Demo.tenPages);
    vm_compute; reflexivity.
Defined.

(** C2: on the selector "-3" the page selection inlined in [rotatePDF]
    selects nothing, while [parsePageRange] selects pages 1 to 3; on the
    trailing-dash selector "5-" the two select the same pages. *)
Theorem rotate_selection_diverges :
  rotateParse "-3" 10 = [] /\
  parsePageRange "-3" 10 = [1; 2; 3] /\
  rotateParse "5-" 10 = map (fun p => p - 1) (parsePageRange "5-" 10).
Proof. repeat split; vm_compute; reflexivity. Qed.

(** ** The session store *)

Lemma expire_fold_absent (now : Z) (uid : string) :
  forall (entries : list (string * Session)) (store : gmap string Session),
    store !! uid = None ->
    fold_left (expireEntry now) entries store !! uid = None.
Proof.
  induction entries as [| [k v] entries IH]; intros store Hnone;
    [assumption |].
  simpl. apply IH. unfold expireEntry. simpl.
  destruct (SESSION_TIMEOUT <? now - lastActivity v); [| assumption].
  destruct (decide (k = uid)) as [-> | Hne].
  - apply lookup_delete_eq.
  - now rewrite lookup_delete_ne.
Qed.

Lemma expire_fold_evicts (now : Z) (uid : string) (s : Session) :
  SESSION_TIMEOUT < now - lastActivity s ->
  forall (entries : list (string * Session)) (store : gmap string Session),
    (uid, s) ∈ entries ->
    fold_left (expireEntry now) entries store !! uid = None.
Proof.
  intros Hold. induction entries as [| [k v] entries IH]; intros store Hin.
  - now apply elem_of_nil in Hin.
  - simpl. apply elem_of_cons in Hin as [Heq | Hin].
    + injection Heq as <- <-. apply expire_fold_absent.
      unfold expireEntry. simpl.
      destruct (Z.ltb_spec SESSION_TIMEOUT (now - lastActivity s)); [| lia].
      apply lookup_delete_eq.
    + now apply IH.
Qed.

Lemma expire_fold_retains (now : Z) (uid : string) :
  forall (entries : list (string * Session)) (store : gmap string Session),
    (forall v, (uid, v) ∈ entries ->
               ~ SESSION_TIMEOUT < now - lastActivity v) ->
    fold_left (expireEntry now) entries store !! uid = store !! uid.
Proof.
  induction entries as [| [k v] entries IH]; intros store Hyoung;
    [reflexivity |].
  simpl. rewrite IH.
  - unfold expireEntry. simpl.
    destruct (Z.ltb_spec SESSION_TIMEOUT (now - lastActivity v)) as [Ho | _];
      [| reflexivity].
    destruct (decide (k = uid)) as [-> | Hne].
    + exfalso. apply (Hyoung v); [left | assumption].
    + now rewrite lookup_delete_ne.
  - intros v' Hin. apply Hyoung. now right.
Qed.

(** Sessions that are not older than the timeout survive the sweep. *)
Lemma cleanupExpiredSessions_retains (now : Z)
    (store : gmap string Session) (uid : string) (s : Session) :
  store !! uid = Some s ->
  ~ SESSION_TIMEOUT < now - lastActivity s ->
  cleanupExpiredSessions now store !! uid = Some s.
Proof.
  intros Hs Hyoung. unfold cleanupExpiredSessions.
  rewrite expire_fold_retains; [assumption |].
  intros v Hin. apply elem_of_map_to_list in Hin.
  rewrite Hs in Hin. injection Hin as <-. assumption.
Qed.

(** C7: a session whose [lastActivity] is more than 30 minutes old when
    [cleanupExpiredSessions] runs is absent afterwards, and the next
    [getSession] for that user returns a fresh record: step idle, no
    files, no metadata, no operation. *)
Theorem expired_session_is_evicted (now : Z) (store : gmap string Session)
    (uid : string) (s : Session) :
  store !! uid = Some s ->
  SESSION_TIMEOUT < now - lastActivity s ->
  cleanupExpiredSessions now store !! uid = None /\
  forall later : Z,
    let fresh := (getSession later uid (cleanupExpiredSessions now store)).1 in
    currentStep fresh = "idle" /\
    uploadedFiles fresh = [] /\
    metadata fresh = ∅ /\
    selectedOperation fresh = None /\
    (getSession later uid (cleanupExpiredSessions now store)).2 !! uid
      = Some fresh.
Proof.
  intros Hs Hold.
  assert (Hgone : cleanupExpiredSessions now store !! uid = None).
  { unfold cleanupExpiredSessions.
    apply expire_fold_evicts with (s := s); [assumption |].
    now apply elem_of_map_to_list. }
  split; [exact Hgone |].
  intros later. unfold getSession. rewrite Hgone. simpl.
  repeat split. apply lookup_insert_eq.
Qed.

(** ** The artifact sweep *)

Lemma sweep_fold_lookup (now : Z) (file : string) :
  forall (names : list string) (dir : gmap string Z),
    fold_left (sweepFile now) names dir !! file =
    match dir !! file with
    | Some mtimeMs =>
        if bool_decide (file ∈ names) && (maxAge <? now - mtimeMs)
        then None else Some mtimeMs
    | None => None
    end.
Proof.
  induction names as [| name names IH]; intros dir.
  - simpl. now destruct (dir !! file).
  - simpl. rewrite IH. unfold sweepFile.
    destruct (decide (name = file)) as [-> | Hne].
    + rewrite (bool_decide_eq_true_2 (file ∈ file :: names)) by left.
      destruct (dir !! file) as [m |] eqn:E.
      * destruct (maxAge <? now - m) eqn:Eold.
        -- now rewrite lookup_delete_eq.
        -- rewrite E, Eold. now rewrite andb_false_r.
      * now rewrite E.
    + assert (Hmem : bool_decide (file ∈ name :: names)
                     = bool_decide (file ∈ names)).
      { apply bool_decide_ext. rewrite elem_of_cons.
        split; [intros [Heq | Hin]; [congruence | exact Hin] |].
        intros Hin. now right. }
      rewrite Hmem.
      destruct (dir !! name) as [m |]; [| reflexivity].
      destruct (maxAge <? now - m); [| reflexivity].
      now rewrite lookup_delete_ne.
Qed.

(** C8: one run of [cleanupOldFiles] removes an entry of the staging
    directory exactly when its modification time lies more than one hour
    before [now]; every other entry is kept with its time unchanged. *)
Theorem sweep_deletes_exactly_old (now : Z) (dir : gmap string Z)
    (file : string) (mtimeMs : Z) :
  dir !! file = Some mtimeMs ->
  (cleanupOldFiles now dir !! file = None <-> maxAge < now - mtimeMs) /\
  (~ maxAge < now - mtimeMs ->
   cleanupOldFiles now dir !! file = Some mtimeMs).
Proof.
  intros Hf. unfold cleanupOldFiles.
  rewrite sweep_fold_lookup, Hf.
  assert (Hin : file ∈ (map_to_list dir).*1).
  { apply list_elem_of_fmap. exists (file, mtimeMs). split; [reflexivity |].
    now apply elem_of_map_to_list. }
  rewrite (bool_decide_eq_true_2 _ Hin). simpl.
  destruct (Z.ltb_spec maxAge (now - mtimeMs)) as [Ho | Hy].
  - split; [tauto | intros; lia].
  - split; [| reflexivity]. split; [discriminate | lia].
Qed.

Lemma sweep_deletes_exactly_old_witness :
  (cleanupOldFiles 4000000 {[ "temp_1_a.pdf" := 1 ]} !! "temp_1_a.pdf" = None
   <-> maxAge < 4000000 - 1) /\
  (~ maxAge < 4000000 - 1 ->
   cleanupOldFiles 4000000 {[ "temp_1_a.pdf" := 1 ]} !! "temp_1_a.pdf"
   = Some 1).
Proof.
  apply (sweep_deletes_exactly_old 4000000 {[ "temp_1_a.pdf" := 1 ]}
           "temp_1_a.pdf" 1).
  vm_compute. reflexivity.
Defined.

Lemma expired_session_is_evicted_witness :
  cleanupExpiredSessions 2000000 {[ "user" := newSession "user" 0 ]}
    !! "user" = None.
Proof.
  refine (proj1 (expired_session_is_evicted 2000000
                   {[ "user" := newSession "user" 0 ]} "user"
                   (newSession "user" 0) _ _)).
  - vm_compute. reflexivity.
  - vm_compute. reflexivity.
Defined.

(** ** [detectFileType] *)

Section FileTypeFacts.

Variable extname : string -> string.

Lemma detectFileType_tag (filename : string) (mimeType : option string) :
  In (detectFileType extname filename mimeType) fileTypeTags.
Proof.
  unfold detectFileType, fileTypeTags.
  repeat match goal with
         | |- context [if ?b then _ else _] => destruct b
         | |- context [match ?m with Some _ => _ | None => _ end] =>
             destruct m
         end; simpl; tauto.
Qed.

Lemma strIn_cons (x y : string) (l : list string) :
  strIn x (y :: l) = String.eqb x y || strIn x l.
Proof. reflexivity. Qed.

Lemma detectFileType_by_extension (filename : string)
    (m1 m2 : option string) :
  strIn (getFileExtension extname filename) recognizedExtensions = true ->
  detectFileType extname filename m1 = detectFileType extname filename m2.
Proof.
  unfold detectFileType, recognizedExtensions.
  generalize (getFileExtension extname filename). intros ext Hrec.
  rewrite !strIn_cons in *.
  destruct (String.eqb ext ".pdf"); [reflexivity |].
  repeat match goal with
         | |- context [String.eqb ext ?lit] =>
             destruct (String.eqb ext lit); [reflexivity |]
         end.
  discriminate Hrec.
Qed.

End FileTypeFacts.

(** C9: when the lower-cased extension of [filename] is one of the
    recognised ones, [detectFileType] gives the same tag for every value of
    [mimeType]; and every result is one of the seven tags. *)
Theorem detectFileType_extension_decides (extname : string -> string)
    (filename : string) (m1 m2 : option string) :
  strIn (getFileExtension extname filename) recognizedExtensions = true ->
  detectFileType extname filename m1 = detectFileType extname filename m2 /\
  (forall (f : string) (m : option string),
     In (detectFileType extname f m) fileTypeTags).
Proof.
  intros Hrec. split.
  - now apply detectFileType_by_extension.
  - intros f m. apply detectFileType_tag.
Qed.

Lemma detectFileType_extension_decides_witness :
  detectFileType posix_extname "/app/temp/temp_1_a.PDF" (Some "image/png")
  = detectFileType posix_extname "/app/temp/temp_1_a.PDF" None /\
  (forall (f : string) (m : option string),
     In (detectFileType posix_extname f m) fileTypeTags).
Proof.
  apply (detectFileType_extension_decides posix_extname
           "/app/temp/temp_1_a.PDF" (Some "image/png") None).
  vm_compute. reflexivity.
Defined.

(** ** A small program logic for handler code *)

Section Triples.

Context {A : Type}.

Lemma triple_ret (P : World -> Prop) (a : A)
    (Q : A -> World -> Prop) (E : string -> World -> Prop) :
  (forall w, P w -> Q a w) -> triple P (ret a) Q E.
Proof. intros H w Hw. now apply H. Qed.

Lemma triple_throw (P : World -> Prop) (msg : string)
    (Q : A -> World -> Prop) (E : string -> World -> Prop) :
  (forall w, P w -> E msg w) -> triple P (throw msg) Q E.
Proof. intros H w Hw. now apply H. Qed.

Lemma triple_bind {B : Type} (P : World -> Prop) (m : M B) (k : B -> M A)
    (R : B -> World -> Prop)
    (Q : A -> World -> Prop) (E : string -> World -> Prop) :
  triple P m R E ->
  (forall b, triple (R b) (k b) Q E) ->
  triple P (bind m k) Q E.
Proof.
  intros Hm Hk w Hw. unfold bind. specialize (Hm w Hw).
  destruct (m w) as [[b | e] w1]; [| exact Hm].
  now apply Hk.
Qed.

Lemma triple_tryCatch (P : World -> Prop) (m : M A) (h : string -> M A)
    (F : string -> World -> Prop)
    (Q : A -> World -> Prop) (E : string -> World -> Prop) :
  triple P m Q F ->
  (forall e, triple (F e) (h e) Q E) ->
  triple P (tryCatch m h) Q E.
Proof.
  intros Hm Hh w Hw. unfold tryCatch. specialize (Hm w Hw).
  destruct (m w) as [[a | e] w1]; [exact Hm |].
  now apply Hh.
Qed.

Lemma triple_weaken (P : World -> Prop) (m : M A)
    (Q Q' : A -> World -> Prop) (E E' : string -> World -> Prop) :
  triple P m Q E ->
  (forall a w, Q a w -> Q' a w) ->
  (forall e w, E e w -> E' e w) ->
  triple P m Q' E'.
Proof.
  intros Hm HQ HE w Hw. specialize (Hm w Hw).
  destruct (m w) as [[a | e] w1]; auto.
Qed.

End Triples.

(** ** Failure of [processOperation] *)

Section FailureFacts.

Context {Page : Type}.
Variable now : Z.
Variable extname : string -> string.
Variable getTempFilePath : string -> string.
Variable load : Bytes -> Result (list Page).
Variable save : list Page -> Bytes.
Variable engine :
  EngineCall -> gmap string Bytes -> Result string * gmap string Bytes.
Variable pdfToImage :
  string -> option Z -> gmap string Bytes ->
  Result (list string) * gmap string Bytes.
Variable sendMedia : string -> Result unit.

(** The session content fixed at the start of the operation. *)
Variable uid : string.
Variable held : list FileInfo.
Variable answers : gmap string string.

Local Notation "'Kept'" := (Keeps uid held answers).

Create HintDb handler discriminated.

Lemma steady_ret {A} (a : A) : steady Kept (ret a).
Proof. apply triple_ret. auto. Qed.

Lemma steady_throw {A} (msg : string) : steady Kept (throw msg : M A).
Proof. apply triple_throw. auto. Qed.

Lemma steady_bind {A B} (m : M A) (k : A -> M B) :
  steady Kept m -> (forall a, steady Kept (k a)) -> steady Kept (bind m k).
Proof. intros Hm Hk. eapply triple_bind; [exact Hm | exact Hk]. Qed.

Lemma steady_tryCatch {A} (m : M A) (h : string -> M A) :
  steady Kept m -> (forall e, steady Kept (h e)) -> steady Kept (tryCatch m h).
Proof. intros Hm Hh. eapply triple_tryCatch; [exact Hm | exact Hh]. Qed.

Lemma steady_reply (r : Reply) : steady Kept (reply r).
Proof. intros w Hw. exact Hw. Qed.

Lemma steady_logCall (c : EngineCall) : steady Kept (logCall c).
Proof. intros w Hw. exact Hw. Qed.

Lemma steady_verify (p : string) : steady Kept (verify p).
Proof. intros w Hw. exact Hw. Qed.

Lemma steady_withStaging (f : gmap string Bytes -> gmap string Bytes) :
  steady Kept (withStaging f).
Proof. intros w Hw. exact Hw. Qed.

Lemma steady_onStaging {A}
    (f : gmap string Bytes -> Result A * gmap string Bytes) :
  steady Kept (onStaging f).
Proof.
  intros w Hw. unfold onStaging.
  destruct (f (staging w)) as [[a | e] fs']; exact Hw.
Qed.

Lemma steady_callEngine (c : EngineCall) : steady Kept (callEngine engine c).
Proof.
  unfold callEngine. apply steady_bind; [apply steady_logCall |].
  intros _. apply steady_onStaging.
Qed.

Lemma steady_updateSession (u : Updates) :
  upd_metadata u = None -> steady Kept (updateSessionM now uid u).
Proof.
  intros Hu w (s & Hs & Hf & Hm).
  unfold updateSessionM, withSessions, updateSession, getSession. simpl.
  rewrite Hs. eexists. split; [apply lookup_insert_eq |].
  simpl. rewrite Hu. simpl. auto.
Qed.

Lemma steady_validateFileType (files : list FileInfo)
    (requiredType operationName : string) :
  steady Kept (validateFileType files requiredType operationName).
Proof.
  unfold validateFileType. destruct files as [| f rest].
  - apply steady_throw.
  - destruct (negb _); [apply steady_throw | apply steady_ret].
Qed.

Lemma steady_sendFile (filePath : string) :
  steady Kept (sendFile sendMedia filePath).
Proof.
  unfold sendFile. apply steady_tryCatch.
  - apply steady_bind.
    + intros w Hw. destruct (sendMedia filePath); exact Hw.
    + intros _. apply steady_bind; [apply steady_reply |].
      intros _. apply steady_withStaging.
  - intros e. apply steady_throw.
Qed.

Lemma steady_sendAll (outputPaths : list string) :
  steady Kept (sendAll sendMedia outputPaths).
Proof.
  induction outputPaths as [| p rest IH]; simpl; [apply steady_ret |].
  apply steady_bind; [apply steady_verify |].
  intros present. apply steady_bind; [| intros _; exact IH].
  destruct present; [apply steady_sendFile | apply steady_ret].
Qed.

Lemma steady_deliver (outputPath : option string)
    (outputPaths : list string) :
  steady Kept (deliver sendMedia outputPath outputPaths).
Proof.
  unfold deliver. destruct outputPaths as [| p rest].
  - destruct outputPath as [p |]; [| apply steady_throw].
    apply steady_bind; [apply steady_verify |].
    intros present.
    destruct (JS.truthy p && present);
      [apply steady_sendFile | apply steady_throw].
  - apply steady_sendAll.
Qed.

Hint Resolve steady_reply steady_logCall steady_verify steady_withStaging
  steady_callEngine steady_validateFileType steady_deliver
  steady_ret steady_throw : handler.

Local Notation "'switches' m" :=
  (triple Kept m (afterSwitch uid held answers) (fun _ => Kept))
  (at level 10, m at level 9).

Lemma switch_then (A : Type) (m : M A) (k : A -> M SwitchExit) :
  steady Kept m -> (forall a, switches (k a)) -> switches (bind m k).
Proof. intros Hm Hk. eapply triple_bind; [exact Hm | exact Hk]. Qed.

Lemma switch_throw (msg : string) : switches (throw msg).
Proof. apply triple_throw. auto. Qed.

Lemma switch_break (outputPath : option string) (outputPaths : list string) :
  switches (ret (Broke outputPath outputPaths)).
Proof. apply triple_ret. auto. Qed.

Lemma switch_return : switches (ret Returned).
Proof. apply triple_ret. intros; exact I. Qed.

(** After [clearSessionFiles] nothing can throw any more. *)
Lemma switch_clear_return :
  switches (exec clearSessionFilesM now uid in ret Returned).
Proof. intros w _. exact I. Qed.

Ltac switch_step :=
  first
    [ apply switch_throw
    | apply switch_break
    | apply switch_return
    | apply switch_clear_return
    | apply switch_then;
        [ first [ solve [auto with handler]
                | apply steady_onStaging
                | apply steady_updateSession; reflexivity ]
        | intros ? ]
    | match goal with
      | |- triple _ (if ?b then _ else _) _ _ => destruct b
      | |- triple _ (match ?x with _ => _ end) _ _ => destruct x
      end ].

Lemma dispatch_switches (operation : option string)
    (files : list FileInfo) (md : gmap string string) :
  switches (dispatch now getTempFilePath load save engine pdfToImage
                     uid operation files md).
Proof.
  unfold dispatch, simplePdfCase, pageRangeCase, officeCase.
  repeat switch_step.
Qed.

Lemma processAttempt_steady_on_throw (operation : option string)
    (files : list FileInfo) (md : gmap string string) :
  triple Kept
    (processAttempt now getTempFilePath load save engine pdfToImage
                    sendMedia uid operation files md)
    (fun _ _ => True) (fun _ => Kept).
Proof.
  unfold processAttempt.
  eapply triple_bind; [apply steady_reply |]. intros ?.
  eapply triple_bind; [apply dispatch_switches |]. intros [| op ops].
  - apply triple_ret. auto.
  - eapply triple_bind; [apply steady_deliver |]. intros ?.
    intros w _. exact I.
Qed.

End FailureFacts.

(** C6: when the [try] block of [processOperation] throws, whether in
    validation, in a service or while delivering, the session ends with
    [currentStep] idle and no selected operation, and with exactly the
    uploaded files and metadata it had before. *)
Theorem processOperation_failure_keeps_inputs {Page : Type}
    (now : Z) (getTempFilePath : string -> string)
    (load : Bytes -> Result (list Page)) (save : list Page -> Bytes)
    (engine : EngineCall -> gmap string Bytes ->
              Result string * gmap string Bytes)
    (pdfToImage : string -> option Z -> gmap string Bytes ->
                  Result (list string) * gmap string Bytes)
    (sendMedia : string -> Result unit)
    (uid : string) (w : World) (s : Session) :
  sessions w !! uid = Some s ->
  isThrow (processAttempt now getTempFilePath load save engine pdfToImage
             sendMedia uid (selectedOperation s) (uploadedFiles s)
             (metadata s) (enterOperation now uid s w)).1 = true ->
  exists s',
    sessions (processOperation now getTempFilePath load save engine
                pdfToImage sendMedia uid w).2 !! uid = Some s' /\
    currentStep s' = "idle" /\
    selectedOperation s' = None /\
    uploadedFiles s' = uploadedFiles s /\
    metadata s' = metadata s.
Proof.
  intros Hs Hthrow.
  assert (Hrun :
    processOperation now getTempFilePath load save engine pdfToImage
      sendMedia uid w =
    tryCatch
      (processAttempt now getTempFilePath load save engine pdfToImage
         sendMedia uid (selectedOperation s) (uploadedFiles s) (metadata s))
      (processFailed now uid) (enterOperation now uid s w)).
  { unfold processOperation, bind, getSessionM, getSessionFilesM,
      readSessions, getSessionFiles, getSession. simpl.
    rewrite Hs, lookup_insert_eq, insert_insert_eq. reflexivity. }
  rewrite Hrun. unfold tryCatch.
  pose proof (processAttempt_steady_on_throw now getTempFilePath load save
                engine pdfToImage sendMedia uid (uploadedFiles s)
                (metadata s) (selectedOperation s) (uploadedFiles s)
                (metadata s) (enterOperation now uid s w)) as Hkeep.
  destruct (processAttempt _ _ _ _ _ _ _ _ _ _ _ _) as [[[] | e] w1];
    [discriminate Hthrow |].
  destruct Hkeep as (s1 & Hs1 & Hf1 & Hm1).
  { exists (touch now s). split; [apply lookup_insert_eq | auto]. }
  unfold processFailed, bind, reply, updateSessionM, withSessions,
    updateSession, getSession. simpl.
  rewrite Hs1. eexists. split; [apply lookup_insert_eq |].
  simpl. auto.
Qed.

Lemma processOperation_failure_keeps_inputs_witness :
  exists s',
    sessions (processOperation 2000 (Demo.tempPath "2000_x") Demo.load
                Demo.save Demo.engine Demo.pdfToImage Demo.sendMedia
                "user" Demo.compressReady).2 !! "user" = Some s' /\
    currentStep s' = "idle" /\
    selectedOperation s' = None /\
    uploadedFiles s' = uploadedFiles Demo.compressSession /\
    metadata s' = metadata Demo.compressSession.
Proof.
  apply (processOperation_failure_keeps_inputs 2000
           (Demo.tempPath "2000_x") Demo.load Demo.save Demo.engine
           Demo.pdfToImage Demo.sendMedia "user" Demo.compressReady
           Demo.compressSession).
  - vm_compute. reflexivity.
  - vm_compute. reflexivity.
Defined.

(** ** File uploads while a comparison is selected *)

Section CompareFacts.

Context {Page : Type}.
Variable now : Z.
Variable extname : string -> string.
Variable getTempFilePath : string -> string.
Variable load : Bytes -> Result (list Page).
Variable save : list Page -> Bytes.
Variable engine :
  EngineCall -> gmap string Bytes -> Result string * gmap string Bytes.
Variable pdfToImage :
  string -> option Z -> gmap string Bytes ->
  Result (list string) * gmap string Bytes.
Variable sendMedia : string -> Result unit.

Variable uid : string.
Variable step : string.
Variable log : list EngineCall.
Variable sent : list Reply.

Local Notation "'Wait'" := (Waiting uid step log sent).

Lemma waiting_reply (r : Reply) :
  announcesWork r = false -> steady Wait (reply r).
Proof.
  intros Hr w (Hlog & Hs & rs & Hout & Hq).
  split; [exact Hlog |]. split; [exact Hs |].
  exists (rs ++ [r]). simpl. rewrite Hout, app_assoc. split; [reflexivity |].
  rewrite forallb_app, Hq. simpl. now rewrite Hr.
Qed.

Lemma waiting_withStaging (f : gmap string Bytes -> gmap string Bytes) :
  steady Wait (withStaging f).
Proof. intros w Hw. exact Hw. Qed.

Lemma waiting_verify (p : string) : steady Wait (verify p).
Proof. intros w Hw. exact Hw. Qed.

Lemma waiting_addFile (fileInfo : FileInfo) :
  steady Wait (withSessions (addFileToSession now uid fileInfo)).
Proof.
  intros w (Hlog & (s & Hs & Hstep & Hop) & Hout).
  split; [exact Hlog |]. split; [| exact Hout].
  unfold addFileToSession, getSession. simpl. rewrite Hs.
  eexists. split; [apply lookup_insert_eq |]. simpl. auto.
Qed.

Lemma waiting_getSession :
  triple Wait (getSessionM now uid)
    (fun s w => Wait w /\ selectedOperation s = Some "compare_pdf")
    (fun _ => Wait).
Proof.
  intros w (Hlog & (s & Hs & Hstep & Hop) & Hout).
  unfold getSessionM, readSessions, getSession. simpl. rewrite Hs.
  split; [| exact Hop].
  split; [exact Hlog |]. split; [| exact Hout].
  eexists. split; [apply lookup_insert_eq |]. simpl. auto.
Qed.

Lemma waiting_getSessionFiles :
  steady Wait (getSessionFilesM now uid).
Proof.
  intros w (Hlog & (s & Hs & Hstep & Hop) & Hout).
  unfold getSessionFilesM, readSessions, getSessionFiles, getSession. simpl.
  rewrite Hs.
  split; [exact Hlog |]. split; [| exact Hout].
  eexists. split; [apply lookup_insert_eq |]. simpl. auto.
Qed.

(** With the compare operation selected, [checkOperationRequirements]
    only ever prompts: it never reaches [processOperation]. *)
Lemma waiting_checkOperationRequirements :
  steady Wait
    (checkOperationRequirements now getTempFilePath load save engine
       pdfToImage sendMedia uid).
Proof.
  unfold checkOperationRequirements.
  eapply triple_bind; [apply waiting_getSession |].
  intros s w [Hw Hop]. revert w Hw. rewrite Hop. simpl default.
  change (String.eqb "compare_pdf" "merge_pdf") with false.
  change (String.eqb "compare_pdf" "compare_pdf") with true. cbv iota.
  change (steady Wait
    (let* files := getSessionFilesM now uid in
     if (length files =? 0)%nat then reply RCompareSendFirst
     else if (length files =? 1)%nat then reply RCompareSendSecond
     else ret tt)).
  eapply triple_bind; [apply waiting_getSessionFiles |].
  intros files.
  destruct (length files =? 0)%nat; [now apply waiting_reply |].
  destruct (length files =? 1)%nat; [now apply waiting_reply |].
  apply triple_ret. auto.
Qed.

Lemma waiting_handleFileUpload (message : Message) :
  steady Wait
    (handleFileUpload now extname getTempFilePath load save engine
       pdfToImage sendMedia message uid).
Proof.
  unfold handleFileUpload.
  eapply triple_tryCatch with (F := fun _ => Wait);
    [| intros e; now apply waiting_reply].
  eapply triple_bind; [now apply waiting_reply |]. intros ?.
  destruct (msg_download message) as [msg | | media].
  - apply triple_throw. auto.
  - now apply waiting_reply.
  - eapply triple_bind; [apply waiting_withStaging |]. intros ?.
    eapply triple_bind; [apply waiting_verify |]. intros saved.
    destruct saved; simpl negb; cbv iota; [| now apply waiting_reply].
    eapply triple_bind; [apply waiting_addFile |]. intros ?.
    eapply triple_bind; [apply waiting_getSession |].
    intros s w [Hw Hop]. revert w Hw. rewrite Hop.
    change (steady Wait
      (exec reply (RFileReceived (Z.of_nat (length (media_data media)))) in
       checkOperationRequirements now getTempFilePath load save engine
         pdfToImage sendMedia uid)).
    eapply triple_bind; [now apply waiting_reply |]. intros ?.
    apply waiting_checkOperationRequirements.
Qed.

End CompareFacts.

(** C1: with [compare_pdf] selected, handling an uploaded file (the second
    one included) never starts the comparison: no service is called, the
    session stays in the step it was in with the operation still selected,
    and the replies sent neither announce processing nor carry a
    comparison.  The comparison only runs on a later text message. *)
Theorem compare_upload_does_not_process {Page : Type}
    (now : Z) (extname : string -> string)
    (getTempFilePath : string -> string)
    (load : Bytes -> Result (list Page)) (save : list Page -> Bytes)
    (engine : EngineCall -> gmap string Bytes ->
              Result string * gmap string Bytes)
    (pdfToImage : string -> option Z -> gmap string Bytes ->
                  Result (list string) * gmap string Bytes)
    (sendMedia : string -> Result unit)
    (message : Message) (uid : string) (w : World) (s : Session) :
  sessions w !! uid = Some s ->
  selectedOperation s = Some "compare_pdf" ->
  let w' := (handleFileUpload now extname getTempFilePath load save engine
               pdfToImage sendMedia message uid w).2 in
  engineLog w' = engineLog w /\
  (exists s', sessions w' !! uid = Some s' /\
              currentStep s' = currentStep s /\
              selectedOperation s' = Some "compare_pdf") /\
  (exists rs, outbox w' = outbox w ++ rs /\
              forallb (fun r => negb (announcesWork r)) rs = true).
Proof.
  intros Hs Hop w'.
  pose proof (waiting_handleFileUpload now extname getTempFilePath load save
                engine pdfToImage sendMedia uid (currentStep s)
                (engineLog w) (outbox w) message w) as H.
  subst w'.
  destruct (handleFileUpload _ _ _ _ _ _ _ _ _ _ _) as [[[] | e] w1];
    apply H; (split; [reflexivity |]);
    (split; [exists s; auto | exists []; now rewrite app_nil_r]).
Qed.

Lemma compare_upload_does_not_process_witness :
  let w' := (Demo.upload 3000 "3000_c" (Demo.pdfUpload "user" Demo.bytes2)
               Demo.afterFirstPdf).2 in
  engineLog w' = engineLog Demo.afterFirstPdf /\
  (exists s', sessions w' !! "user" = Some s' /\
              currentStep s' = currentStep Demo.sessionAfterFirstPdf /\
              selectedOperation s' = Some "compare_pdf") /\
  (exists rs, outbox w' = outbox Demo.afterFirstPdf ++ rs /\
              forallb (fun r => negb (announcesWork r)) rs = true).
Proof.
  apply (compare_upload_does_not_process 3000 posix_extname
           (Demo.tempPath "3000_c") Demo.load Demo.save Demo.engine
           Demo.pdfToImage Demo.sendMedia (Demo.pdfUpload "user" Demo.bytes2)
           "user" Demo.afterFirstPdf Demo.sessionAfterFirstPdf).
  - vm_compute. reflexivity.
  - vm_compute. reflexivity.
Defined.

(** The compare workflow end to end: after the second PDF the session
    holds two files of type pdf and still waits for a file, with no service
    called; the next text message, whatever it says, runs the comparison. *)
Example compare_needs_one_more_message :
  (fun s => (currentStep s, map file_type (uploadedFiles s)))
    <$> (sessions Demo.afterSecondPdf !! "user")
    = Some ("waiting_for_file", ["pdf"; "pdf"]) /\
  engineLog Demo.afterSecondPdf = [] /\
  outbox Demo.afterSecondPdf =
    [RInstructions "compare_pdf"; RDownloading; RFileReceived 3;
     RCompareSendSecond; RDownloading; RFileReceived 2] /\
  engineLog Demo.afterNudge =
    [ComparePDFs "/app/temp/temp_2000_b.pdf" "/app/temp/temp_3000_c.pdf"] /\
  currentStep <$> (sessions Demo.afterNudge !! "user") = Some "idle".
Proof. repeat split; vm_compute; reflexivity. Qed.

(** ** The two range parsers compared token by token *)

Lemma insertNum_In (x p : Z) (l : list Z) :
  In p (JS.insertNum x l) <-> p = x \/ In p l.
Proof.
  induction l as [| y l IH]; simpl.
  - intuition.
  - destruct (x <? y); simpl; [intuition |]. rewrite IH. intuition.
Qed.

Lemma sortNum_In (p : Z) (l : list Z) : In p (JS.sortNum l) <-> In p l.
Proof.
  unfold JS.sortNum. rewrite (in_rev l).
  induction (rev l) as [| x r IH]; simpl; [reflexivity |].
  rewrite insertNum_In, IH. intuition.
Qed.

(** The loops have the fuel they need: more changes nothing. *)
Lemma rangeLoop_fuel (e n : Z) :
  forall (f1 f2 : nat) (i : Z) (pages : list Z),
    Z.min e n - i + 1 <= Z.of_nat f1 ->
    Z.min e n - i + 1 <= Z.of_nat f2 ->
    rangeLoop f1 i e n pages = rangeLoop f2 i e n pages.
Proof.
  induction f1 as [| f1 IH]; intros f2 i pages H1 H2.
  - destruct f2 as [| f2]; [reflexivity |]. simpl.
    destruct (Z.leb_spec i e), (Z.leb_spec i n); simpl; try reflexivity. lia.
  - simpl.
    destruct (Z.leb_spec i e), (Z.leb_spec i n); simpl;
      try (destruct f2; simpl; [reflexivity |];
           destruct (Z.leb_spec i e), (Z.leb_spec i n); simpl;
           try reflexivity; lia).
    destruct f2 as [| f2]; [lia |]. simpl.
    destruct (Z.leb_spec i e), (Z.leb_spec i n); simpl; try lia.
    apply IH; lia.
Qed.

Lemma rotateLoop_fuel (b n : Z) :
  forall (f1 f2 : nat) (i : Z) (acc : list Z),
    b - i <= Z.of_nat f1 ->
    b - i <= Z.of_nat f2 ->
    rotateLoop f1 i b n acc = rotateLoop f2 i b n acc.
Proof.
  induction f1 as [| f1 IH]; intros f2 i acc H1 H2.
  - destruct f2 as [| f2]; [reflexivity |]. simpl.
    destruct (Z.ltb_spec i b); [lia | reflexivity].
  - simpl. destruct (Z.ltb_spec i b) as [Hb | Hb].
    + destruct f2 as [| f2]; [lia |]. simpl.
      destruct (Z.ltb_spec i b); [| lia]. apply IH; lia.
    + destruct f2 as [| f2]; [reflexivity |]. simpl.
      destruct (Z.ltb_spec i b); [lia | reflexivity].
Qed.

Lemma keepLoop_fuel (n : Z) (rem : list Z) :
  forall (f1 f2 : nat) (i : Z) (acc : list Z),
    n - i + 1 <= Z.of_nat f1 ->
    n - i + 1 <= Z.of_nat f2 ->
    keepLoop f1 i n rem acc = keepLoop f2 i n rem acc.
Proof.
  induction f1 as [| f1 IH]; intros f2 i acc H1 H2.
  - destruct f2 as [| f2]; [reflexivity |]. simpl.
    destruct (Z.leb_spec i n); [lia | reflexivity].
  - simpl. destruct (Z.leb_spec i n) as [Hn | Hn].
    + destruct f2 as [| f2]; [lia |]. simpl.
      destruct (Z.leb_spec i n); [| lia]. apply IH; lia.
    + destruct f2 as [| f2]; [reflexivity |]. simpl.
      destruct (Z.leb_spec i n); [lia | reflexivity].
Qed.

Lemma rangeLoop_In (e n : Z) :
  forall (fuel : nat) (i : Z) (pages : list Z) (p : Z),
    In p (rangeLoop fuel i e n pages) <->
    In p pages \/
    (i <= p < i + Z.of_nat fuel /\ p <= e /\ p <= n /\ 1 <= p).
Proof.
  induction fuel as [| fuel IH]; intros i pages p.
  - simpl. intuition lia.
  - cbn [rangeLoop].
    destruct (Z.leb_spec i e) as [He | He]; cbn [andb];
      [destruct (Z.leb_spec i n) as [Hn | Hn] |]; try (intuition lia).
    rewrite IH.
    destruct (Z.leb_spec 1 i) as [H1 | H1]; cbn [andb].
    + destruct (JS.arrIncludes pages i) eqn:E; cbn [negb].
      * apply arrIncludes_In in E.
        split; [intuition lia |].
        intros [Hp | Hp]; [now left |].
        destruct (Z.eq_dec p i) as [-> | Hne]; [now left | right; lia].
      * rewrite in_app_iff. simpl.
        split; [intuition lia |].
        intros [Hp | Hp]; [now left; left |].
        destruct (Z.eq_dec p i) as [-> | Hne]; [left; right; now left |].
        right; lia.
    + intuition lia.
Qed.

Lemma rotateLoop_In (b n : Z) :
  forall (fuel : nat) (i : Z) (acc : list Z) (j : Z),
    In j (rotateLoop fuel i b n acc) <->
    In j acc \/ (i <= j < i + Z.of_nat fuel /\ j < b /\ 0 <= j < n).
Proof.
  induction fuel as [| fuel IH]; intros i acc j.
  - simpl. intuition lia.
  - cbn [rotateLoop].
    destruct (Z.ltb_spec i b) as [Hb | Hb]; [| intuition lia].
    rewrite IH.
    destruct (Z.leb_spec 0 i) as [H0 | H0]; cbn [andb];
      [destruct (Z.ltb_spec i n) as [Hn | Hn] |]; try (intuition lia).
    rewrite in_app_iff. simpl.
    split; [intuition lia |].
    intros [Hj | Hj]; [now left; left |].
    destruct (Z.eq_dec j i) as [-> | Hne]; [left; right; now left |].
    right; lia.
Qed.

Lemma parsePart_In (n : Z) (pages : list Z) (part : string) (p : Z) :
  In p (parsePart n pages part) <->
  In p pages \/ In p (parsePart n [] part).
Proof.
  unfold parsePart.
  destruct (JS.includes (JS.trim part) "-").
  - rewrite !rangeLoop_In. simpl. intuition.
  - destruct (JS.parseInt (JS.trim part)) as [pageNum |]; [| simpl; tauto].
    rewrite arrIncludes_nil.
    destruct (Z.leb_spec 1 pageNum), (Z.leb_spec pageNum n); simpl;
      try tauto.
    destruct (JS.arrIncludes pages pageNum) eqn:E; simpl.
    + apply arrIncludes_In in E. intuition (subst; auto).
    + rewrite in_app_iff. simpl. tauto.
Qed.

Lemma rotatePart_In (n : Z) (acc : list Z) (part : string) (j : Z) :
  In j (rotatePart n acc part) <->
  In j acc \/ In j (rotatePart n [] part).
Proof.
  unfold rotatePart.
  destruct (JS.includes (JS.trim part) "-").
  - destruct (nth 0 _ None) as [st |]; [| simpl; tauto].
    rewrite !rotateLoop_In. simpl. intuition.
  - destruct (JS.parseInt (JS.trim part)) as [q |]; [| simpl; tauto].
    destruct ((0 <=? q - 1) && (q - 1 <? n)); [| simpl; tauto].
    rewrite in_app_iff. simpl. tauto.
Qed.

Lemma parseParts_In (n : Z) (p : Z) :
  forall (parts : list string) (pages : list Z),
    In p (fold_left (parsePart n) parts pages) <->
    In p pages \/ exists part, In part parts /\ In p (parsePart n [] part).
Proof.
  induction parts as [| part parts IH]; intros pages; simpl.
  - split; [tauto | intros [H | (x & [] & _)]; exact H].
  - rewrite IH, parsePart_In. split.
    + intros [[H | H] | (x & Hx & H)]; eauto.
    + intros [H | (x & [<- | Hx] & H)]; eauto.
Qed.

Lemma rotateParts_In (n : Z) (j : Z) :
  forall (parts : list string) (acc : list Z),
    In j (fold_left (rotatePart n) parts acc) <->
    In j acc \/ exists part, In part parts /\ In j (rotatePart n [] part).
Proof.
  induction parts as [| part parts IH]; intros acc; simpl.
  - split; [tauto | intros [H | (x & [] & _)]; exact H].
  - rewrite IH, rotatePart_In. split.
    + intros [[H | H] | (x & Hx & H)]; eauto.
    + intros [H | (x & [<- | Hx] & H)]; eauto.
Qed.

Lemma nth_map_default {A B : Type} (f : A -> B) (l : list A) (k : nat)
    (d : A) (d' : B) :
  f d = d' -> nth k (map f l) d' = f (nth k l d).
Proof. intros <-. apply map_nth. Qed.

(** On one token the inlined parser selects page [j + 1] only if the
    shared parser does, and exactly then when the token is not a range
    with a missing or non-numeric start. *)
Lemma rotatePart_vs_parsePart (n : Z) (part : string) (j : Z) :
  In j (rotatePart n [] part) <->
  numericStart part = true /\ 0 <= j /\ In (j + 1) (parsePart n [] part).
Proof.
  unfold rotatePart, parsePart, numericStart.
  destruct (JS.includes (JS.trim part) "-").
  - set (pieces := JS.split "-" (JS.trim part)).
    rewrite !(nth_map_default (fun s => JS.parseInt (JS.trim s))
                pieces _ "" None eq_refl).
    rewrite !(nth_map_default JS.trim pieces _ "" "" eq_refl).
    set (start := JS.trim (nth 0 pieces "")).
    set (end_ := JS.trim (nth 1 pieces "")).
    assert (Hend : (if JS.truthy end_
                    then JS.numOr (JS.parseInt end_) n else n)
                   = JS.numOr (JS.parseInt end_) n).
    { destruct end_; reflexivity. }
    rewrite Hend. clear Hend.
    set (bound := JS.numOr (JS.parseInt end_) n).
    destruct (JS.parseInt start) as [st |]; simpl JS.numOr.
    + rewrite rotateLoop_In, rangeLoop_In. unfold rangeFuel. simpl In.
      destruct (Z.eqb_spec st 0) as [-> | Hst]; intuition lia.
    + simpl. intuition discriminate.
  - destruct (JS.parseInt (JS.trim part)) as [q |]; [| simpl; tauto].
    rewrite arrIncludes_nil.
    destruct (Z.leb_spec 0 (q - 1)), (Z.ltb_spec (q - 1) n),
             (Z.leb_spec 1 q), (Z.leb_spec q n);
      simpl; try lia; intuition lia.
Qed.

(** Whatever the inlined parser of [rotatePDF] selects, the shared parser
    selects too; the converse holds when no range token lacks a numeric
    start. *)
Lemma rotateParse_included (pageRange : string) (n : Z) (j : Z) :
  In j (rotateParse pageRange n) -> In (j + 1) (parsePageRange pageRange n).
Proof.
  unfold rotateParse, parsePageRange.
  rewrite sortNum_In, rotateParts_In, parseParts_In.
  intros [[] | (part & Hin & Hj)]. right. exists part.
  split; [assumption |]. now apply rotatePart_vs_parsePart in Hj.
Qed.

Lemma rotateParse_agrees (pageRange : string) (n : Z) :
  forallb numericStart (JS.split "," pageRange) = true ->
  forall j, In j (rotateParse pageRange n) <->
            0 <= j /\ In (j + 1) (parsePageRange pageRange n).
Proof.
  intros Hnum j. unfold rotateParse, parsePageRange.
  rewrite sortNum_In, rotateParts_In, parseParts_In.
  rewrite forallb_forall in Hnum. split.
  - intros [[] | (part & Hin & Hj)].
    apply rotatePart_vs_parsePart in Hj. destruct Hj as (_ & H0 & Hp).
    split; [assumption |]. right. eauto.
  - intros [H0 [[] | (part & Hin & Hp)]]. right. exists part.
    split; [assumption |]. apply rotatePart_vs_parsePart. auto.
Qed.

(** * Further properties of the code *)

(** ** The range parser: order, bounds, token order *)

Lemma insertNum_HdRel (a x : Z) (l : list Z) :
  a < x -> HdRel Z.lt a l -> HdRel Z.lt a (JS.insertNum x l).
Proof.
  intros Hax Hl. destruct l as [| y l]; simpl.
  - now constructor.
  - destruct (x <? y); constructor; [assumption |].
    now inversion Hl.
Qed.

Lemma insertNum_Sorted (x : Z) (l : list Z) :
  Sorted Z.lt l -> ~ In x l -> Sorted Z.lt (JS.insertNum x l).
Proof.
  induction l as [| y l IH]; intros Hs Hnin; simpl.
  - repeat constructor.
  - destruct (Z.ltb_spec x y) as [Hlt | Hge].
    + constructor; [assumption | now constructor].
    + inversion Hs as [| ? ? Hs' Hhd]; subst.
      constructor.
      * apply IH; [assumption |]. intros Hin. apply Hnin. now right.
      * apply insertNum_HdRel; [| assumption].
        assert (x <> y) by (intros ->; apply Hnin; now left). lia.
Qed.

Lemma sortNum_Sorted (l : list Z) : List.NoDup l -> Sorted Z.lt (JS.sortNum l).
Proof.
  intros Hnd. unfold JS.sortNum.
  assert (Hr : List.NoDup (rev l)) by now apply List.NoDup_rev.
  induction (rev l) as [| x r IH]; simpl; [constructor |].
  inversion Hr as [| ? ? Hx Hr']; subst.
  apply insertNum_Sorted; [now apply IH |].
  intros Hin. apply Hx.
  clear - Hin. induction r as [| y r IHr]; simpl in *; [assumption |].
  apply insertNum_In in Hin. destruct Hin as [-> | Hin]; [now left |].
  right. now apply IHr.
Qed.

Lemma rangeLoop_NoDup (e n : Z) :
  forall (fuel : nat) (i : Z) (pages : list Z),
    List.NoDup pages -> List.NoDup (rangeLoop fuel i e n pages).
Proof.
  induction fuel as [| fuel IH]; intros i pages Hnd; simpl; [assumption |].
  destruct ((i <=? e) && (i <=? n)); [| assumption].
  apply IH.
  destruct (1 <=? i); simpl; [| assumption].
  destruct (JS.arrIncludes pages i) eqn:E; simpl; [assumption |].
  apply List.NoDup_app; [assumption | repeat constructor; simpl; tauto |].
  intros x Hx [<- | []].
  apply arrIncludes_In in Hx. congruence.
Qed.

Lemma parsePart_NoDup (n : Z) (pages : list Z) (part : string) :
  List.NoDup pages -> List.NoDup (parsePart n pages part).
Proof.
  intros Hnd. unfold parsePart.
  destruct (JS.includes (JS.trim part) "-"); [now apply rangeLoop_NoDup |].
  destruct (JS.parseInt (JS.trim part)) as [q |]; [| assumption].
  destruct ((1 <=? q) && (q <=? n)); simpl; [| assumption].
  destruct (JS.arrIncludes pages q) eqn:E; simpl; [assumption |].
  apply List.NoDup_app; [assumption | repeat constructor; simpl; tauto |].
  intros x Hx [<- | []].
  apply arrIncludes_In in Hx. congruence.
Qed.

Lemma parseParts_NoDup (n : Z) :
  forall (parts : list string) (pages : list Z),
    List.NoDup pages -> List.NoDup (fold_left (parsePart n) parts pages).
Proof.
  induction parts as [| part parts IH]; intros pages Hnd; simpl;
    [assumption |].
  apply IH. now apply parsePart_NoDup.
Qed.

Lemma parsePart_bounds (n : Z) (part : string) (p : Z) :
  In p (parsePart n [] part) -> 1 <= p <= n.
Proof.
  unfold parsePart.
  destruct (JS.includes (JS.trim part) "-").
  - rewrite rangeLoop_In. simpl. intuition lia.
  - destruct (JS.parseInt (JS.trim part)) as [q |]; [| intros []].
    rewrite arrIncludes_nil.
    destruct (Z.leb_spec 1 q), (Z.leb_spec q n); simpl; intuition lia.
Qed.

Lemma parsePageRange_In (pageRange : string) (n p : Z) :
  In p (parsePageRange pageRange n) <->
  exists part, In part (JS.split "," pageRange) /\ In p (parsePart n [] part).
Proof.
  unfold parsePageRange. rewrite sortNum_In, parseParts_In.
  simpl. intuition.
Qed.

Lemma parsePageRange_Sorted (pageRange : string) (n : Z) :
  Sorted Z.lt (parsePageRange pageRange n).
Proof.
  apply sortNum_Sorted, parseParts_NoDup. constructor.
Qed.

Lemma parsePageRange_bounds (pageRange : string) (n p : Z) :
  In p (parsePageRange pageRange n) -> 1 <= p <= n.
Proof.
  rewrite parsePageRange_In. intros (part & _ & Hp).
  now apply parsePart_bounds in Hp.
Qed.

Lemma Sorted_lt_head_least (a : Z) (l : list Z) :
  Sorted Z.lt (a :: l) -> forall x, In x l -> a < x.
Proof.
  intros Hs. apply Sorted_StronglySorted in Hs; [| intros x y z; lia].
  inversion Hs as [| ? ? _ Hall]; subst.
  rewrite List.Forall_forall in Hall. exact Hall.
Qed.

Lemma Sorted_lt_ext (l1 : list Z) :
  forall l2 : list Z,
    Sorted Z.lt l1 -> Sorted Z.lt l2 ->
    (forall x, In x l1 <-> In x l2) -> l1 = l2.
Proof.
  induction l1 as [| a l1 IH]; intros [| b l2] H1 H2 Hext.
  - reflexivity.
  - exfalso. apply (proj2 (Hext b)). now left.
  - exfalso. apply (proj1 (Hext a)). now left.
  - pose proof (Sorted_lt_head_least a l1 H1) as Ha.
    pose proof (Sorted_lt_head_least b l2 H2) as Hb.
    assert (a = b).
    { destruct (proj1 (Hext a) (or_introl eq_refl)) as [-> | Hin];
        [reflexivity |].
      destruct (proj2 (Hext b) (or_introl eq_refl)) as [-> | Hin'];
        [reflexivity |].
      specialize (Ha _ Hin'). specialize (Hb _ Hin). lia. }
    subst b. f_equal.
    apply IH; [now inversion H1 | now inversion H2 |].
    intros x. split; intros Hx.
    + destruct (proj1 (Hext x) (or_intror Hx)) as [<- | H]; [| assumption].
      specialize (Ha _ Hx). lia.
    + destruct (proj2 (Hext x) (or_intror Hx)) as [<- | H]; [| assumption].
      specialize (Hb _ Hx). lia.
Qed.

(** X1: whatever the selector, [parsePageRange] returns its pages in
    strictly ascending order (so without duplicates), each between 1 and
    [totalPages]; in particular nothing is selected from an empty
    document. *)
Theorem parsePageRange_ascending_in_bounds (pageRange : string)
    (totalPages : Z) :
  Sorted Z.lt (parsePageRange pageRange totalPages) /\
  (forall p, In p (parsePageRange pageRange totalPages) ->
             1 <= p <= totalPages) /\
  (totalPages <= 0 -> parsePageRange pageRange totalPages = []).
Proof.
  split; [apply parsePageRange_Sorted |].
  split; [apply parsePageRange_bounds |].
  intros Hn. destruct (parsePageRange pageRange totalPages) as [| p l] eqn:E;
    [reflexivity | exfalso].
  assert (Hp : In p (parsePageRange pageRange totalPages))
    by (rewrite E; now left).
  apply parsePageRange_bounds in Hp. lia.
Qed.

(** X2: the order of the comma-separated tokens does not matter: two
    selectors whose token lists are permutations of each other parse to the
    same page list. *)
Theorem parsePageRange_token_order (s1 s2 : string) (totalPages : Z) :
  Permutation (JS.split "," s1) (JS.split "," s2) ->
  parsePageRange s1 totalPages = parsePageRange s2 totalPages.
Proof.
  intros Hperm.
  apply Sorted_lt_ext; try apply parsePageRange_Sorted.
  intros p. rewrite !parsePageRange_In.
  split; intros (part & Hin & Hp); exists part; split; try assumption.
  - now apply (Permutation_in _ Hperm).
  - now apply (Permutation_in _ (Permutation_sym Hperm)).
Qed.

Lemma parsePageRange_token_order_witness :
  parsePageRange "7,1-3" 10 = parsePageRange "1-3,7" 10.
Proof.
  apply (parsePageRange_token_order "7,1-3" "1-3,7" 10).
  change (Permutation ["7"; "1-3"] ["1-3"; "7"]).
  apply perm_swap.
Defined.

(** ** The PDF services: what is written, what is cleaned up *)

Lemma cleanupFile_lookup (fs : gmap string Bytes) (filePath p : string) :
  cleanupFile fs filePath !! p =
  if bool_decide (p = filePath) && JS.truthy filePath then None else fs !! p.
Proof.
  unfold cleanupFile.
  destruct (JS.truthy filePath) eqn:Et; simpl.
  - destruct (decide (p = filePath)) as [-> | Hne].
    + rewrite (bool_decide_eq_true_2 (filePath = filePath)) by reflexivity.
      simpl. destruct (fs !! filePath) as [b |] eqn:E.
      * rewrite bool_decide_eq_true_2 by eauto. apply lookup_delete_eq.
      * rewrite bool_decide_eq_false_2; [assumption |].
        intros [b Hb]. discriminate.
    + rewrite (bool_decide_eq_false_2 (p = filePath)) by assumption. simpl.
      destruct (bool_decide (is_Some (fs !! filePath))); [| reflexivity].
      now rewrite lookup_delete_ne.
  - now rewrite andb_false_r.
Qed.

Lemma cleanupOnThrow_frame (fs fs1 : gmap string Bytes)
    (outputPath : string) (r : Result string) :
  JS.truthy outputPath = true ->
  (forall p, p <> outputPath -> fs1 !! p = fs !! p) ->
  (isThrow (cleanupOnThrow outputPath (r, fs1)).1 = true ->
   (cleanupOnThrow outputPath (r, fs1)).2 !! outputPath = None) /\
  (forall p, p <> outputPath ->
             (cleanupOnThrow outputPath (r, fs1)).2 !! p = fs !! p).
Proof.
  intros Ht Hframe. destruct r as [out | m]; simpl.
  - split; [discriminate | exact Hframe].
  - split.
    + intros _. rewrite cleanupFile_lookup, Ht.
      now rewrite bool_decide_eq_true_2.
    + intros p Hp. rewrite cleanupFile_lookup.
      rewrite bool_decide_eq_false_2 by assumption. simpl. now apply Hframe.
Qed.

Section ServiceFrames.

Context {Page : Type}.
Variable load : Bytes -> Result (list Page).
Variable save : list Page -> Bytes.
Variable getRotation : Page -> Z.
Variable setRotation : Z -> Page -> Result Page.

Ltac frame_cases :=
  repeat match goal with
         | |- context [if ?b then _ else _] => destruct b
         | |- context [match ?x with Ok _ => _ | Throw _ => _ end] =>
             destruct x
         end;
  simpl; intros p Hp; try reflexivity; now rewrite lookup_insert_ne.

Lemma splitPDF_try_frame fs outputPath pdfPath pageRange :
  forall p, p <> outputPath ->
    (splitPDF_try load save fs outputPath pdfPath pageRange).2 !! p = fs !! p.
Proof. unfold splitPDF_try. frame_cases. Qed.

Lemma removePages_try_frame fs outputPath pdfPath pageRange :
  forall p, p <> outputPath ->
    (removePages_try load save fs outputPath pdfPath pageRange).2 !! p
    = fs !! p.
Proof. unfold removePages_try. frame_cases. Qed.

Lemma mergePDFs_try_frame fs outputPath pdfPaths :
  forall p, p <> outputPath ->
    (mergePDFs_try load save fs outputPath pdfPaths).2 !! p = fs !! p.
Proof. unfold mergePDFs_try. frame_cases. Qed.

Lemma rotatePDF_try_frame fs outputPath pdfPath angle pageRange :
  forall p, p <> outputPath ->
    (rotatePDF_try load save getRotation setRotation fs outputPath pdfPath
       angle pageRange).2 !! p = fs !! p.
Proof. unfold rotatePDF_try. frame_cases. Qed.

Lemma pair_eta {A B : Type} (x : A * B) : x = (x.1, x.2).
Proof. now destruct x. Qed.

End ServiceFrames.

(** X3: [splitPDF], [removePages], [mergePDFs] and [rotatePDF] never touch
    a file other than their output handle, and when one of them throws no
    file is left under that handle. *)
Theorem services_leave_no_artifact_on_failure {Page : Type}
    (load : Bytes -> Result (list Page)) (save : list Page -> Bytes)
    (getRotation : Page -> Z) (setRotation : Z -> Page -> Result Page)
    (fs : gmap string Bytes) (outputPath pdfPath pageRange : string)
    (pdfPaths : list string) (angle : option Z) :
  JS.truthy outputPath = true ->
  let outcomes :=
    [ splitPDF load save fs outputPath pdfPath pageRange;
      removePages load save fs outputPath pdfPath pageRange;
      mergePDFs load save fs outputPath pdfPaths;
      rotatePDF load save getRotation setRotation fs outputPath pdfPath
                angle pageRange ] in
  forall outcome, In outcome outcomes ->
    (isThrow outcome.1 = true -> outcome.2 !! outputPath = None) /\
    (forall p, p <> outputPath -> outcome.2 !! p = fs !! p).
Proof.
  intros Ht outcomes outcome Hin. simpl in Hin.
  destruct Hin as [<- | [<- | [<- | [<- | []]]]].
  - unfold splitPDF.
    rewrite (pair_eta (splitPDF_try load save fs outputPath pdfPath pageRange)).
    apply cleanupOnThrow_frame; [assumption | apply splitPDF_try_frame].
  - unfold removePages.
    rewrite (pair_eta (removePages_try load save fs outputPath pdfPath
                         pageRange)).
    apply cleanupOnThrow_frame; [assumption | apply removePages_try_frame].
  - unfold mergePDFs.
    rewrite (pair_eta (mergePDFs_try load save fs outputPath pdfPaths)).
    apply cleanupOnThrow_frame; [assumption | apply mergePDFs_try_frame].
  - unfold rotatePDF.
    rewrite (pair_eta (rotatePDF_try load save getRotation setRotation fs
                         outputPath pdfPath angle pageRange)).
    apply cleanupOnThrow_frame; [assumption | apply rotatePDF_try_frame].
Qed.

Lemma services_leave_no_artifact_on_failure_witness :
  (isThrow (splitPDF Demo.load Demo.save Demo.library "/app/temp/out.pdf"
              "/app/temp/doc.pdf" "99").1 = true ->
   (splitPDF Demo.load Demo.save Demo.library "/app/temp/out.pdf"
      "/app/temp/doc.pdf" "99").2 !! "/app/temp/out.pdf" = None) /\
  (forall p, p <> "/app/temp/out.pdf" ->
     (splitPDF Demo.load Demo.save Demo.library "/app/temp/out.pdf"
        "/app/temp/doc.pdf" "99").2 !! p = Demo.library !! p).
Proof.
  apply (services_leave_no_artifact_on_failure Demo.load Demo.save
           (fun _ => 0) (fun _ page => Ok page) Demo.library
           "/app/temp/out.pdf" "/app/temp/doc.pdf" "99" [] None eq_refl).
  now left.
Defined.

(** X4: when the selector selects at least one page of a readable
    document, [splitPDF] (and so [extractPages]) copies exactly the parsed
    pages, in ascending page order, and returns the output handle once the
    written file verifies. *)
Theorem splitPDF_copies_parsed_pages {Page : Type}
    (load : Bytes -> Result (list Page)) (save : list Page -> Bytes)
    (fs : gmap string Bytes) (outputPath pdfPath pageRange : string)
    (pdf : list Page) :
  verifyFile fs pdfPath = true ->
  load (default [] (fs !! pdfPath)) = Ok pdf ->
  parsePageRange pageRange (Z.of_nat (length pdf)) <> [] ->
  let pages := parsePageRange pageRange (Z.of_nat (length pdf)) in
  exists copied,
    length copied = length pages /\
    (forall (k : nat) (p : Z),
       pages !! k = Some p -> copied !! k = pdf !! Z.to_nat (p - 1)) /\
    (verifyFile (<[outputPath := save copied]> fs) outputPath = true ->
     splitPDF load save fs outputPath pdfPath pageRange =
       (Ok outputPath, <[outputPath := save copied]> fs) /\
     extractPages load save fs outputPath pdfPath pageRange =
       (Ok outputPath, <[outputPath := save copied]> fs)).
Proof.
  intros Hv Hl Hne pages.
  destruct (copyPages_in_range pdf (map (fun p => p - 1) pages))
    as (copied & Hc & Hlen & Hget).
  { intros i Hi. apply in_map_iff in Hi. destruct Hi as (p & <- & Hp).
    apply parsePageRange_bounds in Hp. lia. }
  exists copied. rewrite length_map in Hlen.
  split; [exact Hlen |]. split.
  - intros k p Hk. apply Hget. now rewrite list_lookup_fmap, Hk.
  - intros Hout.
    assert (Hlen0 : (length pages =? 0)%nat = false).
    { subst pages. destruct (parsePageRange _ _); [contradiction |].
      reflexivity. }
    unfold extractPages, splitPDF, splitPDF_try.
    rewrite Hv, Hl. cbn [negb]. fold pages. cbv zeta.
    rewrite Hlen0, Hc, Hout. split; reflexivity.
Qed.

Lemma splitPDF_copies_parsed_pages_witness :
  exists copied,
    length copied = length (parsePageRange "2-3" 10) /\
    (forall (k : nat) (p : Z),
       parsePageRange "2-3" 10 !! k = Some p ->
       copied !! k = Demo.tenPages !! Z.to_nat (p - 1)) /\
    (verifyFile (<["/app/temp/out.pdf" := Demo.save copied]> Demo.library)
                "/app/temp/out.pdf" = true ->
     splitPDF Demo.load Demo.save Demo.library "/app/temp/out.pdf"
              "/app/temp/doc.pdf" "2-3" =
       (Ok "/app/temp/out.pdf",
        <["/app/temp/out.pdf" := Demo.save copied]> Demo.library) /\
     extractPages Demo.load Demo.save Demo.library "/app/temp/out.pdf"
              "/app/temp/doc.pdf" "2-3" =
       (Ok "/app/temp/out.pdf",
        <["/app/temp/out.pdf" := Demo.save copied]> Demo.library)).
Proof.
  apply (splitPDF_copies_parsed_pages Demo.load Demo.save Demo.library
           "/app/temp/out.pdf" "/app/temp/doc.pdf" "2-3" Demo.tenPages);
    try (vm_compute; reflexivity).
  vm_compute. discriminate.
Defined.

(** ** [mergePDFs] *)

Section MergeFacts.

Context {Page : Type}.
Variable load : Bytes -> Result (list Page).
Variable save : list Page -> Bytes.

Lemma getPageIndices_all (pdf : list Page) :
  copyPages pdf (getPageIndices pdf) = Ok pdf.
Proof.
  unfold getPageIndices.
  pose proof (copyPages_all_from [] pdf) as H. simpl in H.
  replace (map Z.of_nat (seq 0 (length pdf)))
    with (pagesFrom 0 (length pdf)); [exact H |].
  unfold pagesFrom. apply map_ext. intros j. lia.
Qed.

Lemma mergeLoop_readable (fs : gmap string Bytes) :
  forall (pdfPaths : list string) (pdfs : list (list Page))
         (mergedPdf : list Page),
    Forall2 (readableAs load fs) pdfPaths pdfs ->
    mergeLoop load fs pdfPaths mergedPdf = Ok (mergedPdf ++ concat pdfs).
Proof.
  induction pdfPaths as [| p rest IH]; intros pdfs acc Hall.
  - apply Forall2_nil_inv_l in Hall. subst. simpl. now rewrite app_nil_r.
  - apply Forall2_cons_inv_l in Hall.
    destruct Hall as (pdf & pdfs' & [Hv Hl] & Hrest & ->).
    simpl. rewrite Hv, Hl, getPageIndices_all. simpl.
    rewrite IH with (pdfs := pdfs') by assumption.
    now rewrite app_assoc.
Qed.

Lemma mergeLoop_missing (fs : gmap string Bytes) (missing : string) :
  verifyFile fs missing = false ->
  forall (before : list string) (pdfs : list (list Page))
         (after : list string) (mergedPdf : list Page),
    Forall2 (readableAs load fs) before pdfs ->
    mergeLoop load fs (before ++ missing :: after) mergedPdf
    = Throw ("File not found: " ++ missing)%string.
Proof.
  intros Hm. induction before as [| p rest IH]; intros pdfs after acc Hall.
  - simpl. now rewrite Hm.
  - apply Forall2_cons_inv_l in Hall.
    destruct Hall as (pdf & pdfs' & [Hv Hl] & Hrest & ->).
    simpl. rewrite Hv, Hl, getPageIndices_all. simpl.
    now apply IH with (pdfs := pdfs').
Qed.

End MergeFacts.

(** X5: [mergePDFs] of readable documents writes their pages one document
    after the other, in the order the paths were given, and returns the
    output handle once the written file verifies. *)
Theorem mergePDFs_concatenates_in_order {Page : Type}
    (load : Bytes -> Result (list Page)) (save : list Page -> Bytes)
    (fs : gmap string Bytes) (outputPath : string)
    (pdfPaths : list string) (pdfs : list (list Page)) :
  Forall2 (readableAs load fs) pdfPaths pdfs ->
  verifyFile (<[outputPath := save (concat pdfs)]> fs) outputPath = true ->
  mergePDFs load save fs outputPath pdfPaths =
  (Ok outputPath, <[outputPath := save (concat pdfs)]> fs).
Proof.
  intros Hall Hout. unfold mergePDFs, mergePDFs_try.
  rewrite (mergeLoop_readable load fs pdfPaths pdfs [] Hall). simpl.
  rewrite Hout. reflexivity.
Qed.

Lemma mergePDFs_concatenates_in_order_witness :
  mergePDFs Demo.load Demo.save Demo.shelf "/app/temp/out.pdf"
            ["/app/temp/b.pdf"; "/app/temp/a.pdf"] =
  (Ok "/app/temp/out.pdf",
   <["/app/temp/out.pdf" := Demo.bytes2 ++ Demo.bytes3]> Demo.shelf).
Proof.
  apply (mergePDFs_concatenates_in_order Demo.load Demo.save Demo.shelf
           "/app/temp/out.pdf" ["/app/temp/b.pdf"; "/app/temp/a.pdf"]
           [Demo.bytes2; Demo.bytes3]).
  - repeat constructor.
  - vm_compute. reflexivity.
Defined.

(** X6: [mergePDFs] stops at the first path that does not verify (missing
    or empty file) with "File not found: <path>", whatever follows it, and
    leaves no output behind. *)
Theorem mergePDFs_reports_first_missing {Page : Type}
    (load : Bytes -> Result (list Page)) (save : list Page -> Bytes)
    (fs : gmap string Bytes) (outputPath missing : string)
    (before after : list string) (pdfs : list (list Page)) :
  Forall2 (readableAs load fs) before pdfs ->
  verifyFile fs missing = false ->
  mergePDFs load save fs outputPath (before ++ missing :: after) =
  (Throw ("File not found: " ++ missing)%string, cleanupFile fs outputPath).
Proof.
  intros Hall Hm. unfold mergePDFs, mergePDFs_try.
  rewrite (mergeLoop_missing load fs missing Hm before pdfs after [] Hall).
  reflexivity.
Qed.

Lemma mergePDFs_reports_first_missing_witness :
  mergePDFs Demo.load Demo.save Demo.shelf "/app/temp/out.pdf"
            (["/app/temp/a.pdf"] ++ "/app/temp/gone.pdf"
               :: ["/app/temp/b.pdf"]) =
  (Throw "File not found: /app/temp/gone.pdf",
   cleanupFile Demo.shelf "/app/temp/out.pdf").
Proof.
  apply (mergePDFs_reports_first_missing Demo.load Demo.save Demo.shelf
           "/app/temp/out.pdf" "/app/temp/gone.pdf" ["/app/temp/a.pdf"]
           ["/app/temp/b.pdf"] [Demo.bytes3]).
  - repeat constructor.
  - vm_compute. reflexivity.
Defined.

(** ** [comparePDFs]: what "identical" means *)

Lemma everyEqual_eq (a : Bytes) :
  forall b : Bytes,
    everyEqual a b = true /\ length a = length b <-> a = b.
Proof.
  induction a as [| x a IH]; intros [| y b]; simpl.
  - tauto.
  - split; [intros [_ H]; discriminate | discriminate].
  - split; [intros [H _]; discriminate | discriminate].
  - rewrite andb_true_iff. split.
    + intros [[Hxy Hab] Hlen]. apply Byte.byte_dec_bl in Hxy. subst y.
      f_equal. apply IH. split; [assumption | lia].
    + intros H. injection H as -> ->.
      split; [| reflexivity]. split; [now apply Byte.byte_dec_lb |].
      now apply IH.
Qed.

(** X7: for two readable PDFs [comparePDFs] reports [identical] exactly
    when the two files hold the same bytes; equal page counts and equal
    sizes alone are not enough. *)
Theorem comparePDFs_identical_iff_same_bytes {Page : Type}
    (load : Bytes -> Result (list Page))
    (fs : gmap string Bytes) (pdfPath1 pdfPath2 : string)
    (pdf1 pdf2 : list Page) :
  readableAs load fs pdfPath1 pdf1 ->
  readableAs load fs pdfPath2 pdf2 ->
  exists d,
    comparePDFs load fs pdfPath1 pdfPath2 = Ok d /\
    (identical d = true <->
     default [] (fs !! pdfPath1) = default [] (fs !! pdfPath2)).
Proof.
  intros [Hv1 Hl1] [Hv2 Hl2]. unfold comparePDFs.
  rewrite Hv1, Hv2, Hl1, Hl2. cbn [negb].
  eexists. split; [reflexivity |]. cbn [identical].
  set (b1 := default [] (fs !! pdfPath1)) in *.
  set (b2 := default [] (fs !! pdfPath2)) in *.
  split.
  - destruct (Z.of_nat (length pdf1) =? _); [| discriminate].
    destruct (Z.eqb_spec (Z.of_nat (length b1)) (Z.of_nat (length b2)))
      as [Hlen | Hlen]; simpl; [| discriminate].
    intros He. apply everyEqual_eq. split; [assumption | lia].
  - intros Hb. assert (pdf1 = pdf2) by congruence. subst pdf2.
    rewrite <- Hb, !Z.eqb_refl. simpl.
    now apply (proj2 (everyEqual_eq b1 b1)).
Qed.

Lemma comparePDFs_identical_iff_same_bytes_witness :
  exists d,
    comparePDFs Demo.load Demo.shelf "/app/temp/a.pdf" "/app/temp/b.pdf"
      = Ok d /\
    (identical d = true <->
     default [] (Demo.shelf !! "/app/temp/a.pdf")
     = default [] (Demo.shelf !! "/app/temp/b.pdf")).
Proof.
  apply (comparePDFs_identical_iff_same_bytes Demo.load Demo.shelf
           "/app/temp/a.pdf" "/app/temp/b.pdf" Demo.bytes3 Demo.bytes2);
    split; vm_compute; reflexivity.
Defined.

(** ** [rotatePDF] *)

Lemma rotatePart_in_range (n : Z) (part : string) (j : Z) :
  In j (rotatePart n [] part) -> 0 <= j < n.
Proof.
  intros Hj. apply rotatePart_vs_parsePart in Hj.
  destruct Hj as (_ & H0 & Hp). apply parsePart_bounds in Hp. lia.
Qed.

Lemma pagesToRotate_in_range (pageRange : string) (n : Z) (j : Z) :
  In j (pagesToRotate pageRange n) -> 0 <= j < n.
Proof.
  unfold pagesToRotate. destruct (String.eqb pageRange "all").
  - rewrite in_map_iff. intros (k & <- & Hk). apply in_seq in Hk. lia.
  - unfold rotateParse. rewrite rotateParts_In.
    intros [[] | (part & _ & Hj)]. now apply rotatePart_in_range in Hj.
Qed.

Lemma count_occ_all_pages (n j : nat) :
  (j < n)%nat ->
  count_occ Z.eq_dec (map Z.of_nat (seq 0 n)) (Z.of_nat j) = 1%nat.
Proof.
  intros Hj.
  assert (Hnd : List.NoDup (map Z.of_nat (seq 0 n))).
  { apply Finite.Injective_map_NoDup; [| apply seq_NoDup].
    intros x y. lia. }
  apply (proj1 (List.NoDup_count_occ' Z.eq_dec _) Hnd).
  apply in_map_iff. exists j. split; [reflexivity |]. apply in_seq. lia.
Qed.

Section RotateFacts.

Context {Page : Type}.
Variable getRotation : Page -> Z.
Variable setRotation : Z -> Page -> Result Page.
Hypothesis rotation_set :
  forall (angle : Z) (page : Page),
    exists page', setRotation angle page = Ok page' /\
                  getRotation page' = angle.

Lemma rotatePages_effect (angle : Z) :
  forall (indices : list Z) (pdf : list Page),
    (forall i, In i indices -> 0 <= i < Z.of_nat (length pdf)) ->
    exists rotated,
      rotatePages getRotation setRotation angle pdf indices = Ok rotated /\
      length rotated = length pdf /\
      forall (j : nat) (page : Page),
        pdf !! j = Some page ->
        exists page',
          rotated !! j = Some page' /\
          (~ In (Z.of_nat j) indices -> page' = page) /\
          getRotation page' =
          getRotation page
          + angle * Z.of_nat (count_occ Z.eq_dec indices (Z.of_nat j)).
Proof.
  induction indices as [| i rest IH]; intros pdf Hall.
  - exists pdf. repeat split. intros j page Hj. exists page.
    repeat split; [assumption |]. simpl. lia.
  - assert (Hi : 0 <= i < Z.of_nat (length pdf)) by (apply Hall; now left).
    destruct (lookup_lt_is_Some_2 pdf (Z.to_nat i)) as [pg Hpg]; [lia |].
    destruct (rotation_set (getRotation pg + angle) pg) as (pg' & Hset & Hget').
    set (pdf1 := <[Z.to_nat i := pg']> pdf).
    destruct (IH pdf1) as (rotated & Hr & Hlen & Hget).
    { intros k Hk. unfold pdf1. rewrite length_insert. apply Hall. now right. }
    exists rotated. simpl.
    destruct (Z.leb_spec 0 i) as [_ | Hneg]; [| lia].
    rewrite Hpg, Hset. fold pdf1. split; [exact Hr |].
    split; [unfold pdf1 in Hlen; now rewrite length_insert in Hlen |].
    intros j page Hj.
    destruct (decide (j = Z.to_nat i)) as [-> | Hne].
    + assert (Hpage : page = pg) by congruence. subst page.
      destruct (Hget (Z.to_nat i) pg') as (page' & Hp' & _ & Hrot).
      { unfold pdf1. apply list_lookup_insert_eq.
        apply lookup_lt_is_Some. eauto. }
      exists page'. split; [assumption |]. split.
      * intros Hnin. exfalso. apply Hnin. left. lia.
      * rewrite Hrot, Hget'.
        destruct (Z.eq_dec i (Z.of_nat (Z.to_nat i))) as [_ | Hbad]; [| lia].
        lia.
    + destruct (Hget j page) as (page' & Hp' & Hsame & Hrot).
      { unfold pdf1. now rewrite list_lookup_insert_ne by congruence. }
      exists page'. split; [assumption |]. split.
      * intros Hnin. apply Hsame. intros Hin. apply Hnin. now right.
      * rewrite Hrot.
        destruct (Z.eq_dec i (Z.of_nat j)) as [Hbad | _]; [lia | reflexivity].
Qed.

End RotateFacts.





(** ** [cleanupFiles] *)

Lemma cleanupFiles_lookup (p : string) :
  forall (filePaths : list string) (fs : gmap string Bytes),
    cleanupFiles fs filePaths !! p =
    if existsb (String.eqb p) filePaths && JS.truthy p
    then None else fs !! p.
Proof.
  unfold cleanupFiles.
  induction filePaths as [| q rest IH]; intros fs; simpl; [reflexivity |].
  rewrite IH, cleanupFile_lookup.
  destruct (String.eqb_spec p q) as [-> | Hne].
  - rewrite bool_decide_eq_true_2 by reflexivity. simpl.
    destruct (JS.truthy q); [| now rewrite !andb_false_r].
    now destruct (existsb _ rest).
  - rewrite bool_decide_eq_false_2 by assumption. reflexivity.
Qed.

(** X10: [cleanupFiles] removes every listed (non-empty) path from the
    staging area, whether or not it existed, and changes no path that is
    not listed. *)
Theorem cleanupFiles_removes_exactly_listed (fs : gmap string Bytes)
    (filePaths : list string) (p : string) :
  (In p filePaths -> JS.truthy p = true ->
   cleanupFiles fs filePaths !! p = None) /\
  (~ In p filePaths -> cleanupFiles fs filePaths !! p = fs !! p).
Proof.
  rewrite cleanupFiles_lookup. split.
  - intros Hin Ht.
    assert (He : existsb (String.eqb p) filePaths = true).
    { apply existsb_exists. exists p. split; [assumption |].
      apply String.eqb_refl. }
    now rewrite He, Ht.
  - intros Hnin.
    assert (He : existsb (String.eqb p) filePaths = false).
    { destruct (existsb _ _) eqn:E; [| reflexivity].
      apply existsb_exists in E. destruct E as (q & Hq & Heq).
      apply String.eqb_eq in Heq. subst q. contradiction. }
    now rewrite He.
Qed.

(** ** The session store: isolation, order of files, expiry *)

Lemma touch_touch (now : Z) (s : Session) : touch now (touch now s) = touch now s.
Proof. reflexivity. Qed.

Lemma getSession_store (now : Z) (uid : string)
    (store : gmap string Session) :
  (getSession now uid store).2 =
  <[uid := (getSession now uid store).1]> store.
Proof. reflexivity. Qed.

(** X11: every operation of the session manager is keyed by its user: it
    leaves the session record of every other user exactly as it was. *)
Theorem session_operations_are_per_user (now : Z) (uid other : string)
    (u : Updates) (fileInfo : FileInfo) (store : gmap string Session) :
  uid <> other ->
  (getSession now uid store).2 !! other = store !! other /\
  updateSession now uid u store !! other = store !! other /\
  addFileToSession now uid fileInfo store !! other = store !! other /\
  (getSessionFiles now uid store).2 !! other = store !! other /\
  clearSessionFiles now uid store !! other = store !! other /\
  clearSession uid store !! other = store !! other.
Proof.
  intros Hne.
  unfold updateSession, addFileToSession, getSessionFiles, clearSessionFiles,
    clearSession, getSession. simpl.
  rewrite !lookup_insert_ne by assumption.
  rewrite lookup_delete_ne by assumption. repeat split.
Qed.

Lemma session_operations_are_per_user_witness :
  (getSession 5 "ann" {[ "bob" := newSession "bob" 1 ]}).2 !! "bob"
  = ({[ "bob" := newSession "bob" 1 ]} : gmap string Session) !! "bob".
Proof.
  refine (proj1 (session_operations_are_per_user 5 "ann" "bob" toIdle
                   {| file_path := "p"; file_type := "pdf";
                      file_mimetype := "application/pdf"; file_size := 1;
                      file_filename := "p" |}
                   {[ "bob" := newSession "bob" 1 ]} _)).
  discriminate.
Defined.

(** X12: files are kept in upload order: after two [addFileToSession]
    calls [getSessionFiles] returns the files the user had, followed by the
    first and then the second new file, and the step, operation and
    metadata of the session are those it had (defaults for a new user). *)
Theorem addFileToSession_appends_in_order (now : Z) (uid : string)
    (f1 f2 : FileInfo) (store : gmap string Session) :
  let before := match store !! uid with
                | Some s => s
                | None => newSession uid now
                end in
  let after :=
    addFileToSession now uid f2 (addFileToSession now uid f1 store) in
  (getSessionFiles now uid after).1 = uploadedFiles before ++ [f1; f2] /\
  exists s, after !! uid = Some s /\
            currentStep s = currentStep before /\
            selectedOperation s = selectedOperation before /\
            metadata s = metadata before /\
            lastActivity s = now.
Proof.
  intros before after. subst after.
  unfold getSessionFiles, addFileToSession, getSession. simpl.
  rewrite !lookup_insert_eq. simpl. rewrite <- app_assoc. simpl.
  split; [reflexivity |].
  eexists. split; [reflexivity |]. simpl. repeat split.
Qed.

Lemma expire_fold_only_removes (now : Z) (uid : string) (s : Session) :
  forall (entries : list (string * Session)) (store : gmap string Session),
    fold_left (expireEntry now) entries store !! uid = Some s ->
    store !! uid = Some s.
Proof.
  induction entries as [| [k v] entries IH]; intros store H; [assumption |].
  simpl in H. apply IH in H. unfold expireEntry in H. simpl in H.
  destruct (SESSION_TIMEOUT <? now - lastActivity v); [| assumption].
  destruct (decide (k = uid)) as [-> | Hne].
  - now rewrite lookup_delete_eq in H.
  - now rewrite lookup_delete_ne in H.
Qed.

(** X13: [cleanupExpiredSessions] only evicts: a session is in the swept
    store exactly when it was in the store, unchanged, and its
    [lastActivity] is at most 30 minutes old. *)
Theorem sweep_keeps_exactly_the_active (now : Z)
    (store : gmap string Session) (uid : string) (s : Session) :
  cleanupExpiredSessions now store !! uid = Some s <->
  store !! uid = Some s /\ now - lastActivity s <= SESSION_TIMEOUT.
Proof.
  split.
  - intros H. pose proof (expire_fold_only_removes now uid s _ _ H) as Hs.
    split; [assumption |].
    destruct (Z.le_gt_cases (now - lastActivity s) SESSION_TIMEOUT)
      as [Hle | Hgt]; [assumption | exfalso].
    unfold cleanupExpiredSessions in H.
    rewrite (expire_fold_evicts now uid s) in H; [discriminate | lia |].
    now apply elem_of_map_to_list.
  - intros [Hs Hle]. apply cleanupExpiredSessions_retains; [assumption | lia].
Qed.

(** X14: a session that was read at time [now] survives every expiry
    sweep run up to 30 minutes later, with the content [getSession]
    returned. *)
Theorem touched_session_survives_sweep (now later : Z) (uid : string)
    (store : gmap string Session) :
  later - now <= SESSION_TIMEOUT ->
  cleanupExpiredSessions later (getSession now uid store).2 !! uid
  = Some (getSession now uid store).1.
Proof.
  intros Hle. apply cleanupExpiredSessions_retains.
  - rewrite getSession_store. apply lookup_insert_eq.
  - unfold getSession. simpl. lia.
Qed.

Lemma touched_session_survives_sweep_witness :
  cleanupExpiredSessions 1800000 (getSession 0 "ann" ∅).2 !! "ann"
  = Some (getSession 0 "ann" ∅).1.
Proof.
  apply (touched_session_survives_sweep 0 1800000 "ann" ∅).
  vm_compute. discriminate.
Defined.

(** ** What handling a message can do to the session table *)

Section HandlerInvariant.

Context {Page : Type}.
Variable now : Z.
Variable extname : string -> string.
Variable getTempFilePath : string -> string.
Variable load : Bytes -> Result (list Page).
Variable save : list Page -> Bytes.
Variable engine :
  EngineCall -> gmap string Bytes -> Result string * gmap string Bytes.
Variable pdfToImage :
  string -> option Z -> gmap string Bytes ->
  Result (list string) * gmap string Bytes.
Variable sendMedia : string -> Result unit.
Variable uid : string.

(** A property of the session table that the session manager's operations
    for [uid] maintain. *)
Variable J : gmap string Session -> Prop.
Hypothesis J_getSession :
  forall store, J store -> J (getSession now uid store).2.
Hypothesis J_updateSession :
  forall u store, J store -> J (updateSession now uid u store).
Hypothesis J_addFile :
  forall f store, J store -> J (addFileToSession now uid f store).
Hypothesis J_clearFiles :
  forall store, J store -> J (clearSessionFiles now uid store).
Hypothesis J_setMetadata :
  forall key value w, J (sessions w) ->
    J (sessions (setMetadata uid key value w).2).

Local Notation "'Inv'" := (fun w : World => J (sessions w)).

Lemma inv_bind {A B} (m : M A) (k : A -> M B) :
  steady Inv m -> (forall a, steady Inv (k a)) -> steady Inv (bind m k).
Proof. intros Hm Hk. eapply triple_bind; [exact Hm | exact Hk]. Qed.

Lemma inv_tryCatch {A} (m : M A) (h : string -> M A) :
  steady Inv m -> (forall e, steady Inv (h e)) -> steady Inv (tryCatch m h).
Proof. intros Hm Hh. eapply triple_tryCatch; [exact Hm | exact Hh]. Qed.

Lemma inv_ret {A} (a : A) : steady Inv (ret a).
Proof. intros w Hw. exact Hw. Qed.

Lemma inv_throw {A} (msg : string) : steady Inv (throw msg : M A).
Proof. intros w Hw. exact Hw. Qed.

Lemma inv_reply (r : Reply) : steady Inv (reply r).
Proof. intros w Hw. exact Hw. Qed.

Lemma inv_logCall (c : EngineCall) : steady Inv (logCall c).
Proof. intros w Hw. exact Hw. Qed.

Lemma inv_verify (p : string) : steady Inv (verify p).
Proof. intros w Hw. exact Hw. Qed.

Lemma inv_withStaging (f : gmap string Bytes -> gmap string Bytes) :
  steady Inv (withStaging f).
Proof. intros w Hw. exact Hw. Qed.

Lemma inv_onStaging {A}
    (f : gmap string Bytes -> Result A * gmap string Bytes) :
  steady Inv (onStaging f).
Proof.
  intros w Hw. unfold onStaging.
  destruct (f (staging w)) as [[a | e] fs']; exact Hw.
Qed.

Lemma inv_callEngine (c : EngineCall) : steady Inv (callEngine engine c).
Proof.
  unfold callEngine. apply inv_bind; [apply inv_logCall |].
  intros ?. apply inv_onStaging.
Qed.

Lemma inv_getSession : steady Inv (getSessionM now uid).
Proof.
  intros w Hw. unfold getSessionM, readSessions.
  pose proof (J_getSession _ Hw) as H.
  destruct (getSession now uid (sessions w)) as [s store]. exact H.
Qed.

Lemma inv_getSessionFiles : steady Inv (getSessionFilesM now uid).
Proof.
  intros w Hw. unfold getSessionFilesM, readSessions, getSessionFiles.
  pose proof (J_getSession _ Hw) as H.
  destruct (getSession now uid (sessions w)) as [s store]. exact H.
Qed.

Lemma inv_updateSession (u : Updates) : steady Inv (updateSessionM now uid u).
Proof. intros w Hw. now apply J_updateSession. Qed.

Lemma inv_clearFiles : steady Inv (clearSessionFilesM now uid).
Proof. intros w Hw. now apply J_clearFiles. Qed.

Lemma inv_addFile (f : FileInfo) :
  steady Inv (withSessions (addFileToSession now uid f)).
Proof. intros w Hw. now apply J_addFile. Qed.

Lemma inv_setMetadata (key value : string) :
  steady Inv (setMetadata uid key value).
Proof.
  intros w Hw. pose proof (J_setMetadata key value w Hw) as H.
  destruct (setMetadata uid key value w) as [[[] | e] w'] eqn:E;
    [exact H | discriminate E].
Qed.

Lemma inv_validateFileType (files : list FileInfo)
    (requiredType operationName : string) :
  steady Inv (validateFileType files requiredType operationName).
Proof.
  unfold validateFileType. destruct files as [| f rest].
  - apply inv_throw.
  - destruct (negb _); [apply inv_throw | apply inv_ret].
Qed.

Lemma inv_sendFile (filePath : string) :
  steady Inv (sendFile sendMedia filePath).
Proof.
  unfold sendFile. apply inv_tryCatch.
  - apply inv_bind.
    + intros w Hw. destruct (sendMedia filePath); exact Hw.
    + intros ?. apply inv_bind; [apply inv_reply |].
      intros ?. apply inv_withStaging.
  - intros e. apply inv_throw.
Qed.

Lemma inv_sendAll (outputPaths : list string) :
  steady Inv (sendAll sendMedia outputPaths).
Proof.
  induction outputPaths as [| p rest IH]; simpl; [apply inv_ret |].
  apply inv_bind; [apply inv_verify |].
  intros present. apply inv_bind; [| intros ?; exact IH].
  destruct present; [apply inv_sendFile | apply inv_ret].
Qed.

Lemma inv_deliver (outputPath : option string) (outputPaths : list string) :
  steady Inv (deliver sendMedia outputPath outputPaths).
Proof.
  unfold deliver. destruct outputPaths as [| p rest].
  - destruct outputPath as [p |]; [| apply inv_throw].
    apply inv_bind; [apply inv_verify |].
    intros present.
    destruct (JS.truthy p && present);
      [apply inv_sendFile | apply inv_throw].
  - apply inv_sendAll.
Qed.

Ltac inv_step :=
  first
    [ apply inv_ret | apply inv_throw | apply inv_reply | apply inv_logCall
    | apply inv_verify | apply inv_withStaging | apply inv_onStaging
    | apply inv_callEngine | apply inv_getSession | apply inv_getSessionFiles
    | apply inv_updateSession | apply inv_clearFiles | apply inv_addFile
    | apply inv_setMetadata | apply inv_validateFileType
    | apply inv_deliver
    | apply inv_bind; [| intros ? ]
    | apply inv_tryCatch; [| intros ? ]
    | match goal with
      | |- steady _ (if ?b then _ else _) => destruct b
      | |- steady _ (match ?x with _ => _ end) => destruct x
      end ].

Lemma inv_dispatch (operation : option string) (files : list FileInfo)
    (md : gmap string string) :
  steady Inv (dispatch now getTempFilePath load save engine pdfToImage
                       uid operation files md).
Proof.
  unfold dispatch, simplePdfCase, pageRangeCase, officeCase.
  repeat inv_step.
Qed.

Lemma inv_processOperation :
  steady Inv (processOperation now getTempFilePath load save engine
                pdfToImage sendMedia uid).
Proof.
  unfold processOperation, processAttempt, processFailed.
  repeat first [ apply inv_dispatch | inv_step ].
Qed.

Lemma inv_checkOperationRequirements :
  steady Inv (checkOperationRequirements now getTempFilePath load save
                engine pdfToImage sendMedia uid).
Proof.
  unfold checkOperationRequirements.
  repeat first [ apply inv_processOperation | inv_step ].
Qed.

Lemma inv_handleStepOperation (message : Message) :
  steady Inv (handleStepOperation now getTempFilePath load save engine
                pdfToImage sendMedia message uid).
Proof.
  unfold handleStepOperation.
  repeat first [ apply inv_processOperation | inv_step ].
Qed.

Lemma inv_handleOperationSelection (message : Message) :
  steady Inv (handleOperationSelection now message uid).
Proof. unfold handleOperationSelection. repeat inv_step. Qed.

Lemma inv_handleFileUpload (message : Message) :
  steady Inv (handleFileUpload now extname getTempFilePath load save engine
                pdfToImage sendMedia message uid).
Proof.
  unfold handleFileUpload.
  repeat first [ apply inv_checkOperationRequirements | inv_step ].
Qed.

Lemma inv_handleMessage (message : Message) :
  msg_from message = uid ->
  steady Inv (handleMessage now extname getTempFilePath load save engine
                pdfToImage sendMedia message).
Proof.
  intros Hfrom. unfold handleMessage. rewrite Hfrom.
  repeat first [ apply inv_handleFileUpload
               | apply inv_handleOperationSelection
               | apply inv_handleStepOperation
               | inv_step ].
Qed.

End HandlerInvariant.

(** A read followed by a [try] whose [catch] block cannot throw returns. *)
Lemma guarded_returns {A : Type} (m0 : M A) (m : A -> M unit)
    (h : string -> M unit) (w : World) :
  (forall w', exists a w'', m0 w' = (Ok a, w'')) ->
  (forall e w', (h e w').1 = Ok tt) ->
  (bind m0 (fun a => tryCatch (m a) h) w).1 = Ok tt.
Proof.
  intros H0 Hh. unfold bind, tryCatch.
  destruct (H0 w) as (a & w1 & ->).
  destruct (m a w1) as [[[] | e] w2]; [reflexivity | apply Hh].
Qed.

Section TouchedOnlyFacts.

Variable now : Z.
Variable uid : string.
Variable store0 : gmap string Session.

Local Notation "'T'" := (TouchedOnly now uid store0).

Lemma touched_getSession store : T store -> T (getSession now uid store).2.
Proof.
  intros (s & -> & Hs). unfold getSession. simpl.
  rewrite lookup_insert_eq, insert_insert_eq. eexists. split; reflexivity.
Qed.

Lemma touched_first store : store = store0 -> T (getSession now uid store).2.
Proof.
  intros ->. unfold getSession. simpl. eexists. split; reflexivity.
Qed.

Lemma touched_updateSession u store :
  T store -> T (updateSession now uid u store).
Proof.
  intros (s & -> & Hs). unfold updateSession, getSession. simpl.
  rewrite lookup_insert_eq, !insert_insert_eq. eexists. split; reflexivity.
Qed.

Lemma touched_addFile f store :
  T store -> T (addFileToSession now uid f store).
Proof.
  intros (s & -> & Hs). unfold addFileToSession, getSession. simpl.
  rewrite lookup_insert_eq, !insert_insert_eq. eexists. split; reflexivity.
Qed.

Lemma touched_clearFiles store :
  T store -> T (clearSessionFiles now uid store).
Proof.
  intros (s & -> & Hs). unfold clearSessionFiles, getSession. simpl.
  rewrite lookup_insert_eq, !insert_insert_eq. eexists. split; reflexivity.
Qed.

Lemma touched_setMetadata key value w :
  T (sessions w) -> T (sessions (setMetadata uid key value w).2).
Proof.
  intros (s & Hw & Hs). unfold setMetadata, withSessions. simpl.
  rewrite Hw, lookup_insert_eq, insert_insert_eq.
  eexists. split; [reflexivity | exact Hs].
Qed.

End TouchedOnlyFacts.

Section HandlerFrame.

Context {Page : Type}.
Variable now : Z.
Variable extname : string -> string.
Variable getTempFilePath : string -> string.
Variable load : Bytes -> Result (list Page).
Variable save : list Page -> Bytes.
Variable engine :
  EngineCall -> gmap string Bytes -> Result string * gmap string Bytes.
Variable pdfToImage :
  string -> option Z -> gmap string Bytes ->
  Result (list string) * gmap string Bytes.
Variable sendMedia : string -> Result unit.

Local Notation "'handle'" :=
  (handleMessage now extname getTempFilePath load save engine pdfToImage
                 sendMedia).

(** [handleMessage] begins by reading the sender's session, and reading
    it twice is reading it once. *)
Lemma handleMessage_after_getSession (message : Message) (w : World) :
  handle message w =
  handle message (getSessionM now (msg_from message) w).2.
Proof.
  unfold handleMessage, bind, getSessionM, readSessions, getSession. simpl.
  rewrite lookup_insert_eq, insert_insert_eq. reflexivity.
Qed.

Lemma handleMessage_returns (message : Message) (w : World) :
  (handle message w).1 = Ok tt.
Proof.
  unfold handleMessage. apply guarded_returns.
  - intros w'. unfold getSessionM, readSessions.
    destruct (getSession _ _ _). eauto.
  - intros e w'. reflexivity.
Qed.

Lemma handleMessage_touches_only_sender (message : Message) (w : World) :
  TouchedOnly now (msg_from message) (sessions w)
              (sessions (handle message w).2).
Proof.
  rewrite handleMessage_after_getSession.
  pose proof (inv_handleMessage now extname getTempFilePath load save engine
                pdfToImage sendMedia (msg_from message)
                (TouchedOnly now (msg_from message) (sessions w))
                (touched_getSession now _ _)
                (touched_updateSession now _ _)
                (touched_addFile now _ _)
                (touched_clearFiles now _ _)
                (touched_setMetadata now _ _)
                message eq_refl
                (getSessionM now (msg_from message) w).2) as H.
  destruct (handle message (getSessionM now (msg_from message) w).2)
    as [[[] | e] w1]; apply H; now apply touched_first.
Qed.

End HandlerFrame.


(** ** Control words *)

(** X16: the words menu, start, help and cancel (in any letter case, with
    surrounding blanks) abandon the current operation: the sender's step
    becomes idle and the operation is deselected, while the uploaded files
    and the metadata stay; nothing is staged, deleted or run.  This holds
    even when the message carries an attachment, which is then ignored. *)
Theorem abandoning_keeps_files {Page : Type}
    (now : Z) (extname : string -> string)
    (getTempFilePath : string -> string)
    (load : Bytes -> Result (list Page)) (save : list Page -> Bytes)
    (engine : EngineCall -> gmap string Bytes ->
              Result string * gmap string Bytes)
    (pdfToImage : string -> option Z -> gmap string Bytes ->
                  Result (list string) * gmap string Bytes)
    (sendMedia : string -> Result unit)
    (message : Message) (w : World) :
  strIn (JS.toLowerCase (JS.trim (msg_body message)))
        ["menu"; "start"; "help"; "cancel"] = true ->
  let before := sessionOf now (msg_from message) w in
  let w' := (handleMessage now extname getTempFilePath load save engine
               pdfToImage sendMedia message w).2 in
  sessions w' !! msg_from message =
    Some {| userId := userId before;
            uploadedFiles := uploadedFiles before;
            currentStep := "idle";
            selectedOperation := None;
            metadata := metadata before;
            lastActivity := now |} /\
  staging w' = staging w /\
  engineLog w' = engineLog w /\
  outbox w' =
    outbox w ++
    [if String.eqb (JS.toLowerCase (JS.trim (msg_body message))) "cancel"
     then RCancelled else RMainMenu].
Proof.
  intros Hcmd before w'. subst before w'.
  unfold handleMessage, sessionOf.
  set (body := JS.toLowerCase (JS.trim (msg_body message))) in *.
  assert (Hcases : body = "menu" \/ body = "start" \/ body = "help"
                   \/ body = "cancel").
  { unfold strIn in Hcmd. simpl in Hcmd.
    repeat (apply orb_true_iff in Hcmd; destruct Hcmd as [Hcmd | Hcmd]);
      try discriminate; apply String.eqb_eq in Hcmd; tauto. }
  unfold bind, tryCatch, getSessionM, readSessions, updateSessionM,
    withSessions, reply, updateSession, getSession.
  destruct Hcases as [-> | [-> | [-> | ->]]]; simpl;
    rewrite ?lookup_insert_eq; simpl; rewrite ?lookup_insert_eq;
    repeat split.
Qed.

Lemma abandoning_keeps_files_witness :
  sessions (Demo.handle 5000 "5000_e" Demo.cancelWithAttachment
              Demo.afterFirstPdf).2 !! "user" =
    Some {| userId := "user";
            uploadedFiles := uploadedFiles Demo.sessionAfterFirstPdf;
            currentStep := "idle";
            selectedOperation := None;
            metadata := ∅;
            lastActivity := 5000 |}.
Proof.
  refine (proj1 (abandoning_keeps_files 5000 posix_extname
                   (Demo.tempPath "5000_e") Demo.load Demo.save Demo.engine
                   Demo.pdfToImage Demo.sendMedia
                   Demo.cancelWithAttachment Demo.afterFirstPdf _)).
  vm_compute. reflexivity.
Defined.

(** X17: the word clear empties the sender's list of uploaded files and
    abandons the operation, but keeps the metadata already answered, and it
    deletes nothing from the staging area: the stored files stay until the
    periodic sweep. *)
Theorem clear_empties_files_only {Page : Type}
    (now : Z) (extname : string -> string)
    (getTempFilePath : string -> string)
    (load : Bytes -> Result (list Page)) (save : list Page -> Bytes)
    (engine : EngineCall -> gmap string Bytes ->
              Result string * gmap string Bytes)
    (pdfToImage : string -> option Z -> gmap string Bytes ->
                  Result (list string) * gmap string Bytes)
    (sendMedia : string -> Result unit)
    (message : Message) (w : World) :
  JS.toLowerCase (JS.trim (msg_body message)) = "clear" ->
  let before := sessionOf now (msg_from message) w in
  let w' := (handleMessage now extname getTempFilePath load save engine
               pdfToImage sendMedia message w).2 in
  sessions w' !! msg_from message =
    Some {| userId := userId before;
            uploadedFiles := [];
            currentStep := "idle";
            selectedOperation := None;
            metadata := metadata before;
            lastActivity := now |} /\
  staging w' = staging w /\
  engineLog w' = engineLog w /\
  outbox w' = outbox w ++ [RCleared].
Proof.
  intros Hcmd before w'. subst before w'.
  unfold handleMessage, sessionOf. rewrite Hcmd.
  unfold bind, tryCatch, getSessionM, readSessions, updateSessionM,
    clearSessionFilesM, withSessions, reply, updateSession,
    clearSessionFiles, getSession.
  simpl. rewrite ?lookup_insert_eq. simpl. rewrite ?lookup_insert_eq.
  repeat split.
Qed.

Lemma clear_empties_files_only_witness :
  staging (Demo.handle 5000 "5000_e" (Demo.text "user" "CLEAR")
             Demo.afterFirstPdf).2 = staging Demo.afterFirstPdf.
Proof.
  refine (proj1 (proj2 (clear_empties_files_only 5000 posix_extname
                   (Demo.tempPath "5000_e") Demo.load Demo.save Demo.engine
                   Demo.pdfToImage Demo.sendMedia
                   (Demo.text "user" "CLEAR") Demo.afterFirstPdf _))).
  vm_compute. reflexivity.
Defined.

(** ** Choosing an operation *)

Lemma strIn_false_cons (x y : string) (l : list string) :
  strIn x (y :: l) = false -> String.eqb x y = false /\ strIn x l = false.
Proof. unfold strIn. simpl. apply orb_false_iff. Qed.

Ltac not_a_command H :=
  unfold isCommand in H;
  repeat (apply strIn_false_cons in H; destruct H as [?Hneq H]).



(** ** The merge workflow *)

(** Run the session-manager calls that are in sight, for a sender whose
    record is known. *)
Ltac run_session Hs :=
  unfold callEngine;
  unfold bind, tryCatch, logCall, onStaging; simpl;
  unfold ret, throw, getSessionM, getSessionFilesM,
    readSessions, updateSessionM, clearSessionFilesM, setMetadata,
    withSessions, withStaging, verify,
    reply, updateSession, clearSessionFiles, getSessionFiles, getSession;
  repeat (progress (rewrite ?lookup_insert_eq, ?Hs; simpl)).

(** X19: while merge is selected, the word done with fewer than two
    uploaded files is answered with "Please send at least 2 PDF files to
    merge." and nothing else happens: the session keeps its step, operation,
    files and metadata, and no service runs. *)
Theorem merge_done_needs_two_files {Page : Type}
    (now : Z) (extname : string -> string)
    (getTempFilePath : string -> string)
    (load : Bytes -> Result (list Page)) (save : list Page -> Bytes)
    (engine : EngineCall -> gmap string Bytes ->
              Result string * gmap string Bytes)
    (pdfToImage : string -> option Z -> gmap string Bytes ->
                  Result (list string) * gmap string Bytes)
    (sendMedia : string -> Result unit)
    (message : Message) (w : World) (s : Session) :
  sessions w !! msg_from message = Some s ->
  selectedOperation s = Some "merge_pdf" ->
  String.eqb (currentStep s) "idle" = false ->
  (length (uploadedFiles s) < 2)%nat ->
  JS.trim (msg_body message) = "done" ->
  msg_hasMedia message = false ->
  let w' := (handleMessage now extname getTempFilePath load save engine
               pdfToImage sendMedia message w).2 in
  sessions w' !! msg_from message = Some (touch now s) /\
  staging w' = staging w /\
  engineLog w' = engineLog w /\
  outbox w' = outbox w ++ [RMergeNeedTwo].
Proof.
  intros Hs Hop Hstep Hlen Hbody Hmedia w'. subst w'.
  apply Nat.ltb_lt in Hlen.
  unfold handleMessage. rewrite Hbody, Hmedia. run_session Hs.
  rewrite Hstep. unfold handleStepOperation. rewrite Hbody. run_session Hs.
  rewrite Hop, Hlen. run_session Hs. repeat split.
Qed.

Lemma merge_done_needs_two_files_witness :
  outbox (Demo.handle 3000 "3000_c" (Demo.text "user" "done")
            Demo.mergeWithOneFile).2
  = outbox Demo.mergeWithOneFile ++ [RMergeNeedTwo].
Proof.
  refine (proj2 (proj2 (proj2 (merge_done_needs_two_files 3000 posix_extname
            (Demo.tempPath "3000_c") Demo.load Demo.save Demo.engine
            Demo.pdfToImage Demo.sendMedia (Demo.text "user" "done")
            Demo.mergeWithOneFile Demo.mergeSession _ _ _ _ _ _))));
    vm_compute; reflexivity.
Defined.

(** X20: while merge waits for files, any other text that is not a
    control word is treated as an answer: it is stored as [metadata.file]
    and the merge is attempted at once.  With fewer than two uploaded files
    the attempt fails with "Please send at least 2 PDF files to merge." and
    the merge is abandoned (step idle, no operation), the files being
    kept. *)
Theorem merge_other_text_abandons {Page : Type}
    (now : Z) (extname : string -> string)
    (getTempFilePath : string -> string)
    (load : Bytes -> Result (list Page)) (save : list Page -> Bytes)
    (engine : EngineCall -> gmap string Bytes ->
              Result string * gmap string Bytes)
    (pdfToImage : string -> option Z -> gmap string Bytes ->
                  Result (list string) * gmap string Bytes)
    (sendMedia : string -> Result unit)
    (message : Message) (w : World) (s : Session) :
  sessions w !! msg_from message = Some s ->
  selectedOperation s = Some "merge_pdf" ->
  currentStep s = "waiting_for_file" ->
  (length (uploadedFiles s) < 2)%nat ->
  isCommand (msg_body message) = false ->
  String.eqb (JS.trim (msg_body message)) "done" = false ->
  msg_hasMedia message = false ->
  let w' := (handleMessage now extname getTempFilePath load save engine
               pdfToImage sendMedia message w).2 in
  sessions w' !! msg_from message =
    Some {| userId := userId s;
            uploadedFiles := uploadedFiles s;
            currentStep := "idle";
            selectedOperation := None;
            metadata := <["file" := JS.trim (msg_body message)]> (metadata s);
            lastActivity := now |} /\
  staging w' = staging w /\
  engineLog w' = engineLog w /\
  outbox w' =
    outbox w ++
    [RProcessing; RError "Please send at least 2 PDF files to merge."].
Proof.
  intros Hs Hop Hstep Hlen Hcmd Hdone Hmedia w'. subst w'.
  apply Nat.ltb_lt in Hlen. not_a_command Hcmd.
  unfold handleMessage.
  rewrite Hneq, Hneq0, Hneq1, Hneq2, Hneq3, Hmedia. run_session Hs.
  rewrite Hstep. simpl. unfold handleStepOperation. run_session Hs.
  rewrite Hop, Hdone, Hstep. simpl.
  unfold processOperation. run_session Hs.
  unfold processAttempt. run_session Hs.
  rewrite Hop. unfold dispatch. simpl. rewrite Hlen.
  unfold processFailed. run_session Hs.
  rewrite <- app_assoc. repeat split.
Qed.

Lemma merge_other_text_abandons_witness :
  outbox (Demo.handle 3000 "3000_c" (Demo.text "user" "go on")
            Demo.mergeWithOneFile).2
  = outbox Demo.mergeWithOneFile ++
    [RProcessing; RError "Please send at least 2 PDF files to merge."].
Proof.
  refine (proj2 (proj2 (proj2 (merge_other_text_abandons 3000 posix_extname
            (Demo.tempPath "3000_c") Demo.load Demo.save Demo.engine
            Demo.pdfToImage Demo.sendMedia (Demo.text "user" "go on")
            Demo.mergeWithOneFile Demo.mergeSession _ _ _ _ _ _ _))));
    vm_compute; reflexivity.
Defined.

(** ** Validation before any service runs *)

Lemma strIn_true_cons (x y : string) (l : list string) :
  strIn x (y :: l) = true -> x = y \/ strIn x l = true.
Proof.
  unfold strIn. simpl. intros H. apply orb_true_iff in H.
  destruct H as [H | H]; [left; now apply String.eqb_eq | now right].
Qed.

(** X21: for each of the twenty operations that work on a PDF,
    [processOperation] refuses a first uploaded file whose detected type is
    not pdf before any service is called: it replies with an error, leaves
    the staging area alone, and only resets the step and the operation. *)
Theorem non_pdf_is_refused_before_any_service {Page : Type}
    (now : Z) (getTempFilePath : string -> string)
    (load : Bytes -> Result (list Page)) (save : list Page -> Bytes)
    (engine : EngineCall -> gmap string Bytes ->
              Result string * gmap string Bytes)
    (pdfToImage : string -> option Z -> gmap string Bytes ->
                  Result (list string) * gmap string Bytes)
    (sendMedia : string -> Result unit)
    (uid op : string) (w : World) (s : Session)
    (f : FileInfo) (rest : list FileInfo) :
  sessions w !! uid = Some s ->
  selectedOperation s = Some op ->
  strIn op pdfOnlyOperations = true ->
  uploadedFiles s = f :: rest ->
  String.eqb (file_type f) "pdf" = false ->
  let w' := (processOperation now getTempFilePath load save engine
               pdfToImage sendMedia uid w).2 in
  engineLog w' = engineLog w /\
  staging w' = staging w /\
  (exists msg, outbox w' = outbox w ++ [RProcessing; RError msg]) /\
  sessions w' !! uid =
    Some {| userId := userId s;
            uploadedFiles := uploadedFiles s;
            currentStep := "idle";
            selectedOperation := None;
            metadata := metadata s;
            lastActivity := now |}.
Proof.
  intros Hs Hop Hin Hfiles Hpdf w'. subst w'.
  unfold processOperation. run_session Hs.
  unfold processAttempt. run_session Hs. rewrite Hop, Hfiles.
  unfold pdfOnlyOperations in Hin.
  repeat (apply strIn_true_cons in Hin; destruct Hin as [-> | Hin]);
    try discriminate Hin;
    unfold dispatch, simplePdfCase, pageRangeCase, validateFileType;
    simpl; rewrite Hpdf; simpl;
    unfold processFailed; run_session Hs;
    rewrite <- app_assoc, <- Hfiles; repeat split; eexists; reflexivity.
Qed.

Lemma non_pdf_is_refused_before_any_service_witness :
  engineLog (processOperation 2000 (Demo.tempPath "2000_x") Demo.load
               Demo.save Demo.engine Demo.pdfToImage Demo.sendMedia
               "user" Demo.rotateWithPhoto).2
  = engineLog Demo.rotateWithPhoto.
Proof.
  refine (proj1 (non_pdf_is_refused_before_any_service 2000
            (Demo.tempPath "2000_x") Demo.load Demo.save Demo.engine
            Demo.pdfToImage Demo.sendMedia "user" "rotate_pdf"
            Demo.rotateWithPhoto Demo.photoSession
            _ [] _ _ _ eq_refl _));
    vm_compute; reflexivity.
Defined.

(** ** A successful operation *)

Lemma verifyFile_truthy (fs : gmap string Bytes) (p : string) :
  verifyFile fs p = true -> JS.truthy p = true.
Proof. unfold verifyFile. destruct (JS.truthy p); [reflexivity | discriminate]. Qed.



(** ** Operations the conversation cannot finish *)

(** X23: crop and redact are dead ends: with a PDF uploaded they call no
    service, answer that manual input is needed, and return the sender to
    idle with no operation; the uploaded files and metadata stay. *)
Theorem crop_and_redact_are_dead_ends {Page : Type}
    (now : Z) (getTempFilePath : string -> string)
    (load : Bytes -> Result (list Page)) (save : list Page -> Bytes)
    (engine : EngineCall -> gmap string Bytes ->
              Result string * gmap string Bytes)
    (pdfToImage : string -> option Z -> gmap string Bytes ->
                  Result (list string) * gmap string Bytes)
    (sendMedia : string -> Result unit)
    (uid op : string) (w : World) (s : Session)
    (f : FileInfo) (rest : list FileInfo) :
  sessions w !! uid = Some s ->
  selectedOperation s = Some op ->
  strIn op ["crop_pdf"; "redact_pdf"] = true ->
  uploadedFiles s = f :: rest ->
  file_type f = "pdf" ->
  let w' := (processOperation now getTempFilePath load save engine
               pdfToImage sendMedia uid w).2 in
  engineLog w' = engineLog w /\
  staging w' = staging w /\
  outbox w' =
    outbox w ++ [RProcessing;
                 if String.eqb op "crop_pdf" then RCropUnsupported
                 else RRedactUnsupported] /\
  sessions w' !! uid =
    Some {| userId := userId s;
            uploadedFiles := uploadedFiles s;
            currentStep := "idle";
            selectedOperation := None;
            metadata := metadata s;
            lastActivity := now |}.
Proof.
  intros Hs Hop Hin Hfiles Hpdf w'. subst w'.
  unfold processOperation. run_session Hs.
  unfold processAttempt. run_session Hs. rewrite Hop, Hfiles.
  repeat (apply strIn_true_cons in Hin; destruct Hin as [-> | Hin]);
    try discriminate Hin;
    unfold dispatch, validateFileType;
    simpl; rewrite Hpdf; simpl; run_session Hs;
    rewrite <- !app_assoc, <- Hfiles; repeat split.
Qed.

Lemma crop_and_redact_are_dead_ends_witness :
  engineLog (processOperation 2000 (Demo.tempPath "2000_x") Demo.load
               Demo.save Demo.engineOk Demo.pdfToImage Demo.sendMedia
               "user" Demo.cropReady).2 = engineLog Demo.cropReady.
Proof.
  refine (proj1 (crop_and_redact_are_dead_ends 2000
            (Demo.tempPath "2000_x") Demo.load Demo.save Demo.engineOk
            Demo.pdfToImage Demo.sendMedia "user" "crop_pdf"
            Demo.cropReady Demo.cropSession _ []
            _ _ _ _ _)); vm_compute; reflexivity.
Defined.

(** X24: with add_watermark selected and a single PDF uploaded, a typed
    answer to the watermark prompt never reaches the service: it is stored
    under the key [watermark], which [processOperation] does not read (it
    reads [watermarkText]), so the prompt is sent again and the session
    stays in [waiting_for_watermark]. *)
Theorem watermark_text_is_never_used {Page : Type}
    (now : Z) (extname : string -> string)
    (getTempFilePath : string -> string)
    (load : Bytes -> Result (list Page)) (save : list Page -> Bytes)
    (engine : EngineCall -> gmap string Bytes ->
              Result string * gmap string Bytes)
    (pdfToImage : string -> option Z -> gmap string Bytes ->
                  Result (list string) * gmap string Bytes)
    (sendMedia : string -> Result unit)
    (message : Message) (w : World) (s : Session) (f : FileInfo) :
  sessions w !! msg_from message = Some s ->
  selectedOperation s = Some "add_watermark" ->
  currentStep s = "waiting_for_watermark" ->
  uploadedFiles s = [f] ->
  file_type f = "pdf" ->
  metaGet (metadata s) "watermarkText" = None ->
  isCommand (msg_body message) = false ->
  msg_hasMedia message = false ->
  let w' := (handleMessage now extname getTempFilePath load save engine
               pdfToImage sendMedia message w).2 in
  engineLog w' = engineLog w /\
  staging w' = staging w /\
  outbox w' = outbox w ++ [RProcessing; RAskWatermark] /\
  sessions w' !! msg_from message =
    Some {| userId := userId s;
            uploadedFiles := uploadedFiles s;
            currentStep := "waiting_for_watermark";
            selectedOperation := Some "add_watermark";
            metadata :=
              <["watermark" := JS.trim (msg_body message)]> (metadata s);
            lastActivity := now |}.
Proof.
  intros Hs Hop Hstep Hfiles Hpdf Hmeta Hcmd Hmedia w'. subst w'.
  not_a_command Hcmd.
  assert (Hmeta' :
    metaGet (<["watermark" := JS.trim (msg_body message)]> (metadata s))
            "watermarkText" = None).
  { unfold metaGet in *. now rewrite lookup_insert_ne by discriminate. }
  unfold handleMessage.
  rewrite Hneq, Hneq0, Hneq1, Hneq2, Hneq3, Hmedia. run_session Hs.
  rewrite Hstep. simpl. unfold handleStepOperation. run_session Hs.
  rewrite Hop, Hstep. simpl.
  unfold processOperation. run_session Hs.
  unfold processAttempt. run_session Hs.
  change (stripWaitingFor "waiting_for_watermark") with "watermark".
  rewrite Hop, Hfiles. unfold dispatch, validateFileType.
  rewrite Hmeta', Hpdf. simpl. run_session Hs.
  rewrite <- !app_assoc, <- Hfiles. repeat split.
Qed.

Lemma watermark_text_is_never_used_witness :
  engineLog (Demo.handle 3000 "3000_c" (Demo.text "user" "Draft")
               Demo.watermarkAsked).2 = engineLog Demo.watermarkAsked.
Proof.
  refine (proj1 (watermark_text_is_never_used 3000 posix_extname
            (Demo.tempPath "3000_c") Demo.load Demo.save Demo.engine
            Demo.pdfToImage Demo.sendMedia (Demo.text "user" "Draft")
            Demo.watermarkAsked Demo.watermarkSession _
            _ _ _ _ _ _ _ _)); vm_compute; reflexivity.
Defined.

(** ** Uploads *)

Lemma uploadExtension_cases (m : string) :
  In (uploadExtension m) uploadExtensions.
Proof.
  unfold uploadExtension, uploadExtensions.
  repeat match goal with
         | |- context [if ?b then _ else _] => destruct b
         end; simpl; tauto.
Qed.

(** X25: provided [path.extname] gives back the extension the temporary
    handle was allocated with, the type recorded for an upload depends on
    its MIME type alone, by the table [mimeTag]; in particular an upload is
    typed pdf exactly when its MIME type contains "pdf". *)
Theorem upload_type_follows_mime (extname : string -> string)
    (getTempFilePath : string -> string) (m : string) :
  Forall (fun e => extname (getTempFilePath e) = e) uploadExtensions ->
  detectFileType extname (getTempFilePath (uploadExtension m)) (Some m)
    = mimeTag m /\
  (detectFileType extname (getTempFilePath (uploadExtension m)) (Some m)
     = "pdf" <-> JS.includes m "pdf" = true).
Proof.
  intros Hext.
  assert (Htag : detectFileType extname (getTempFilePath (uploadExtension m))
                   (Some m) = mimeTag m).
  { unfold detectFileType, getFileExtension.
    rewrite List.Forall_forall in Hext.
    rewrite (Hext _ (uploadExtension_cases m)).
    unfold uploadExtension, mimeTag.
    destruct (JS.includes m "pdf") eqn:E1; [reflexivity |].
    destruct (JS.includes m "image") eqn:E2; [reflexivity |].
    destruct (JS.includes m "word") eqn:E3; [reflexivity |].
    destruct (JS.includes m "presentation") eqn:E4; [reflexivity |].
    destruct (JS.includes m "spreadsheet") eqn:E5; [reflexivity |].
    destruct (JS.includes m "html") eqn:E6; [reflexivity |].
    cbv -[JS.includes].
    destruct m; [reflexivity |].
    destruct (JS.includes _ "document"); [reflexivity |].
    destruct (JS.includes _ "powerpoint"); [reflexivity |].
    destruct (JS.includes _ "excel"); reflexivity. }
  split; [exact Htag |].
  rewrite Htag. unfold mimeTag.
  repeat match goal with
         | |- context [if ?b then _ else _] => destruct b
         end; split; intros H; try reflexivity; discriminate H.
Qed.

Lemma upload_type_follows_mime_witness :
  detectFileType posix_extname
    (Demo.tempPath "1_a" (uploadExtension "application/vnd.ms-excel"))
    (Some "application/vnd.ms-excel")
  = mimeTag "application/vnd.ms-excel".
Proof.
  refine (proj1 (upload_type_follows_mime posix_extname (Demo.tempPath "1_a")
                   "application/vnd.ms-excel" _)).
  repeat constructor.
Defined.

(** ** Answers to prompts *)

(** Case analysis on what the services, the staging area and the chat
    client answer. *)
Ltac settle_cases engine sendMedia :=
  repeat (simpl;
          match goal with
          | |- context [splitPDF ?a ?b ?c ?d ?e ?f] =>
              destruct (splitPDF a b c d e f) as [[? | ?] ?]
          | |- context [removePages ?a ?b ?c ?d ?e ?f] =>
              destruct (removePages a b c d e f) as [[? | ?] ?]
          | |- context [extractPages ?a ?b ?c ?d ?e ?f] =>
              destruct (extractPages a b c d e f) as [[? | ?] ?]
          | |- context [engine ?c ?fs] =>
              destruct (engine c fs) as [[? | ?] ?]
          | |- context [verifyFile ?fs ?p] => destruct (verifyFile fs p)
          | |- context [JS.truthy ?p] => destruct (JS.truthy p)
          | |- context [sendMedia ?p] => destruct (sendMedia p) as [[] | ?]
          end).

(** X26: the text typed at the page-range prompt of split, remove pages
    and extract pages is handed to the service as typed, only trimmed (its
    letter case is kept); exactly one service call is made, on the first
    uploaded file. *)
Theorem page_range_answer_reaches_service {Page : Type}
    (now : Z) (extname : string -> string)
    (getTempFilePath : string -> string)
    (load : Bytes -> Result (list Page)) (save : list Page -> Bytes)
    (engine : EngineCall -> gmap string Bytes ->
              Result string * gmap string Bytes)
    (pdfToImage : string -> option Z -> gmap string Bytes ->
                  Result (list string) * gmap string Bytes)
    (sendMedia : string -> Result unit)
    (message : Message) (w : World) (s : Session) (op : string)
    (f : FileInfo) (rest : list FileInfo) :
  sessions w !! msg_from message = Some s ->
  selectedOperation s = Some op ->
  strIn op ["split_pdf"; "remove_pages"; "extract_pages"] = true ->
  currentStep s = "waiting_for_page_range" ->
  uploadedFiles s = f :: rest ->
  file_type f = "pdf" ->
  isCommand (msg_body message) = false ->
  JS.truthy (JS.trim (msg_body message)) = true ->
  msg_hasMedia message = false ->
  let w' := (handleMessage now extname getTempFilePath load save engine
               pdfToImage sendMedia message w).2 in
  engineLog w' =
    engineLog w ++
    [(if String.eqb op "split_pdf" then SplitPDF
      else if String.eqb op "remove_pages" then RemovePages
      else ExtractPages) (file_path f) (JS.trim (msg_body message))].
Proof.
  intros Hs Hop Hin Hstep Hfiles Hpdf Hcmd Hbody Hmedia w'. subst w'.
  not_a_command Hcmd.
  assert (Hmeta :
    metaGet (<["pageRange" := JS.trim (msg_body message)]> (metadata s))
            "pageRange" = Some (JS.trim (msg_body message))).
  { unfold metaGet. now rewrite lookup_insert_eq, Hbody. }
  unfold handleMessage.
  rewrite Hneq, Hneq0, Hneq1, Hneq2, Hneq3, Hmedia. run_session Hs.
  rewrite Hstep. simpl. unfold handleStepOperation. run_session Hs.
  rewrite Hstep. simpl.
  assert (Hnm : bool_decide (selectedOperation s = Some "merge_pdf") = false).
  { apply bool_decide_eq_false_2. rewrite Hop. intros [= ->].
    discriminate Hin. }
  rewrite Hnm. simpl.
  unfold processOperation. run_session Hs.
  unfold processAttempt. run_session Hs.
  rewrite Hop, Hfiles.
  repeat (apply strIn_true_cons in Hin; destruct Hin as [-> | Hin]);
    try discriminate Hin;
    unfold dispatch, pageRangeCase, validateFileType;
    rewrite Hmeta, Hpdf; simpl; run_session Hs;
    unfold deliver, sendFile, processFailed; run_session Hs;
    settle_cases engine sendMedia; reflexivity.
Qed.

Lemma page_range_answer_reaches_service_witness :
  engineLog (Demo.handle 3000 "3000_c" (Demo.text "user" " 2-3 ")
               Demo.splitAsked).2
  = engineLog Demo.splitAsked ++ [SplitPDF "/app/temp/doc.pdf" "2-3"].
Proof.
  refine (page_range_answer_reaches_service 3000 posix_extname
            (Demo.tempPath "3000_c") Demo.load Demo.save Demo.engine
            Demo.pdfToImage Demo.sendMedia (Demo.text "user" " 2-3 ")
            Demo.splitAsked Demo.splitSession "split_pdf" Demo.docFile []
            _ _ _ _ _ _ _ _ _); vm_compute; reflexivity.
Defined.

(** ** Two-file operations *)

(** X27: with compare selected and two PDFs uploaded, the next text that
    is not a control word runs the comparison: [comparePDFs] is called on
    the two files in upload order and its result is sent; then the files
    are dropped from the session and the step and operation reset, while
    the metadata (now holding the text under [file]) and the staged files
    are left as they are. *)
Theorem compare_completes_on_next_text {Page : Type}
    (now : Z) (extname : string -> string)
    (getTempFilePath : string -> string)
    (load : Bytes -> Result (list Page)) (save : list Page -> Bytes)
    (engine : EngineCall -> gmap string Bytes ->
              Result string * gmap string Bytes)
    (pdfToImage : string -> option Z -> gmap string Bytes ->
                  Result (list string) * gmap string Bytes)
    (sendMedia : string -> Result unit)
    (message : Message) (w : World) (s : Session)
    (f1 f2 : FileInfo) (d : Differences) :
  sessions w !! msg_from message = Some s ->
  selectedOperation s = Some "compare_pdf" ->
  currentStep s = "waiting_for_file" ->
  uploadedFiles s = [f1; f2] ->
  file_type f1 = "pdf" ->
  file_type f2 = "pdf" ->
  comparePDFs load (staging w) (file_path f1) (file_path f2) = Ok d ->
  isCommand (msg_body message) = false ->
  msg_hasMedia message = false ->
  let w' := (handleMessage now extname getTempFilePath load save engine
               pdfToImage sendMedia message w).2 in
  engineLog w' =
    engineLog w ++ [ComparePDFs (file_path f1) (file_path f2)] /\
  staging w' = staging w /\
  outbox w' = outbox w ++ [RProcessing; RComparison d] /\
  sessions w' !! msg_from message =
    Some {| userId := userId s;
            uploadedFiles := [];
            currentStep := "idle";
            selectedOperation := None;
            metadata := <["file" := JS.trim (msg_body message)]> (metadata s);
            lastActivity := now |}.
Proof.
  intros Hs Hop Hstep Hfiles Hpdf1 Hpdf2 Hcmp Hcmd Hmedia w'. subst w'.
  not_a_command Hcmd.
  unfold handleMessage.
  rewrite Hneq, Hneq0, Hneq1, Hneq2, Hneq3, Hmedia. run_session Hs.
  rewrite Hstep. simpl. unfold handleStepOperation. run_session Hs.
  rewrite Hop, Hstep. simpl.
  unfold processOperation. run_session Hs.
  unfold processAttempt. run_session Hs.
  rewrite Hop, Hfiles. unfold dispatch.
  set (compare := comparePDFs load) in *. simpl.
  rewrite Hpdf1, Hpdf2. simpl. run_session Hs.
  rewrite Hcmp. simpl. run_session Hs.
  rewrite <- !app_assoc. repeat split.
Qed.

Lemma compare_completes_on_next_text_witness :
  exists d,
    outbox Demo.afterNudge =
    outbox Demo.afterSecondPdf ++ [RProcessing; RComparison d].
Proof.
  eexists.
  refine (proj1 (proj2 (proj2 (compare_completes_on_next_text 4000
            posix_extname (Demo.tempPath "4000_d") Demo.load Demo.save
            Demo.engine Demo.pdfToImage Demo.sendMedia
            (Demo.text "user" "ok") Demo.afterSecondPdf
            Demo.sessionAfterSecondPdf _ _ _
            _ _ _ _ _ _ _ _ _)))); vm_compute; reflexivity.
Defined.

(** X28: sign, the other operation that needs exactly two files, does
    advance on its own: with sign_pdf selected and a PDF already uploaded,
    receiving a second file (of any type) calls [signPDF] at once with the
    first file as the document and the new file as the signature. *)
Theorem sign_runs_on_second_upload {Page : Type}
    (now : Z) (extname : string -> string)
    (getTempFilePath : string -> string)
    (load : Bytes -> Result (list Page)) (save : list Page -> Bytes)
    (engine : EngineCall -> gmap string Bytes ->
              Result string * gmap string Bytes)
    (pdfToImage : string -> option Z -> gmap string Bytes ->
                  Result (list string) * gmap string Bytes)
    (sendMedia : string -> Result unit)
    (message : Message) (uid : string) (w : World) (s : Session)
    (f1 : FileInfo) (media : Media) :
  sessions w !! uid = Some s ->
  selectedOperation s = Some "sign_pdf" ->
  uploadedFiles s = [f1] ->
  file_type f1 = "pdf" ->
  msg_download message = Downloaded media ->
  media_data media <> [] ->
  JS.truthy (getTempFilePath (uploadExtension (media_mimetype media)))
    = true ->
  let w' := (handleFileUpload now extname getTempFilePath load save engine
               pdfToImage sendMedia message uid w).2 in
  engineLog w' =
    engineLog w ++
    [SignPDF (file_path f1)
             (getTempFilePath (uploadExtension (media_mimetype media)))
             (default "bottom-right" (metaGet (metadata s) "position"))].
Proof.
  intros Hs Hop Hfiles Hpdf Hdl Hdata Hpath w'. subst w'.
  unfold handleFileUpload. rewrite Hdl. run_session Hs.
  assert (Hsaved :
    verifyFile
      (<[getTempFilePath (uploadExtension (media_mimetype media)) :=
           media_data media]> (staging w))
      (getTempFilePath (uploadExtension (media_mimetype media))) = true).
  { unfold verifyFile. rewrite Hpath, lookup_insert_eq. simpl.
    destruct (media_data media); [contradiction | reflexivity]. }
  rewrite Hsaved. simpl. unfold addFileToSession. run_session Hs.
  rewrite Hop. simpl.
  unfold checkOperationRequirements. run_session Hs.
  rewrite ?Hop, ?Hfiles. simpl.
  unfold processOperation. run_session Hs.
  unfold processAttempt. run_session Hs.
  rewrite ?Hop, ?Hfiles.
  unfold dispatch, validateFileType. simpl. rewrite Hpdf. simpl.
  run_session Hs.
  unfold deliver, sendFile, processFailed; run_session Hs.
  settle_cases engine sendMedia; reflexivity.
Qed.

Lemma sign_runs_on_second_upload_witness :
  engineLog (Demo.upload 3000 "3000_c" (Demo.pdfUpload "user" Demo.bytes2)
               Demo.signWithPdf).2
  = engineLog Demo.signWithPdf ++
    [SignPDF "/app/temp/doc.pdf" "/app/temp/temp_3000_c.pdf" "bottom-right"].
Proof.
  refine (sign_runs_on_second_upload 3000 posix_extname
            (Demo.tempPath "3000_c") Demo.load Demo.save Demo.engine
            Demo.pdfToImage Demo.sendMedia
            (Demo.pdfUpload "user" Demo.bytes2) "user"
            Demo.signWithPdf Demo.signSession Demo.docFile
            {| media_mimetype := "application/pdf";
               media_data := Demo.bytes2;
               media_filename := None |}
            _ _ _ _ _ _ _);
    try (vm_compute; reflexivity).
  discriminate.
Defined.


